(** * EDUCATUM landing page: a shallow embedding of [script.js]

    [src/script.js] holds two variants of the same client script:
    the "Education" script (lines 1-1524, storage key [education_theme],
    every method wrapped in try/catch) and the older "Educatum" script
    (lines 1525-2494, storage key [educatum_theme], no guards).  Functions
    that are textually the same in both are embedded once, at top level;
    functions that differ live in [Module Education] and [Module Educatum].

    JavaScript numbers are modelled as rationals ([Q]).  The concrete
    particle run below only uses dyadic rationals of small magnitude, so
    it is the same run in binary64 arithmetic. *)

From Stdlib Require Import ZArith QArith Qabs Lqa Lia Bool List.
From Stdlib Require Import Strings.String Strings.Ascii.
From stdpp Require Import gmap strings.

Import ListNotations.
Local Open Scope string_scope.

(** ** Exceptions and the state-and-exception monad

    A JavaScript call either returns a value or throws; both leave a
    (possibly modified) state behind. *)

Inductive exn : Type :=
| DOMException   (* SecurityError / QuotaExceededError raised by storage *)
| TypeError.     (* property access on null/undefined, call of a non-function *)

Inductive outcome (S A : Type) : Type :=
| Returns (a : A) (s : S)
| Throws (e : exn) (s : S).

Arguments Returns {S A} a s.
Arguments Throws {S A} e s.

Definition M (S A : Type) : Type := S -> outcome S A.

Definition ret {S A} (a : A) : M S A := fun s => Returns a s.

Definition bind {S A B} (m : M S A) (k : A -> M S B) : M S B :=
  fun s => match m s with
           | Returns a s' => k a s'
           | Throws e s' => Throws e s'
           end.

Definition throw {S A} (e : exn) : M S A := fun s => Throws e s.

(** [try { m } catch (error) { h error }] *)
Definition try_catch {S A} (m : M S A) (h : exn -> M S A) : M S A :=
  fun s => match m s with
           | Returns a s' => Returns a s'
           | Throws e s' => h e s'
           end.

Definition modify {S} (f : S -> S) : M S unit := fun s => Returns tt (f s).
Definition gets {S A} (f : S -> A) : M S A := fun s => Returns (f s) s.

Notation "'let!' x ':=' m 'in' k" := (bind m (fun x => k))
  (at level 10, x name, m at level 100, k at level 200).
Notation "m ';;' k" := (bind m (fun _ => k))
  (at level 100, k at level 200, right associativity).

Definition throws {S A} (o : outcome S A) : bool :=
  match o with Returns _ _ => false | Throws _ _ => true end.

Definition final_state {S A} (o : outcome S A) : S :=
  match o with Returns _ s => s | Throws _ s => s end.

(** ** JavaScript strings *)

(** [s.startsWith(pat)] *)
Fixpoint startsWith (s pat : string) : bool :=
  match pat with
  | EmptyString => true
  | String p pat' =>
      match s with
      | EmptyString => false
      | String c s' => Ascii.eqb c p && startsWith s' pat'
      end
  end.

(** [s.includes(pat)]: [pat] occurs somewhere in [s]. *)
Fixpoint includes (s pat : string) : bool :=
  if startsWith s pat then true
  else match s with
       | EmptyString => false
       | String _ s' => includes s' pat
       end.

Fixpoint drop_chars (n : nat) (s : string) : string :=
  match n with
  | O => s
  | S n' => match s with
            | EmptyString => EmptyString
            | String _ s' => drop_chars n' s'
            end
  end.

(** [s.replace(pat, rep)] with a string pattern: only the first (leftmost)
    occurrence is replaced.  ([rep] is taken verbatim; the script only
    ever passes the empty replacement.) *)
Fixpoint replace (s pat rep : string) : string :=
  if startsWith s pat then rep ++ drop_chars (String.length pat) s
  else match s with
       | EmptyString => EmptyString
       | String c s' => String c (replace s' pat rep)
       end.

(** Number of positions of [s] at which [pat] occurs. *)
Fixpoint occurrences (s pat : string) : nat :=
  (if startsWith s pat then 1 else 0) +
  match s with
  | EmptyString => 0
  | String _ s' => occurrences s' pat
  end.

(** All suffixes of a string, the string itself first. *)
Fixpoint tails (s : string) : list string :=
  s :: match s with
       | EmptyString => []
       | String _ s' => tails s'
       end.

(** Truthiness of a value that is [null] or a string: [if (v)]. *)
Definition truthy (v : option string) : bool :=
  match v with
  | None => false
  | Some EmptyString => false
  | Some _ => true
  end.

(** ** Video cards (VideoManager)

    [playVideo] and [pauseAllVideos] are the same in both scripts
    (lines 933-961 and 2074-2091; the try/catch of the Education script
    guards calls that cannot throw on an iframe element). *)

Record Iframe : Type := { src : option string }.   (* getAttribute('src') *)

Record VideoCard : Type := {
  iframe : option Iframe;        (* card.querySelector('iframe') *)
  overlay : bool                 (* card.querySelector('.video-overlay') found *)
}.

Definition playVideo (f : Iframe) : Iframe :=
  match src f with
  | Some s =>
      if truthy (Some s) && negb (includes s "autoplay=1")
      then {| src := Some (s ++ "&autoplay=1") |}
      else f
  | None => f
  end.

Definition pauseVideo (f : Iframe) : Iframe :=
  match src f with
  | Some s =>
      if truthy (Some s) && includes s "autoplay=1"
      then {| src := Some (replace s "&autoplay=1" "") |}
      else f
  | None => f
  end.

(** [this.videoCards.forEach(card => ...)] of [pauseAllVideos]. *)
Definition pauseAllVideos (cards : list VideoCard) : list VideoCard :=
  map (fun card =>
         match iframe card with
         | Some f => {| iframe := Some (pauseVideo f); overlay := overlay card |}
         | None => card
         end) cards.

(** [setupVideoCard] installs the listeners only on a card that has both
    an iframe and an overlay. *)
Definition is_set_up (card : VideoCard) : bool :=
  match iframe card with Some _ => overlay card | None => false end.

(** Click on the overlay of card [i]: [this.playVideo(iframe)]. *)
Definition overlay_click (i : nat) (cards : list VideoCard) : list VideoCard :=
  match nth_error cards i with
  | Some card =>
      match iframe card with
      | Some f =>
          if overlay card
          then <[ i := {| iframe := Some (playVideo f); overlay := true |} ]> cards
          else cards
      | None => cards
      end
  | None => cards
  end.

Definition card_src (cards : list VideoCard) (j : nat) : option string :=
  match nth_error cards j with
  | Some card => match iframe card with Some f => src f | None => None end
  | None => None
  end.

(** ** Browser facilities *)

Module Storage.

(** [window.localStorage]: a string-to-string store whose methods may
    raise (storage disabled: every access raises; quota exhausted:
    only [setItem] raises). *)
Record t : Type := {
  items : gmap string string;
  get_fails : bool;
  set_fails : bool;
  remove_fails : bool
}.

Definition getItem (st : t) (k : string) : exn + option string :=
  if get_fails st then inl DOMException else inr (items st !! k).

Definition setItem (st : t) (k v : string) : exn + t :=
  if set_fails st then inl DOMException
  else inr {| items := <[k := v]> (items st); get_fails := get_fails st;
              set_fails := set_fails st; remove_fails := remove_fails st |}.

Definition removeItem (st : t) (k : string) : exn + t :=
  if remove_fails st then inl DOMException
  else inr {| items := delete k (items st); get_fails := get_fails st;
              set_fails := set_fails st; remove_fails := remove_fails st |}.

(** A storage on which every access raises. *)
Definition disabled (m : gmap string string) : t :=
  {| items := m; get_fails := true; set_fails := true; remove_fails := true |}.

(** A storage on which no access raises. *)
Definition working (m : gmap string string) : t :=
  {| items := m; get_fails := false; set_fails := false; remove_fails := false |}.

End Storage.

Module Raf.

(** The frame scheduler as one component sees it: the handles of its
    own pending callbacks.  [requestAnimationFrame] returns non-zero
    handles; within one component every scheduled callback is the same
    closure, so a handle is all that has to be remembered. *)
Record t : Type := { next_id : nat; pending : list nat }.

Definition initial : t := {| next_id := 1; pending := [] |}.

Definition requestAnimationFrame (r : t) : nat * t :=
  (next_id r, {| next_id := S (next_id r); pending := (pending r ++ [next_id r])%list |}).

Definition cancelAnimationFrame (id : nat) (r : t) : t :=
  {| next_id := next_id r;
     pending := List.filter (fun i => negb (Nat.eqb i id)) (pending r) |}.

(** Start of a frame: the callbacks due now are taken off the queue. *)
Definition take (r : t) : list nat * t :=
  (pending r, {| next_id := next_id r; pending := [] |}).

(** Truthiness of a stored handle: [if (this.animationFrameId)]. *)
Definition truthy_id (h : option nat) : bool :=
  match h with Some (S _) => true | _ => false end.

End Raf.

(** ** Theme: the page as the ThemeManager sees it *)

Module ThemePage.

Record ToggleButton : Type := {
  icon : option string;            (* className of the <i> child, if any *)
  aria_pressed : option string
}.

Record t : Type := {
  localStorage : Storage.t;
  prefers_dark : option bool;      (* None: window.matchMedia is undefined;
                                      Some b: matchMedia('(prefers-color-scheme: dark)').matches *)
  data_theme : option string;      (* documentElement's data-theme attribute *)
  themeToggle : option ToggleButton;
  body_transition : string;        (* document.body.style.transition *)
  transition_timers : nat;         (* pending 300ms timers that clear it *)
  currentTheme : string;           (* this.currentTheme *)
  console_errors : nat             (* calls of logError *)
}.

Definition set_localStorage (st : Storage.t) (w : t) : t :=
  {| localStorage := st; prefers_dark := prefers_dark w;
     data_theme := data_theme w; themeToggle := themeToggle w;
     body_transition := body_transition w;
     transition_timers := transition_timers w;
     currentTheme := currentTheme w; console_errors := console_errors w |}.

Definition set_data_theme (v : string) (w : t) : t :=
  {| localStorage := localStorage w; prefers_dark := prefers_dark w;
     data_theme := Some v; themeToggle := themeToggle w;
     body_transition := body_transition w;
     transition_timers := transition_timers w;
     currentTheme := currentTheme w; console_errors := console_errors w |}.

Definition set_themeToggle (b : option ToggleButton) (w : t) : t :=
  {| localStorage := localStorage w; prefers_dark := prefers_dark w;
     data_theme := data_theme w; themeToggle := b;
     body_transition := body_transition w;
     transition_timers := transition_timers w;
     currentTheme := currentTheme w; console_errors := console_errors w |}.

Definition set_currentTheme (v : string) (w : t) : t :=
  {| localStorage := localStorage w; prefers_dark := prefers_dark w;
     data_theme := data_theme w; themeToggle := themeToggle w;
     body_transition := body_transition w;
     transition_timers := transition_timers w;
     currentTheme := v; console_errors := console_errors w |}.

(** [document.body.style.transition = v; setTimeout(clear, 300)] *)
Definition start_transition (v : string) (w : t) : t :=
  {| localStorage := localStorage w; prefers_dark := prefers_dark w;
     data_theme := data_theme w; themeToggle := themeToggle w;
     body_transition := v;
     transition_timers := S (transition_timers w);
     currentTheme := currentTheme w; console_errors := console_errors w |}.

Definition logError (w : t) : t :=
  {| localStorage := localStorage w; prefers_dark := prefers_dark w;
     data_theme := data_theme w; themeToggle := themeToggle w;
     body_transition := body_transition w;
     transition_timers := transition_timers w;
     currentTheme := currentTheme w; console_errors := S (console_errors w) |}.

Definition storage_getItem (k : string) : M t (option string) :=
  fun w => match Storage.getItem (localStorage w) k with
           | inl e => Throws e w
           | inr v => Returns v w
           end.

Definition storage_setItem (k v : string) : M t unit :=
  fun w => match Storage.setItem (localStorage w) k v with
           | inl e => Throws e w
           | inr st => Returns tt (set_localStorage st w)
           end.

(** [theme === 'dark' ? a : b] *)
Definition if_dark {A} (theme : string) (a b : A) : A :=
  if String.eqb theme "dark" then a else b.

End ThemePage.

(** ** JavaScript numbers

    Numbers are rationals here and [+], [-], [*] are exact, where the
    scripts compute in IEEE 754 binary64 and round every result to the
    nearest representable number.  That rounding is monotone, leaves
    representable numbers unchanged (all the bounds used below: 0, 2, 6,
    10, 30, 100, the halves) and commutes with negation.  What is stated
    about numeric values is therefore kept to what any such rounding
    preserves: order, sign and closed bounds.  An open bound can be
    reached by rounding ([getRandomFloat(2, 6)] is 6 when
    [Math.random()] is just below 1), and an exact product or quotient
    need not be representable, so no statement relies on one; the values
    shown in examples are those of the exact computation. *)

(** ** Custom cursor: the page as CustomCursor sees it *)

Module CursorPage.
Local Open Scope Q_scope.

(** [translate(a px, b px)] *)
Definition translate : Type := (Q * Q)%type.

Record t : Type := {
  cursor : option (option translate);      (* .custom-cursor: None if absent,
                                              else its style.transform *)
  cursorDot : option (option translate);   (* .custom-cursor-dot *)
  max_width_768 : bool;                    (* matchMedia('(max-width: 768px)').matches *)
  mouseX : Q; mouseY : Q;                  (* closure variables of init *)
  cursorX : Q; cursorY : Q;
  dotX : Q; dotY : Q;
  loop_handle : option nat;                (* closure variable animationFrameId *)
  animationFrameId : option nat;           (* this.animationFrameId *)
  frames : Raf.t
}.

Definition present {A} (o : option A) : bool :=
  match o with Some _ => true | None => false end.

(** The interpolation step of [updateCursor], common to both scripts:
    the new values of cursorX, cursorY, dotX, dotY, computed exactly
    (see JavaScript numbers above). *)
Definition lerp (w : t) : Q * Q * (Q * Q) :=
  (cursorX w + (mouseX w - cursorX w) * (1 # 10),
   cursorY w + (mouseY w - cursorY w) * (1 # 10),
   (dotX w + (mouseX w - dotX w) * (15 # 100),
    dotY w + (mouseY w - dotY w) * (15 # 100))).

(** The [mousemove] listener. *)
Definition on_mousemove (clientX clientY : Q) (w : t) : t :=
  {| cursor := cursor w; cursorDot := cursorDot w;
     max_width_768 := max_width_768 w;
     mouseX := clientX; mouseY := clientY;
     cursorX := cursorX w; cursorY := cursorY w;
     dotX := dotX w; dotY := dotY w;
     loop_handle := loop_handle w;
     animationFrameId := animationFrameId w; frames := frames w |}.

(** What the component has written to the document. *)
Definition rendered (w : t) : option (option translate) * option (option translate) :=
  (cursor w, cursorDot w).

End CursorPage.

(** ** Particles: the page as ParticleSystem sees it *)

Definition Qltb (a b : Q) : bool := negb (Qle_bool b a).

Module ParticlePage.

Record Element : Type := {
  style_left : Q;              (* percent *)
  style_top : Q;               (* percent *)
  style_size : Q;              (* width and height, px *)
  animation_duration : Q;      (* seconds *)
  animation_delay : Q          (* seconds, the style carries its negation *)
}.

Record Particle : Type := {
  element : Element;
  x : Q; y : Q;
  vx : Q; vy : Q;
  size : Q
}.

Record t : Type := {
  random : nat -> Q;           (* the successive values of Math.random() *)
  draws : nat;                 (* how many have been consumed *)
  innerWidth : Z;              (* window.innerWidth *)
  prefers_reduced_motion : bool;
  container : bool;            (* #heroParticles exists *)
  particles : list Particle;   (* this.particles; their elements are the
                                  children appended to the container *)
  isActive : bool;
  animationFrameId : option nat;   (* Education script only *)
  frames : Raf.t;                  (* callbacks requested by the current
                                      ParticleSystem object *)
  stale_frames : list nat          (* callbacks still in the browser's queue
                                      that were requested by objects
                                      handleResize has discarded *)
}.

Definition Math_random (w : t) : Q * t :=
  (random w (draws w),
   {| random := random w; draws := S (draws w); innerWidth := innerWidth w;
      prefers_reduced_motion := prefers_reduced_motion w;
      container := container w; particles := particles w;
      isActive := isActive w; animationFrameId := animationFrameId w;
      frames := frames w; stale_frames := stale_frames w |}).

Definition set_particles (ps : list Particle) (w : t) : t :=
  {| random := random w; draws := draws w; innerWidth := innerWidth w;
     prefers_reduced_motion := prefers_reduced_motion w;
     container := container w; particles := ps;
     isActive := isActive w; animationFrameId := animationFrameId w;
     frames := frames w; stale_frames := stale_frames w |}.

Definition set_isActive (b : bool) (w : t) : t :=
  {| random := random w; draws := draws w; innerWidth := innerWidth w;
     prefers_reduced_motion := prefers_reduced_motion w;
     container := container w; particles := particles w;
     isActive := b; animationFrameId := animationFrameId w;
     frames := frames w; stale_frames := stale_frames w |}.

Definition set_animationFrameId (h : option nat) (w : t) : t :=
  {| random := random w; draws := draws w; innerWidth := innerWidth w;
     prefers_reduced_motion := prefers_reduced_motion w;
     container := container w; particles := particles w;
     isActive := isActive w; animationFrameId := h;
     frames := frames w; stale_frames := stale_frames w |}.

Definition set_frames (r : Raf.t) (w : t) : t :=
  {| random := random w; draws := draws w; innerWidth := innerWidth w;
     prefers_reduced_motion := prefers_reduced_motion w;
     container := container w; particles := particles w;
     isActive := isActive w; animationFrameId := animationFrameId w;
     frames := r; stale_frames := stale_frames w |}.

Definition set_innerWidth (width : Z) (w : t) : t :=
  {| random := random w; draws := draws w; innerWidth := width;
     prefers_reduced_motion := prefers_reduced_motion w;
     container := container w; particles := particles w;
     isActive := isActive w; animationFrameId := animationFrameId w;
     frames := frames w; stale_frames := stale_frames w |}.

Definition set_stale_frames (ids : list nat) (w : t) : t :=
  {| random := random w; draws := draws w; innerWidth := innerWidth w;
     prefers_reduced_motion := prefers_reduced_motion w;
     container := container w; particles := particles w;
     isActive := isActive w; animationFrameId := animationFrameId w;
     frames := frames w; stale_frames := ids |}.

(** Every frame callback the browser still holds for the particle field,
    whichever object requested it. *)
Definition queued (w : t) : list nat :=
  (stale_frames w ++ Raf.pending (frames w))%list.

(** The particle elements currently in the document. *)
Definition rendered (w : t) : list Element := map element (particles w).

End ParticlePage.

Section ParticlesCommon.
Import ParticlePage.
Local Open Scope Q_scope.

(** [getRandomFloat] (lines 97 and 1578), computed exactly: for a draw in
    [0,1) the result is in [min, max) here and in [min, max] in
    binary64, where it can round up to [max]. *)
Definition getRandomFloat (min max : Q) (w : t) : Q * t :=
  let '(r, w1) := Math_random w in (r * (max - min) + min, w1).

(** One turn of the [for] loop of [createParticles]
    (lines 760-792 and 1956-1987). *)
Definition createParticle (w : t) : t :=
  let '(x0, w1) := getRandomFloat 0 100 w in
  let '(y0, w2) := getRandomFloat 0 100 w1 in
  let '(size0, w3) := getRandomFloat 2 6 w2 in
  let '(duration, w4) := getRandomFloat 10 30 w3 in
  let '(delay, w5) := getRandomFloat 0 duration w4 in
  let particle := {| style_left := x0; style_top := y0; style_size := size0;
                     animation_duration := duration; animation_delay := delay |} in
  let '(vx0, w6) := getRandomFloat (- (1 # 2)) (1 # 2) w5 in
  let '(vy0, w7) := getRandomFloat (- (1 # 2)) (1 # 2) w6 in
  set_particles
    (particles w7 ++ [{| element := particle; x := x0; y := y0;
                         vx := vx0; vy := vy0; size := size0 |}])%list w7.

Fixpoint createParticles_loop (n : nat) (w : t) : t :=
  match n with
  | O => w
  | S n' => createParticles_loop n' (createParticle w)
  end.

(** [Math.min(50, Math.floor(window.innerWidth / 30))] *)
Definition particleCount (w : t) : Z := Z.min 50 (innerWidth w / 30)%Z.

Definition createParticles (w : t) : t :=
  createParticles_loop (Z.to_nat (particleCount w)) w.

(** The body of [this.particles.forEach] in [animate]
    (lines 805-815 and 1993-2003). *)
Definition advance (p : Particle) : Particle :=
  let x1 := x p + vx p in
  let y1 := y p + vy p in
  let vx1 := if Qltb x1 0 || Qltb 100 x1 then vx p * (-1) else vx p in
  let vy1 := if Qltb y1 0 || Qltb 100 y1 then vy p * (-1) else vy p in
  {| element := {| style_left := x1; style_top := y1;
                   style_size := style_size (element p);
                   animation_duration := animation_duration (element p);
                   animation_delay := animation_delay (element p) |};
     x := x1; y := y1; vx := vx1; vy := vy1; size := size p |}.

(** [requestAnimationFrame(() => this.animate())] *)
Definition request_frame (w : t) : nat * t :=
  let '(id, r) := Raf.requestAnimationFrame (frames w) in (id, set_frames r w).

(** The events the application shell delivers to the particle system. *)
Inductive event : Type :=
| FrameTick                 (* the browser runs the pending frame callbacks *)
| PageHidden                (* visibilitychange, document.hidden *)
| PageVisible               (* visibilitychange, not hidden *)
| Resize (width : Z)        (* debounced resize / orientationchange *)
| BeforeUnload.             (* cleanup() *)

End ParticlesCommon.

(** ** Scroll reveal (ScrollAnimationManager)

    Lines 624-713 and 1873-1928; the two scripts differ only in try/catch
    around calls that do not throw. *)

Module ScrollAnimationManager.

Record RevealElement : Type := {
  revealed : bool;                 (* has class 'revealed' *)
  data_delay : option nat          (* element.dataset.delay *)
}.

Record t : Type := {
  has_IntersectionObserver : bool; (* 'IntersectionObserver' in window *)
  elements : list RevealElement;   (* the .reveal-animation elements *)
  observer : option (list nat)     (* this.observer: null, or an observer
                                      and the indices of its targets *)
}.

Definition fallbackReveal (w : t) : t :=
  {| has_IntersectionObserver := has_IntersectionObserver w;
     elements := map (fun e => {| revealed := true; data_delay := data_delay e |})
                     (elements w);
     observer := observer w |}.

Definition createObserver (w : t) : t :=
  if has_IntersectionObserver w
  then {| has_IntersectionObserver := true; elements := elements w;
          observer := Some [] |}
  else fallbackReveal w.

(** [new ScrollAnimationManager()] *)
Definition new (w : t) : t :=
  createObserver {| has_IntersectionObserver := has_IntersectionObserver w;
                    elements := elements w; observer := None |}.

(** [querySelectorAll('.reveal-animation:not(.revealed)')] then, for the
    element at position [index] of that selection, set the delay and
    observe it.  [i] is the position in [elements], [index] the position
    in the selection. *)
Fixpoint observe_from (i index : nat) (es : list RevealElement)
  : list RevealElement * list nat :=
  match es with
  | [] => ([], [])
  | e :: es' =>
      if revealed e
      then let '(es1, obs) := observe_from (S i) index es' in (e :: es1, obs)
      else let '(es1, obs) := observe_from (S i) (S index) es' in
           ({| revealed := false; data_delay := Some (index * 100) |} :: es1,
            i :: obs)
  end.

Definition observeElements (w : t) : t :=
  match observer w with
  | None => w
  | Some targets =>
      let '(es, obs) := observe_from 0 0 (elements w) in
      {| has_IntersectionObserver := has_IntersectionObserver w;
         elements := es;
         observer :=
         Some (targets ++
               List.filter (fun i => negb (existsb (Nat.eqb i) targets)) obs)%list |}
  end.

(** [if (this.observer) this.observer.disconnect()] *)
Definition destroy (w : t) : t :=
  match observer w with
  | Some _ => {| has_IntersectionObserver := has_IntersectionObserver w;
                 elements := elements w; observer := Some [] |}
  | None => w
  end.

End ScrollAnimationManager.

(** ** The Education script (lines 1-1524) *)

Module Education.

Definition STORAGE_KEYS_THEME : string := "education_theme".

(** The module-level constant [isLocalStorageAvailable] (lines 36-46):
    a write-then-remove probe run once when the script loads. *)
Definition probe_localStorage (st : Storage.t) : bool * Storage.t :=
  match Storage.setItem st "__localStorage_test__" "__localStorage_test__" with
  | inl _ => (false, st)
  | inr st1 =>
      match Storage.removeItem st1 "__localStorage_test__" with
      | inl _ => (false, st1)
      | inr st2 => (true, st2)
      end
  end.

(** The script has been loaded: the probe has run on the page's storage
    and left its result in the constant. *)
Definition loaded (w : ThemePage.t) : bool * ThemePage.t :=
  let '(available, st) := probe_localStorage (ThemePage.localStorage w) in
  (available, ThemePage.set_localStorage st w).

Module ThemeManager.
Import ThemePage.

Section WithProbe.
(** The value the probe produced when the script was loaded. *)
Variable isLocalStorageAvailable : bool.

(** lines 220-232 *)
Definition getInitialTheme : M t string :=
  let! saved :=
    (if isLocalStorageAvailable
     then storage_getItem STORAGE_KEYS_THEME
     else ret None) in
  if truthy saved
  then ret (match saved with Some v => v | None => "" end)
  else gets (fun w => match prefers_dark w with
                      | Some true => "dark"   (* matchMedia && matchMedia(..).matches *)
                      | _ => "light"
                      end).

(** lines 278-301 *)
Definition applyTheme (theme : string) : M t unit :=
  try_catch
    (modify (set_currentTheme theme) ;;
     modify (set_data_theme theme) ;;
     modify (fun w =>
       match themeToggle w with
       | Some b =>
           set_themeToggle
             (Some {| icon := match icon b with
                              | Some _ => Some (if_dark theme "fas fa-sun" "fas fa-moon")
                              | None => None
                              end;
                      aria_pressed := Some (if_dark theme "true" "false") |}) w
       | None => w
       end) ;;
     modify (start_transition "background-color 0.3s ease, color 0.3s ease"))
    (fun _ => modify logError).

(** lines 261-272 *)
Definition toggleTheme : M t unit :=
  try_catch
    (let! cur := gets currentTheme in
     let newTheme := if String.eqb cur "light" then "dark" else "light" in
     applyTheme newTheme ;;
     if isLocalStorageAvailable
     then storage_setItem STORAGE_KEYS_THEME newTheme
     else ret tt)
    (fun _ => modify logError).

(** The listener of the system colour-scheme change (lines 247-251);
    [matches] is [e.matches].  It runs outside any try block. *)
Definition on_system_change (matches : bool) : M t unit :=
  let! stored :=
    (if isLocalStorageAvailable
     then (let! v := storage_getItem STORAGE_KEYS_THEME in ret (truthy v))
     else ret false) in
  if negb isLocalStorageAvailable || negb stored
  then applyTheme (if matches then "dark" else "light")
  else ret tt.

(** lines 237-256: apply the theme, then register the two listeners. *)
Definition init : M t unit :=
  try_catch
    (let! cur := gets currentTheme in applyTheme cur)
    (fun _ => modify logError).

(** lines 210-214 *)
Definition new : M t unit :=
  let! theme := getInitialTheme in
  modify (set_currentTheme theme) ;;
  init.

End WithProbe.
End ThemeManager.

Module CustomCursor.
Import CursorPage.
Local Open Scope Q_scope.

(** [updateCursor] (lines 333-353): interpolate, write the two
    transforms, ask for the next frame and keep its handle in the
    closure variable. *)
Definition updateCursor (w : t) : t :=
  let '(cx, cy, (dx, dy)) := lerp w in
  let '(id, r) := Raf.requestAnimationFrame (frames w) in
  {| cursor := match cursor w with
               | Some _ => Some (Some (cx - 20, cy - 20))
               | None => None
               end;
     cursorDot := match cursorDot w with
                  | Some _ => Some (Some (dx - 4, dy - 4))
                  | None => None
                  end;
     max_width_768 := max_width_768 w;
     mouseX := mouseX w; mouseY := mouseY w;
     cursorX := cx; cursorY := cy; dotX := dx; dotY := dy;
     loop_handle := Some id;
     animationFrameId := animationFrameId w;
     frames := r |}.

(** [init] (lines 326-386): the closure variables start at 0, the
    first [updateCursor()] runs at once, then the handle it left in
    the closure variable is copied to [this.animationFrameId]. *)
Definition init (w : t) : t :=
  let w1 := updateCursor
              {| cursor := cursor w; cursorDot := cursorDot w;
                 max_width_768 := max_width_768 w;
                 mouseX := 0; mouseY := 0; cursorX := 0; cursorY := 0;
                 dotX := 0; dotY := 0;
                 loop_handle := None;
                 animationFrameId := animationFrameId w;
                 frames := frames w |} in
  {| cursor := cursor w1; cursorDot := cursorDot w1;
     max_width_768 := max_width_768 w1;
     mouseX := mouseX w1; mouseY := mouseY w1;
     cursorX := cursorX w1; cursorY := cursorY w1;
     dotX := dotX w1; dotY := dotY w1;
     loop_handle := loop_handle w1;
     animationFrameId := loop_handle w1;
     frames := frames w1 |}.

(** constructor (lines 313-321) *)
Definition new (w : t) : t :=
  let isVisible := negb (max_width_768 w) in
  if isVisible && present (cursor w) && present (cursorDot w)
  then init w else w.

(** [destroy] (lines 391-395) *)
Definition destroy (w : t) : t :=
  if Raf.truthy_id (animationFrameId w)
  then match animationFrameId w with
       | Some id =>
           {| cursor := cursor w; cursorDot := cursorDot w;
              max_width_768 := max_width_768 w;
              mouseX := mouseX w; mouseY := mouseY w;
              cursorX := cursorX w; cursorY := cursorY w;
              dotX := dotX w; dotY := dotY w;
              loop_handle := loop_handle w;
              animationFrameId := animationFrameId w;
              frames := Raf.cancelAnimationFrame id (frames w) |}
       | None => w
       end
  else w.

(** One animation frame: every callback that was pending runs. *)
Definition frame_tick (w : t) : t :=
  let '(due, r) := Raf.take (frames w) in
  fold_left (fun w' _ => updateCursor w') due
    {| cursor := cursor w; cursorDot := cursorDot w;
       max_width_768 := max_width_768 w;
       mouseX := mouseX w; mouseY := mouseY w;
       cursorX := cursorX w; cursorY := cursorY w;
       dotX := dotX w; dotY := dotY w;
       loop_handle := loop_handle w;
       animationFrameId := animationFrameId w;
       frames := r |}.

End CustomCursor.

Module ParticleSystem.
Import ParticlePage.

(** [animate] (lines 801-821) *)
Definition animate (w : t) : t :=
  if negb (isActive w) then w
  else
    let w1 := set_particles (map advance (particles w)) w in
    let '(id, w2) := request_frame w1 in
    set_animationFrameId (Some id) w2.

(** [init] (lines 738-751) *)
Definition init (w : t) : t :=
  if (768 <? innerWidth w)%Z && negb (prefers_reduced_motion w)
  then set_isActive true (animate (createParticles w))
  else w.

(** constructor (lines 724-733) *)
Definition new (w : t) : t :=
  let w0 := set_animationFrameId None (set_isActive false (set_particles [] w)) in
  if container w0 then init w0 else w0.

(** [destroy] (lines 826-843): stop, cancel the stored handle, remove
    every particle element, forget the particles. *)
Definition destroy (w : t) : t :=
  let w1 := set_isActive false w in
  let w2 := if Raf.truthy_id (animationFrameId w1)
            then match animationFrameId w1 with
                 | Some id => set_frames (Raf.cancelAnimationFrame id (frames w1)) w1
                 | None => w1
                 end
            else w1 in
  set_particles [] w2.

(** [pauseAnimations] / [resumeAnimations] (lines 1352-1374) *)
Definition pauseAnimations (w : t) : t := set_isActive false w.
Definition resumeAnimations (w : t) : t := animate (set_isActive true w).

(** One animation frame: the browser runs every callback it holds.  A
    callback of the current object calls its [animate]; a callback of a
    discarded object calls [animate] on that object, whose [isActive]
    [destroy] has set to false for good, and returns at once. *)
Definition frame_tick (w : t) : t :=
  let '(due, r) := Raf.take (frames w) in
  fold_left (fun w' _ => animate w') due (set_stale_frames [] (set_frames r w)).

(** The listener [handleResize] (lines 1306-1316):
    [particleSystem.destroy(); particleSystem = new ParticleSystem()].
    [destroy] cancels the one stored handle; whatever else the old
    object had requested stays in the browser's queue, now owned by a
    discarded object, and the new object starts with no request of its
    own. *)
Definition handleResize (width : Z) (w : t) : t :=
  let w1 := destroy w in
  new (set_stale_frames (queued w1)
         (set_frames {| Raf.next_id := Raf.next_id (frames w1); Raf.pending := [] |}
            (set_innerWidth width w1))).

Definition step (w : t) (e : event) : t :=
  match e with
  | FrameTick => frame_tick w
  | PageHidden => pauseAnimations w
  | PageVisible => resumeAnimations w
  | Resize width => handleResize width w
  | BeforeUnload => destroy w
  end.

Definition run (es : list event) (w : t) : t := fold_left step es w.

End ParticleSystem.

Module VideoManager.

(** The [mouseenter] listener of a card (lines 892-895).  The comment
    above it reads "Pause other videos when hovering"; its body is
    empty. *)
Definition on_mouseenter (i : nat) (cards : list VideoCard) : list VideoCard :=
  cards.

End VideoManager.

(** Menu state, body scroll lock and the loading overlay
    (NavigationManager lines 406-521, LoadingManager.hide lines 136-166,
    InteractionManager.setupTeacherCards lines 1118-1135 and
    setupAccessibility lines 1162-1189,
    handleInitError / initMinimalFunctionality lines 1379-1431). *)
Module Navigation.

Record Sidebar : Type := { active : bool; aria_modal : option string }.
Record MenuButton : Type := { transform : string; aria_expanded : option string }.
Record LoadingScreen : Type := { hidden : bool; display_none : bool }.

Record t : Type := {
  isMenuOpen : bool;                     (* global *)
  isLoading : bool;                      (* global *)
  body_overflow : string;                (* document.body.style.overflow *)
  sidebar : option Sidebar;              (* #sidebar *)
  menuButton : option MenuButton;        (* #menuButton *)
  sidebarClose : bool;                   (* #sidebarClose exists *)
  loadingScreen : option LoadingScreen;  (* #loadingScreen *)
  close_timers : nat;                    (* pending setTimeout(closeMenu, 300) *)
  hide_pending : bool;                   (* LoadingManager.hide is waiting *)
  minimal : bool                         (* initMinimalFunctionality has run *)
}.

(** The page when the script starts: nothing is open, the body has no
    inline overflow, the overlay is waiting to be hidden. *)
Definition initial (sb : option Sidebar) (mb : option MenuButton)
           (sc : bool) (ls : option LoadingScreen) : t :=
  {| isMenuOpen := false; isLoading := true; body_overflow := "";
     sidebar := sb; menuButton := mb; sidebarClose := sc;
     loadingScreen := ls; close_timers := 0; hide_pending := true;
     minimal := false |}.

(** [openMenu] (lines 478-497) *)
Definition openMenu (w : t) : t :=
  {| isMenuOpen := true; isLoading := isLoading w;
     body_overflow := "hidden";
     sidebar := match sidebar w with
                | Some _ => Some {| active := true; aria_modal := Some "true" |}
                | None => None
                end;
     menuButton := match menuButton w with
                   | Some _ => Some {| transform := "rotate(90deg)";
                                       aria_expanded := Some "true" |}
                   | None => None
                   end;
     sidebarClose := sidebarClose w; loadingScreen := loadingScreen w;
     close_timers := close_timers w; hide_pending := hide_pending w;
     minimal := minimal w |}.

(** [closeMenu] (lines 502-521) *)
Definition closeMenu (w : t) : t :=
  {| isMenuOpen := false; isLoading := isLoading w;
     body_overflow := "auto";
     sidebar := match sidebar w with
                | Some _ => Some {| active := false; aria_modal := Some "false" |}
                | None => None
                end;
     menuButton := match menuButton w with
                   | Some _ => Some {| transform := "rotate(0deg)";
                                       aria_expanded := Some "false" |}
                   | None => None
                   end;
     sidebarClose := sidebarClose w; loadingScreen := loadingScreen w;
     close_timers := close_timers w; hide_pending := hide_pending w;
     minimal := minimal w |}.

(** [toggleMenu] (lines 467-473) *)
Definition toggleMenu (w : t) : t :=
  if isMenuOpen w then closeMenu w else openMenu w.

Definition set_sidebar (sb : option Sidebar) (w : t) : t :=
  {| isMenuOpen := isMenuOpen w; isLoading := isLoading w;
     body_overflow := body_overflow w; sidebar := sb;
     menuButton := menuButton w; sidebarClose := sidebarClose w;
     loadingScreen := loadingScreen w; close_timers := close_timers w;
     hide_pending := hide_pending w; minimal := minimal w |}.

Definition set_close_timers (n : nat) (w : t) : t :=
  {| isMenuOpen := isMenuOpen w; isLoading := isLoading w;
     body_overflow := body_overflow w; sidebar := sidebar w;
     menuButton := menuButton w; sidebarClose := sidebarClose w;
     loadingScreen := loadingScreen w; close_timers := n;
     hide_pending := hide_pending w; minimal := minimal w |}.

(** [sidebar.classList.toggle('active')] and [.remove('active')];
    the aria attribute is left as it is. *)
Definition sidebar_class (f : bool -> bool) (w : t) : t :=
  match sidebar w with
  | Some sb => set_sidebar (Some {| active := f (active sb);
                                    aria_modal := aria_modal sb |}) w
  | None => w
  end.

(** Where a click lands. *)
Inductive target : Type :=
| OnMenuButton
| OnSidebarClose          (* the close control, inside the sidebar *)
| OnSidebarLink           (* a same-page anchor inside the sidebar *)
| OnNavLink               (* a same-page anchor in the header *)
| OnSocialLink            (* a [.social-links a] of a teacher card *)
| Elsewhere.

Definition in_sidebar (tg : target) : bool :=
  match tg with OnSidebarClose | OnSidebarLink => true | _ => false end.

Definition in_menuButton (tg : target) : bool :=
  match tg with OnMenuButton => true | _ => false end.

(** Listeners on the clicked element itself. *)
Definition click_target (tg : target) (w : t) : t :=
  match tg with
  | OnMenuButton =>
      match menuButton w with
      | Some _ =>
          let w1 := toggleMenu w in
          if minimal w1 then sidebar_class negb w1 else w1
      | None => w
      end
  | OnSidebarClose =>
      if sidebarClose w
      then let w1 := closeMenu w in
           if minimal w1 then sidebar_class (fun _ => false) w1 else w1
      else w
  | OnSidebarLink | OnNavLink =>
      (* smooth scrolling, then: if (isMenuOpen) setTimeout(closeMenu, 300) *)
      if isMenuOpen w then set_close_timers (S (close_timers w)) w else w
  | OnSocialLink => w     (* e.stopPropagation() and nothing else *)
  | Elsewhere => w
  end.

(** The listener of a teacher card's social link (lines 1127-1130) calls
    [e.stopPropagation()]: the click does not bubble to the document. *)
Definition stops_propagation (tg : target) : bool :=
  match tg with OnSocialLink => true | _ => false end.

(** The document-level click listener (lines 446-451), reached by
    bubbling. *)
Definition click_document (tg : target) (w : t) : t :=
  match sidebar w, menuButton w with
  | Some _, Some _ =>
      if isMenuOpen w && negb (in_sidebar tg) && negb (in_menuButton tg)
      then closeMenu w else w
  | _, _ => w
  end.

(** [LoadingManager.hide] once its wait is over (lines 146-159). *)
Definition hide (w : t) : t :=
  match loadingScreen w with
  | Some ls =>
      {| isMenuOpen := isMenuOpen w; isLoading := false;
         body_overflow := "auto"; sidebar := sidebar w;
         menuButton := menuButton w; sidebarClose := sidebarClose w;
         loadingScreen := Some {| hidden := true; display_none := display_none ls |};
         close_timers := close_timers w; hide_pending := false;
         minimal := minimal w |}
  | None =>
      {| isMenuOpen := isMenuOpen w; isLoading := false;
         body_overflow := body_overflow w; sidebar := sidebar w;
         menuButton := menuButton w; sidebarClose := sidebarClose w;
         loadingScreen := None;
         close_timers := close_timers w; hide_pending := false;
         minimal := minimal w |}
  end.

(** [handleInitError] (lines 1379-1395) *)
Definition handleInitError (w : t) : t :=
  {| isMenuOpen := isMenuOpen w; isLoading := isLoading w;
     body_overflow := "auto"; sidebar := sidebar w;
     menuButton := menuButton w; sidebarClose := sidebarClose w;
     loadingScreen := match loadingScreen w with
                      | Some ls => Some {| hidden := hidden ls; display_none := true |}
                      | None => None
                      end;
     close_timers := close_timers w; hide_pending := hide_pending w;
     minimal := true |}.

Inductive event : Type :=
| Click (tg : target)
| KeyEscape
| CloseTimerFires        (* a pending setTimeout(closeMenu, 300) is due *)
| LoadingHideResumes     (* the minimum loading time has passed *)
| InitFails.             (* init() caught an error *)

Definition step (w : t) (e : event) : t :=
  match e with
  | Click tg =>
      let w1 := click_target tg w in
      if stops_propagation tg then w1 else click_document tg w1
  | KeyEscape =>
      (* NavigationManager's listener, then InteractionManager's *)
      let w1 := if isMenuOpen w then closeMenu w else w in
      sidebar_class (fun _ => false) w1
  | CloseTimerFires =>
      match close_timers w with
      | S n => closeMenu (set_close_timers n w)
      | O => w
      end
  | LoadingHideResumes => if hide_pending w then hide w else w
  | InitFails => handleInitError w
  end.

Definition run (es : list event) (w : t) : t := fold_left step es w.

(** Body scroll is locked. *)
Definition scroll_locked (w : t) : bool := String.eqb (body_overflow w) "hidden".

(** The events that drive the loading overlay. *)
Definition overlay_event (e : event) : bool :=
  match e with LoadingHideResumes | InitFails => true | _ => false end.

End Navigation.

End Education.

(** ** The Educatum script (lines 1525-2494) *)

Module Educatum.

Definition STORAGE_KEYS_THEME : string := "educatum_theme".

Module ThemeManager.
Import ThemePage.

(** [window.matchMedia('(prefers-color-scheme: dark)').matches] with no
    test that [matchMedia] exists. *)
Definition system_prefers_dark : M t bool :=
  fun w => match prefers_dark w with
           | Some b => Returns b w
           | None => Throws TypeError w
           end.

(** lines 1641-1646 *)
Definition getInitialTheme : M t string :=
  let! saved := storage_getItem STORAGE_KEYS_THEME in
  if truthy saved
  then ret (match saved with Some v => v | None => "" end)
  else (let! dark := system_prefers_dark in
        ret (if dark then "dark" else "light")).

(** lines 1666-1681 *)
Definition applyTheme (theme : string) : M t unit :=
  modify (set_currentTheme theme) ;;
  modify (set_data_theme theme) ;;
  (fun w =>
     match themeToggle w with
     | Some b =>
         match icon b with
         | Some _ =>
             Returns tt
               (set_themeToggle
                  (Some {| icon := Some (if_dark theme "fas fa-sun" "fas fa-moon");
                           aria_pressed := aria_pressed b |}) w)
         | None => Throws TypeError w      (* icon is null *)
         end
     | None => Returns tt w
     end) ;;
  modify (start_transition "background-color 0.3s ease, color 0.3s ease").

(** lines 1660-1664 *)
Definition toggleTheme : M t unit :=
  let! cur := gets currentTheme in
  let newTheme := if String.eqb cur "light" then "dark" else "light" in
  applyTheme newTheme ;;
  storage_setItem STORAGE_KEYS_THEME newTheme.

(** lines 1653-1657 *)
Definition on_system_change (matches : bool) : M t unit :=
  let! v := storage_getItem STORAGE_KEYS_THEME in
  if negb (truthy v)
  then applyTheme (if matches then "dark" else "light")
  else ret tt.

(** lines 1648-1658 *)
Definition init : M t unit :=
  let! cur := gets currentTheme in
  applyTheme cur ;;
  (let! _ := system_prefers_dark in ret tt).

(** lines 1635-1639 *)
Definition new : M t unit :=
  let! theme := getInitialTheme in
  modify (set_currentTheme theme) ;;
  init.

End ThemeManager.

Module CustomCursor.
Import CursorPage.
Local Open Scope Q_scope.

(** [updateCursor] (lines 1703-1715): the handle returned by
    [requestAnimationFrame] is not kept. *)
Definition updateCursor (w : t) : t :=
  let '(cx, cy, (dx, dy)) := lerp w in
  let '(_, r) := Raf.requestAnimationFrame (frames w) in
  {| cursor := match cursor w with
               | Some _ => Some (Some (cx - 20, cy - 20))
               | None => None
               end;
     cursorDot := match cursorDot w with
                  | Some _ => Some (Some (dx - 4, dy - 4))
                  | None => None
                  end;
     max_width_768 := max_width_768 w;
     mouseX := mouseX w; mouseY := mouseY w;
     cursorX := cx; cursorY := cy; dotX := dx; dotY := dy;
     loop_handle := loop_handle w;
     animationFrameId := animationFrameId w;
     frames := r |}.

(** [init] (lines 1698-1738) *)
Definition init (w : t) : t :=
  updateCursor
    {| cursor := cursor w; cursorDot := cursorDot w;
       max_width_768 := max_width_768 w;
       mouseX := 0; mouseY := 0; cursorX := 0; cursorY := 0;
       dotX := 0; dotY := 0;
       loop_handle := loop_handle w;
       animationFrameId := animationFrameId w;
       frames := frames w |}.

(** constructor (lines 1688-1696) *)
Definition new (w : t) : t :=
  let isVisible := negb (max_width_768 w) in
  if isVisible && present (cursor w) && present (cursorDot w)
  then init w else w.

(** The class declares no [destroy] method. *)
Definition destroy : option (t -> t) := None.

(** [component.destroy()] written as a plain call: calling a property
    that is undefined raises a TypeError. *)
Definition call_destroy : M t unit :=
  match destroy with
  | Some f => modify f
  | None => throw TypeError
  end.

End CustomCursor.

Module ParticleSystem.
Import ParticlePage.

(** [animate] (lines 1990-2006); the frame handle is not kept. *)
Definition animate (w : t) : t :=
  if negb (isActive w) then w
  else
    let w1 := set_particles (map advance (particles w)) w in
    snd (request_frame w1).

(** [init] (lines 1944-1951) *)
Definition init (w : t) : t :=
  if (768 <? innerWidth w)%Z && negb (prefers_reduced_motion w)
  then set_isActive true (animate (createParticles w))
  else w.

(** constructor (lines 1934-1942) *)
Definition new (w : t) : t :=
  let w0 := set_isActive false (set_particles [] w) in
  if container w0 then init w0 else w0.

(** [destroy] (lines 2008-2016) *)
Definition destroy (w : t) : t :=
  set_particles [] (set_isActive false w).

(** [pauseAnimations] / [resumeAnimations] (lines 2364-2375) *)
Definition pauseAnimations (w : t) : t := set_isActive false w.
Definition resumeAnimations (w : t) : t := animate (set_isActive true w).

(** One animation frame, as in the Education script: callbacks of a
    discarded object find its [isActive] false and return at once. *)
Definition frame_tick (w : t) : t :=
  let '(due, r) := Raf.take (frames w) in
  fold_left (fun w' _ => animate w') due (set_stale_frames [] (set_frames r w)).

(** The listener [handleResize] (lines 2332-2338).  This script's
    [destroy] cancels nothing, so every callback the old object had
    requested stays in the browser's queue. *)
Definition handleResize (width : Z) (w : t) : t :=
  let w1 := destroy w in
  new (set_stale_frames (queued w1)
         (set_frames {| Raf.next_id := Raf.next_id (frames w1); Raf.pending := [] |}
            (set_innerWidth width w1))).

Definition step (w : t) (e : event) : t :=
  match e with
  | FrameTick => frame_tick w
  | PageHidden => pauseAnimations w
  | PageVisible => resumeAnimations w
  | Resize width => handleResize width w
  | BeforeUnload => destroy w
  end.

Definition run (es : list event) (w : t) : t := fold_left step es w.

End ParticleSystem.

Module VideoManager.

(** The [mouseenter] listener of a card (lines 2049-2051), installed by
    [setupVideoCard] on a card that has an iframe and an overlay,
    calls [pauseAllVideos]. *)
Definition on_mouseenter (i : nat) (cards : list VideoCard) : list VideoCard :=
  match nth_error cards i with
  | Some card => if is_set_up card then pauseAllVideos cards else cards
  | None => cards
  end.

End VideoManager.

End Educatum.

(** ** Predicates used in the statements *)

Section Predicates.
Local Open Scope Q_scope.

(** One axis of a particle: the speed is at most half a point per
    frame, and the position is inside [0,100] or was inside one frame
    ago and is heading back. *)
Definition axis_ok (p v : Q) : Prop :=
  (- (1 # 2) <= v <= 1 # 2) /\
  ((0 <= p <= 100) \/
   (100 < p /\ v < 0 /\ 0 <= p + v <= 100) \/
   (p < 0 /\ 0 < v /\ 0 <= p + v <= 100)).

Definition particle_ok (p : ParticlePage.Particle) : Prop :=
  axis_ok (ParticlePage.x p) (ParticlePage.vx p) /\
  axis_ok (ParticlePage.y p) (ParticlePage.vy p).

(** Within half a point of the box on both axes. *)
Definition near_box (p : ParticlePage.Particle) : Prop :=
  (- (1 # 2) <= ParticlePage.x p <= 100 + (1 # 2)) /\
  (- (1 # 2) <= ParticlePage.y p <= 100 + (1 # 2)).

(** [q] is [p] later on: on each axis where [p] was outside [0,100],
    [q] is inside. *)
Definition back_inside (p q : ParticlePage.Particle) : Prop :=
  (ParticlePage.x p < 0 \/ 100 < ParticlePage.x p -> 0 <= ParticlePage.x q <= 100) /\
  (ParticlePage.y p < 0 \/ 100 < ParticlePage.y p -> 0 <= ParticlePage.y q <= 100).

(** [Math.random()] returns values in [0,1). *)
Definition oracle_ok (w : ParticlePage.t) : Prop :=
  forall k, 0 <= ParticlePage.random w k < 1.

Definition page_ok (w : ParticlePage.t) : Prop :=
  oracle_ok w /\ Forall particle_ok (ParticlePage.particles w).

(** The update of one axis in [advance]. *)
Definition advance_axis (p v : Q) : Q * Q :=
  (p + v, if Qltb (p + v) 0 || Qltb 100 (p + v) then v * (-1) else v).

(** Body scroll is locked only if the menu is open. *)
Definition lock_sound (w : Education.Navigation.t) : Prop :=
  Education.Navigation.scroll_locked w = true ->
  Education.Navigation.isMenuOpen w = true.

(** Body scroll is locked if and only if the menu is open. *)
Definition lock_exact (w : Education.Navigation.t) : Prop :=
  Education.Navigation.scroll_locked w = true <->
  Education.Navigation.isMenuOpen w = true.

(** Along a run from [w], the code of the loading overlay
    ([LoadingManager.hide], [handleInitError]) executes only while the
    menu is closed. *)
Fixpoint overlay_while_closed
         (es : list Education.Navigation.event) (w : Education.Navigation.t) : bool :=
  match es with
  | [] => true
  | e :: es' =>
      (negb (Education.Navigation.overlay_event e)
       || negb (Education.Navigation.isMenuOpen w))
      && overlay_while_closed es' (Education.Navigation.step w e)
  end.

End Predicates.

(** ** Sample pages *)

Definition two_playing_cards : list VideoCard :=
  [ {| iframe := Some {| src := Some "https://www.youtube.com/embed/abc?rel=0&autoplay=1" |};
       overlay := true |};
    {| iframe := Some {| src := Some "https://www.youtube.com/embed/xyz?rel=0&autoplay=1" |};
       overlay := true |} ].

(** A 1200px-wide page with a particle container and reduced motion off,
    before the script runs. *)
Definition desktop_page (rnd : nat -> Q) : ParticlePage.t :=
  {| ParticlePage.random := rnd; ParticlePage.draws := 0;
     ParticlePage.innerWidth := 1200;
     ParticlePage.prefers_reduced_motion := false;
     ParticlePage.container := true;
     ParticlePage.particles := [];
     ParticlePage.isActive := false;
     ParticlePage.animationFrameId := None;
     ParticlePage.frames := Raf.initial;
     ParticlePage.stale_frames := [] |}.

(** A page on which [Math.random()] always returns 1023/1024. *)
Definition page_near_one : ParticlePage.t := desktop_page (fun _ => 1023 # 1024).

(** The first particle of [page_near_one] after its first frame. *)
Definition escaped_particle : ParticlePage.Particle :=
  Eval vm_compute in
    match ParticlePage.particles
            (Education.ParticleSystem.run [PageVisible]
               (Education.ParticleSystem.new page_near_one)) with
    | p :: _ => p
    | [] => {| ParticlePage.element :=
                 {| ParticlePage.style_left := 0; ParticlePage.style_top := 0;
                    ParticlePage.style_size := 0;
                    ParticlePage.animation_duration := 0;
                    ParticlePage.animation_delay := 0 |};
               ParticlePage.x := 0; ParticlePage.y := 0;
               ParticlePage.vx := 0; ParticlePage.vy := 0;
               ParticlePage.size := 0 |}
    end.

(** A page with a working storage that holds [v] under both storage keys,
    and a toggle button with its icon. *)
Definition page_with_stored (v : string) (system_dark : bool) : ThemePage.t :=
  {| ThemePage.localStorage :=
       Storage.working (<[Education.STORAGE_KEYS_THEME := v]>
                          (<[Educatum.STORAGE_KEYS_THEME := v]> ∅));
     ThemePage.prefers_dark := Some system_dark;
     ThemePage.data_theme := None;
     ThemePage.themeToggle :=
       Some {| ThemePage.icon := Some "fas fa-moon"; ThemePage.aria_pressed := None |};
     ThemePage.body_transition := "";
     ThemePage.transition_timers := 0;
     ThemePage.currentTheme := "";
     ThemePage.console_errors := 0 |}.

(** A page whose storage can be read but not written (quota exhausted);
    it holds [v] under the Education script's key. *)
Definition page_with_full_storage (v : string) (system_dark : bool) : ThemePage.t :=
  {| ThemePage.localStorage :=
       {| Storage.items := <[Education.STORAGE_KEYS_THEME := v]> ∅;
          Storage.get_fails := false; Storage.set_fails := true;
          Storage.remove_fails := false |};
     ThemePage.prefers_dark := Some system_dark;
     ThemePage.data_theme := None;
     ThemePage.themeToggle :=
       Some {| ThemePage.icon := Some "fas fa-moon"; ThemePage.aria_pressed := None |};
     ThemePage.body_transition := "";
     ThemePage.transition_timers := 0;
     ThemePage.currentTheme := "";
     ThemePage.console_errors := 0 |}.

(** A page in light theme whose storage raises on every access. *)
Definition page_without_storage : ThemePage.t :=
  {| ThemePage.localStorage := Storage.disabled ∅;
     ThemePage.prefers_dark := Some true;
     ThemePage.data_theme := Some "light";
     ThemePage.themeToggle :=
       Some {| ThemePage.icon := Some "fas fa-moon";
               ThemePage.aria_pressed := Some "false" |};
     ThemePage.body_transition := "";
     ThemePage.transition_timers := 0;
     ThemePage.currentTheme := "light";
     ThemePage.console_errors := 0 |}.

(** A page that has every element the navigation looks for. *)
Definition full_page : Education.Navigation.t :=
  Education.Navigation.initial
    (Some {| Education.Navigation.active := false;
             Education.Navigation.aria_modal := None |})
    (Some {| Education.Navigation.transform := "";
             Education.Navigation.aria_expanded := None |})
    true
    (Some {| Education.Navigation.hidden := false;
             Education.Navigation.display_none := false |}).

(** A desktop page with both cursor elements, before the script runs. *)
Definition cursor_page : CursorPage.t :=
  {| CursorPage.cursor := Some None; CursorPage.cursorDot := Some None;
     CursorPage.max_width_768 := false;
     CursorPage.mouseX := 0; CursorPage.mouseY := 0;
     CursorPage.cursorX := 0; CursorPage.cursorY := 0;
     CursorPage.dotX := 0; CursorPage.dotY := 0;
     CursorPage.loop_handle := None;
     CursorPage.animationFrameId := None;
     CursorPage.frames := Raf.initial |}.

(** The cursor has been built, the pointer has moved to (128, 64) and one
    frame has run. *)
Definition cursor_after_one_frame : CursorPage.t :=
  Education.CustomCursor.frame_tick
    (CursorPage.on_mousemove 128 64 (Education.CustomCursor.new cursor_page)).

(** ** Theme: the listeners as events *)

Module ThemeEvents.

Inductive event : Type :=
| ToggleClick                    (* click on #themeToggle *)
| SystemChange (matches : bool). (* the prefers-color-scheme query changes *)

Definition set_prefers_dark (b : bool) (w : ThemePage.t) : ThemePage.t :=
  {| ThemePage.localStorage := ThemePage.localStorage w;
     ThemePage.prefers_dark := Some b;
     ThemePage.data_theme := ThemePage.data_theme w;
     ThemePage.themeToggle := ThemePage.themeToggle w;
     ThemePage.body_transition := ThemePage.body_transition w;
     ThemePage.transition_timers := ThemePage.transition_timers w;
     ThemePage.currentTheme := ThemePage.currentTheme w;
     ThemePage.console_errors := ThemePage.console_errors w |}.

(** The Education listeners registered by [init] (lines 241-252).  The
    click listener exists only if the button does; an exception that
    escapes a listener is reported by the browser, and the page stays as
    the listener left it. *)
Definition Education_step (available : bool) (w : ThemePage.t) (e : event)
  : ThemePage.t :=
  match e with
  | ToggleClick =>
      match ThemePage.themeToggle w with
      | Some _ => final_state (Education.ThemeManager.toggleTheme available w)
      | None => w
      end
  | SystemChange m =>
      final_state
        (Education.ThemeManager.on_system_change available m (set_prefers_dark m w))
  end.

Definition Education_run (available : bool) (es : list event) (w : ThemePage.t)
  : ThemePage.t :=
  fold_left (Education_step available) es w.

(** The root attribute, the button's pressed state and its icon all show
    the manager's current theme. *)
Definition theme_consistent (w : ThemePage.t) : Prop :=
  ThemePage.data_theme w = Some (ThemePage.currentTheme w) /\
  match ThemePage.themeToggle w with
  | Some b =>
      ThemePage.aria_pressed b
        = Some (ThemePage.if_dark (ThemePage.currentTheme w) "true" "false") /\
      (ThemePage.icon b = None \/
       ThemePage.icon b
         = Some (ThemePage.if_dark (ThemePage.currentTheme w) "fas fa-sun" "fas fa-moon"))
  | None => True
  end.

(** The theme [toggleTheme] switches to. *)
Definition flipped (theme : string) : string :=
  if String.eqb theme "light" then "dark" else "light".

(** A first visit: storage works and is empty, nothing is applied yet. *)
Definition fresh_page (system : option bool) : ThemePage.t :=
  {| ThemePage.localStorage := Storage.working ∅;
     ThemePage.prefers_dark := system;
     ThemePage.data_theme := None;
     ThemePage.themeToggle :=
       Some {| ThemePage.icon := Some "fas fa-moon"; ThemePage.aria_pressed := None |};
     ThemePage.body_transition := "";
     ThemePage.transition_timers := 0;
     ThemePage.currentTheme := "";
     ThemePage.console_errors := 0 |}.

End ThemeEvents.

(** ** Navigation: the sidebar's class follows the menu flag *)

(** The degraded listeners are not installed, and the sidebar, if there
    is one, carries the class 'active' exactly when the menu flag is
    set. *)
Definition sidebar_in_step (w : Education.Navigation.t) : Prop :=
  Education.Navigation.minimal w = false /\
  match Education.Navigation.sidebar w with
  | Some sb => Education.Navigation.active sb = Education.Navigation.isMenuOpen w
  | None => True
  end.

Definition is_InitFails (e : Education.Navigation.event) : bool :=
  match e with Education.Navigation.InitFails => true | _ => false end.

(** ** Particles: shape, speed, rebuilds *)

Section ParticlePredicates.
Local Open Scope Q_scope.

(** What [createParticles] gives a particle besides its position: a size
    from 2 to 6 that is also the element's width and height, a float
    animation of 10 to 30 seconds started at an offset of at most one
    cycle, and an element placed where the particle is.  The bounds are
    closed: they are the ones binary64 rounding cannot break. *)
Definition particle_shape_ok (p : ParticlePage.Particle) : Prop :=
  (2 <= ParticlePage.size p <= 6) /\
  ParticlePage.style_size (ParticlePage.element p) = ParticlePage.size p /\
  (10 <= ParticlePage.animation_duration (ParticlePage.element p) <= 30) /\
  (0 <= ParticlePage.animation_delay (ParticlePage.element p)
     <= ParticlePage.animation_duration (ParticlePage.element p)) /\
  ParticlePage.style_left (ParticlePage.element p) = ParticlePage.x p /\
  ParticlePage.style_top (ParticlePage.element p) = ParticlePage.y p.

(** [q] is [p] some frames later: same speed on each axis, same size. *)
Definition same_speed (p q : ParticlePage.Particle) : Prop :=
  Qabs (ParticlePage.vx q) == Qabs (ParticlePage.vx p) /\
  Qabs (ParticlePage.vy q) == Qabs (ParticlePage.vy p) /\
  ParticlePage.size q = ParticlePage.size p /\
  ParticlePage.style_size (ParticlePage.element q)
    = ParticlePage.style_size (ParticlePage.element p).

End ParticlePredicates.

(** Legal random draws, and every particle satisfies [P]. *)
Definition particles_all (P : ParticlePage.Particle -> Prop) (w : ParticlePage.t) : Prop :=
  oracle_ok w /\ Forall P (ParticlePage.particles w).

(** The events that throw the particles away. *)
Definition discards_particles (e : event) : bool :=
  match e with Resize _ | BeforeUnload => true | _ => false end.

(** ** Custom cursor: pointer moves and frames as events *)

(** [now] lies between [start] and [target], ends included. *)
Definition toward (start target now : Q) : Prop :=
  (start <= target -> start <= now <= target)%Q /\
  (target <= start -> target <= now <= start)%Q.

Module CursorEvents.

Inductive event : Type :=
| MouseMove (clientX clientY : Q)
| Frame.                         (* the browser runs the pending frame callbacks *)

Definition Education_step (w : CursorPage.t) (e : event) : CursorPage.t :=
  match e with
  | MouseMove a b => CursorPage.on_mousemove a b w
  | Frame => Education.CustomCursor.frame_tick w
  end.

Definition Education_run (es : list event) (w : CursorPage.t) : CursorPage.t :=
  fold_left Education_step es w.

(** The constructor's test: wide viewport and both elements found. *)
Definition enabled (w : CursorPage.t) : bool :=
  negb (CursorPage.max_width_768 w)
  && CursorPage.present (CursorPage.cursor w)
  && CursorPage.present (CursorPage.cursorDot w).

End CursorEvents.

(** ** Scroll reveal: the observer callback and its timers

    The callback given to [new IntersectionObserver] (lines 648-666 and
    1886-1898) and the timer it starts, driven as events. *)

Module Reveal.

Record t : Type := {
  manager : ScrollAnimationManager.t;
  reveal_timers : list (nat * nat)    (* pending setTimeout: element, delay in ms *)
}.

(** [element.dataset.delay || 0] *)
Definition delay_of (es : list ScrollAnimationManager.RevealElement) (i : nat) : nat :=
  match nth_error es i with
  | Some e => match ScrollAnimationManager.data_delay e with
              | Some d => d
              | None => 0
              end
  | None => 0
  end.

(** An intersecting entry for element [i]; the browser only reports
    elements the observer is watching. *)
Definition on_intersect (i : nat) (w : t) : t :=
  match ScrollAnimationManager.observer (manager w) with
  | Some targets =>
      if existsb (Nat.eqb i) targets
      then {| manager := manager w;
              reveal_timers :=
                (reveal_timers w
                   ++ [(i, delay_of (ScrollAnimationManager.elements (manager w)) i)])%list |}
      else w
  | None => w
  end.

(** The timer body: [element.classList.add('revealed')], then
    [unobserve] if the manager has an observer. *)
Definition reveal (i : nat) (m : ScrollAnimationManager.t) : ScrollAnimationManager.t :=
  {| ScrollAnimationManager.has_IntersectionObserver :=
       ScrollAnimationManager.has_IntersectionObserver m;
     ScrollAnimationManager.elements :=
       match nth_error (ScrollAnimationManager.elements m) i with
       | Some e =>
           <[ i := {| ScrollAnimationManager.revealed := true;
                      ScrollAnimationManager.data_delay :=
                        ScrollAnimationManager.data_delay e |} ]>
             (ScrollAnimationManager.elements m)
       | None => ScrollAnimationManager.elements m
       end;
     ScrollAnimationManager.observer :=
       match ScrollAnimationManager.observer m with
       | Some targets => Some (List.filter (fun j => negb (Nat.eqb j i)) targets)
       | None => None
       end |}.

(** The [k]-th pending timer fires. *)
Definition timer_fires (k : nat) (w : t) : t :=
  match nth_error (reveal_timers w) k with
  | Some (i, _) =>
      {| manager := reveal i (manager w);
         reveal_timers := (firstn k (reveal_timers w) ++ skipn (S k) (reveal_timers w))%list |}
  | None => w
  end.

Inductive event : Type :=
| ObserveElements            (* observeElements(), e.g. after the loading screen *)
| Intersect (i : nat)
| TimerFires (k : nat)
| Destroy.

Definition step (w : t) (e : event) : t :=
  match e with
  | ObserveElements =>
      {| manager := ScrollAnimationManager.observeElements (manager w);
         reveal_timers := reveal_timers w |}
  | Intersect i => on_intersect i w
  | TimerFires k => timer_fires k w
  | Destroy =>
      {| manager := ScrollAnimationManager.destroy (manager w);
         reveal_timers := reveal_timers w |}
  end.

Definition run (es : list event) (w : t) : t := fold_left step es w.

(** How many of the first [i] elements are not yet revealed. *)
Definition unrevealed_before (i : nat) (es : list ScrollAnimationManager.RevealElement)
  : nat :=
  length (List.filter (fun e => negb (ScrollAnimationManager.revealed e)) (firstn i es)).

Definition is_revealed (es : list ScrollAnimationManager.RevealElement) (i : nat) : bool :=
  match nth_error es i with
  | Some e => ScrollAnimationManager.revealed e
  | None => false
  end.

End Reveal.

(** ** Video cards: a card that is not playing *)

(** The card's embed URL, if it has one, does not contain [autoplay=1]. *)
Definition not_playing (card : VideoCard) : Prop :=
  match iframe card with
  | Some f => match src f with
              | Some s => includes s "autoplay=1" = false
              | None => True
              end
  | None => True
  end.

Definition card_with_autoplay_first : list VideoCard :=
  [ {| iframe := Some {| src := Some "https://www.youtube.com/embed/abc?autoplay=1" |};
       overlay := true |} ].

(** ** debounce and throttle (lines 58-89 and 1551-1576)

    The closure state of a debounced or throttled function, with the
    clock and the browser's timer as events.  [A] is what a call passes
    on to [func].  A log of the calls made and of the executions of
    [func], newest first, is kept beside the state the closures have. *)

Module Timing.
Local Open Scope Z_scope.

Inductive entry (A : Type) : Type :=
| Called (at_time : Z) (args : A)      (* the wrapper was called *)
| Ran (at_time : Z) (args : A).        (* func was executed *)

Arguments Called {A} at_time args.
Arguments Ran {A} at_time args.

Inductive event (A : Type) : Type :=
| Tick (ms : nat)          (* the clock advances *)
| Invoke (args : A)        (* the wrapper is called *)
| Timeout.                 (* the browser looks at the pending timer and runs
                              it if it is due *)

Arguments Tick {A} ms.
Arguments Invoke {A} args.
Arguments Timeout {A}.

Record timer (A : Type) : Type := { due : Z; payload : A }.

Arguments due {A} t.
Arguments payload {A} t.

(** [func] executions in a log, newest first. *)
Fixpoint executions {A} (h : list (entry A)) : list (Z * A) :=
  match h with
  | [] => []
  | Ran t a :: h' => (t, a) :: executions h'
  | Called _ _ :: h' => executions h'
  end.

Section Debounce.
Variable A : Type.
Variable delay : Z.

Record debounced : Type := {
  d_now : Z;                        (* Date.now() *)
  d_timeoutId : option (timer A);   (* the timer timeoutId refers to, while pending *)
  d_log : list (entry A)
}.

(** [setTimeout(f, delay)] treats a negative delay as 0. *)
Definition debounce_step (s : debounced) (e : event A) : debounced :=
  match e with
  | Tick ms =>
      {| d_now := d_now s + Z.of_nat ms; d_timeoutId := d_timeoutId s; d_log := d_log s |}
  | Invoke a =>
      (* clearTimeout(timeoutId); timeoutId = setTimeout(() => func(...args), delay) *)
      {| d_now := d_now s;
         d_timeoutId := Some {| due := d_now s + Z.max 0 delay; payload := a |};
         d_log := Called (d_now s) a :: d_log s |}
  | Timeout =>
      match d_timeoutId s with
      | Some tm =>
          if due tm <=? d_now s
          then {| d_now := d_now s; d_timeoutId := None;
                  d_log := Ran (d_now s) (payload tm) :: d_log s |}
          else s
      | None => s
      end
  end.

Definition debounce_run (es : list (event A)) (s : debounced) : debounced :=
  fold_left debounce_step es s.

(** [debounce(func, delay)] just returned: nothing pending, nothing logged. *)
Definition debounce_new (now : Z) : debounced :=
  {| d_now := now; d_timeoutId := None; d_log := [] |}.

(** In a log, newest first: every execution comes directly after the
    call whose arguments it carries, and at least the delay later. *)
Fixpoint settled (h : list (entry A)) : Prop :=
  match h with
  | [] => True
  | Called _ _ :: h' => settled h'
  | Ran t a :: h' =>
      match h' with
      | Called tc a' :: _ => a = a' /\ tc + Z.max 0 delay <= t
      | _ => False
      end /\ settled h'
  end.

(** The log is settled and the pending timer, if any, was set by the most
    recent call. *)
Definition debounce_inv (s : debounced) : Prop :=
  settled (d_log s) /\
  match d_timeoutId s with
  | Some tm => exists h, d_log s = Called (due tm - Z.max 0 delay) (payload tm) :: h
  | None => True
  end.

(** A burst: calls with arguments [a], each made [gap] ms after the
    previous one, the browser checking the timer before every call. *)
Definition burst (calls : list (nat * A)) : list (event A) :=
  flat_map (fun c => [Tick (fst c); Timeout; Invoke (snd c)]) calls.

End Debounce.

Section Throttle.
Variable A : Type.
Variable delay : Z.

Record throttled : Type := {
  t_now : Z;                        (* Date.now() *)
  lastExecTime : Z;
  t_timeoutId : option (timer A);
  t_log : list (entry A)
}.

Definition throttle_step (s : throttled) (e : event A) : throttled :=
  match e with
  | Tick ms =>
      {| t_now := t_now s + Z.of_nat ms; lastExecTime := lastExecTime s;
         t_timeoutId := t_timeoutId s; t_log := t_log s |}
  | Invoke a =>
      if delay <? t_now s - lastExecTime s
      then (* func(...args); lastExecTime = currentTime; a pending timer is
              left alone *)
        {| t_now := t_now s; lastExecTime := t_now s;
           t_timeoutId := t_timeoutId s;
           t_log := Ran (t_now s) a :: Called (t_now s) a :: t_log s |}
      else (* clearTimeout(timeoutId); timeoutId = setTimeout(..., remaining) *)
        {| t_now := t_now s; lastExecTime := lastExecTime s;
           t_timeoutId :=
             Some {| due := t_now s + Z.max 0 (delay - (t_now s - lastExecTime s));
                     payload := a |};
           t_log := Called (t_now s) a :: t_log s |}
  | Timeout =>
      match t_timeoutId s with
      | Some tm =>
          if due tm <=? t_now s
          then (* func(...args); lastExecTime = Date.now() *)
            {| t_now := t_now s; lastExecTime := t_now s; t_timeoutId := None;
               t_log := Ran (t_now s) (payload tm) :: t_log s |}
          else s
      | None => s
      end
  end.

Definition throttle_run (es : list (event A)) (s : throttled) : throttled :=
  fold_left throttle_step es s.

(** [throttle(func, delay)] just returned. *)
Definition throttle_new (now : Z) : throttled :=
  {| t_now := now; lastExecTime := 0; t_timeoutId := None; t_log := [] |}.

(** Timers fire on time: the clock never moves past a pending timer's
    due time. *)
Definition on_time (s : throttled) (e : event A) : bool :=
  match e, t_timeoutId s with
  | Tick ms, Some tm => t_now s + Z.of_nat ms <=? due tm
  | _, _ => true
  end.

Fixpoint punctual (es : list (event A)) (s : throttled) : bool :=
  match es with
  | [] => true
  | e :: es' => on_time s e && punctual es' (throttle_step s e)
  end.

(** Execution times, newest first, at least [delay] apart. *)
Fixpoint spaced (l : list (Z * A)) : Prop :=
  match l with
  | [] => True
  | (t1, _) :: l' =>
      match l' with
      | (t2, _) :: _ => t2 + delay <= t1
      | [] => True
      end /\ spaced l'
  end.

(** The arguments of the most recent call in a log. *)
Fixpoint last_called (h : list (entry A)) : option A :=
  match h with
  | [] => None
  | Called _ a :: _ => Some a
  | Ran _ _ :: h' => last_called h'
  end.

(** What holds of a throttled function while timers fire on time: the
    newest execution happened at [lastExecTime]; executions are spaced;
    a pending timer is due [delay] after the last execution, not yet
    overdue, and carries the arguments of the most recent call; with no
    timer pending the newest execution is that of the most recent call. *)
Definition throttle_inv (s : throttled) : Prop :=
  match executions (t_log s) with
  | [] => True
  | (t, _) :: _ => t = lastExecTime s
  end /\
  spaced (executions (t_log s)) /\
  match t_timeoutId s with
  | Some tm =>
      due tm = lastExecTime s + delay /\ t_now s <= due tm /\
      last_called (t_log s) = Some (payload tm)
  | None =>
      match last_called (t_log s) with
      | Some a => exists t rest, executions (t_log s) = (t, a) :: rest
      | None => True
      end
  end.

End Throttle.

End Timing.

(* ================================================================== *)
(** * Verified properties *)
(* ================================================================== *)

(** ** Strings *)

Lemma includes_cons (c : ascii) (s pat : string) :
  includes (String c s) pat =
  if startsWith (String c s) pat then true else includes s pat.
Proof. reflexivity. Qed.

Lemma replace_cons (c : ascii) (s pat rep : string) :
  replace (String c s) pat rep =
  if startsWith (String c s) pat
  then rep ++ drop_chars (String.length pat) (String c s)
  else String c (replace s pat rep).
Proof. reflexivity. Qed.

Lemma occurrences_cons (c : ascii) (s pat : string) :
  occurrences (String c s) pat =
  (if startsWith (String c s) pat then 1 else 0) + occurrences s pat.
Proof. reflexivity. Qed.

Lemma append_cons (c : ascii) (s t : string) :
  String c s ++ t = String c (s ++ t).
Proof. reflexivity. Qed.

Lemma length_append (s t : string) :
  String.length (s ++ t) = String.length s + String.length t.
Proof. induction s as [|c s IH]; simpl; [reflexivity | rewrite IH; reflexivity]. Qed.

Lemma startsWith_app_inv (s t pat : string) :
  startsWith (s ++ t) pat = true ->
  startsWith s pat = true \/
  exists p2, p2 <> EmptyString /\ pat = s ++ p2 /\ startsWith t p2 = true.
Proof.
  revert pat; induction s as [|c s IH]; intros pat H.
  - destruct pat as [|p pat'].
    + left; reflexivity.
    + right; exists (String p pat'); repeat split; [discriminate | exact H].
  - destruct pat as [|p pat']; [left; reflexivity|].
    simpl in H. apply andb_true_iff in H as [Hc H].
    destruct (IH _ H) as [Hs | (p2 & Hne & Heq & Ht)].
    + left; simpl; rewrite Hc, Hs; reflexivity.
    + right; exists p2; repeat split; auto.
      apply Ascii.eqb_eq in Hc; subst; reflexivity.
Qed.

Lemma suffix_in_tails (s p2 pat : string) : pat = s ++ p2 -> In p2 (tails pat).
Proof.
  revert pat; induction s as [|c s IH]; intros pat ->.
  - destruct p2; simpl; auto.
  - simpl. right. apply IH; reflexivity.
Qed.

Lemma includes_tail (c : ascii) (s pat : string) :
  includes (String c s) pat = false -> includes s pat = false.
Proof.
  rewrite includes_cons. destruct (startsWith (String c s) pat); [discriminate | auto].
Qed.

Lemma includes_head (s pat : string) :
  includes s pat = false -> startsWith s pat = false.
Proof.
  intros H. destruct s as [|c s].
  - change (includes "" pat) with (if startsWith "" pat then true else false) in H.
    destruct (startsWith "" pat); [discriminate | reflexivity].
  - rewrite includes_cons in H.
    destruct (startsWith (String c s) pat); [discriminate | reflexivity].
Qed.

Lemma includes_app_r (s t pat : string) :
  includes t pat = true -> includes (s ++ t) pat = true.
Proof.
  intros H; induction s as [|c s IH]; [exact H|].
  rewrite append_cons, includes_cons. rewrite IH.
  destruct (startsWith _ pat); reflexivity.
Qed.

(** No occurrence of [autoplay=1] straddles the end of [s] in
    [s ++ "&autoplay=1"]: the pattern has no ampersand. *)
Lemma no_straddle_autoplay (c : ascii) (s : string) :
  includes (String c s) "autoplay=1" = false ->
  startsWith (String c s ++ "&autoplay=1") "autoplay=1" = false.
Proof.
  intros Hinc. apply not_true_is_false; intros H.
  apply startsWith_app_inv in H as [Hs | (p2 & Hne & Heq & Ht)].
  - apply includes_head in Hinc. congruence.
  - apply suffix_in_tails in Heq. simpl in Heq.
    repeat (destruct Heq as [<- | Heq]; [first [discriminate Ht | congruence]|]).
    contradiction.
Qed.

(** The only place where [&autoplay=1] can start in [s ++ "&autoplay=1"],
    when [s] is free of [autoplay=1], is the end of [s]. *)
Lemma no_early_ampersand (c : ascii) (s : string) :
  includes (String c s) "autoplay=1" = false ->
  startsWith (String c s ++ "&autoplay=1") "&autoplay=1" = false.
Proof.
  intros Hinc. apply not_true_is_false; intros H.
  apply startsWith_app_inv in H as [Hs | (p2 & Hne & Heq & Ht)].
  - simpl in Hs. apply andb_true_iff in Hs as [_ Hs].
    apply includes_tail, includes_head in Hinc. congruence.
  - pose proof (suffix_in_tails _ _ _ Heq) as Hin. simpl in Hin.
    destruct Hin as [<- | Hin].
    + assert (Hlen : String.length "&autoplay=1" =
                     String.length (String c s ++ "&autoplay=1")) by (f_equal; exact Heq).
      rewrite length_append in Hlen. simpl in Hlen. lia.
    + repeat (destruct Hin as [<- | Hin]; [first [discriminate Ht | congruence]|]).
      contradiction.
Qed.

Lemma replace_appended (s : string) :
  includes s "autoplay=1" = false ->
  replace (s ++ "&autoplay=1") "&autoplay=1" "" = s.
Proof.
  induction s as [|c s IH]; intros Hinc; [reflexivity|].
  pose proof (no_early_ampersand _ _ Hinc) as Hno.
  rewrite append_cons in Hno |- *. rewrite replace_cons, Hno. f_equal. apply IH. eapply includes_tail; eassumption.
Qed.

Lemma occurrences_appended (s : string) :
  includes s "autoplay=1" = false ->
  occurrences (s ++ "&autoplay=1") "autoplay=1" = 1.
Proof.
  induction s as [|c s IH]; intros Hinc; [reflexivity|].
  pose proof (no_straddle_autoplay _ _ Hinc) as Hno.
  rewrite append_cons in Hno |- *. rewrite occurrences_cons, Hno. apply IH. eapply includes_tail; eassumption.
Qed.

(** ** Video cards *)

Lemma truthy_nonempty (s : string) : s <> "" -> truthy (Some s) = true.
Proof. destruct s; [congruence | reflexivity]. Qed.

Lemma truthy_append (s t : string) : t <> "" -> truthy (Some (s ++ t)) = true.
Proof. destruct s, t; simpl; congruence. Qed.

Lemma includes_appended (s : string) : includes (s ++ "&autoplay=1") "autoplay=1" = true.
Proof. apply includes_app_r. reflexivity. Qed.

Lemma playVideo_fresh (s : string) :
  s <> "" -> includes s "autoplay=1" = false ->
  playVideo {| src := Some s |} = {| src := Some (s ++ "&autoplay=1") |}.
Proof.
  intros Hne Hinc. unfold playVideo. cbn [src].
  rewrite (truthy_nonempty _ Hne), Hinc. reflexivity.
Qed.

Lemma playVideo_playing (s : string) :
  includes s "autoplay=1" = true ->
  playVideo {| src := Some s |} = {| src := Some s |}.
Proof.
  intros Hinc. unfold playVideo. cbn [src]. rewrite Hinc, andb_false_r. reflexivity.
Qed.

Lemma pauseVideo_appended (u : string) :
  includes u "autoplay=1" = false ->
  pauseVideo {| src := Some (u ++ "&autoplay=1") |} = {| src := Some u |}.
Proof.
  intros Hinc. unfold pauseVideo. cbn [src].
  rewrite truthy_append by discriminate.
  rewrite includes_appended, (replace_appended _ Hinc). reflexivity.
Qed.

Lemma pauseVideo_not_playing (s : string) :
  includes s "autoplay=1" = false ->
  pauseVideo {| src := Some s |} = {| src := Some s |}.
Proof.
  intros Hinc. unfold pauseVideo. cbn [src]. rewrite Hinc, andb_false_r. reflexivity.
Qed.

Lemma card_src_pauseAllVideos (cards : list VideoCard) (j : nat) (s : string) :
  card_src cards j = Some s ->
  card_src (pauseAllVideos cards) j = src (pauseVideo {| src := Some s |}).
Proof.
  unfold card_src, pauseAllVideos. rewrite nth_error_map.
  destruct (nth_error cards j) as [card|]; [|discriminate]. cbn [option_map].
  destruct (iframe card) as [[f]|]; [|discriminate]. cbn [iframe src].
  intros ->. reflexivity.
Qed.

(** An iframe without a [src], or with an empty one, is left alone. *)
Lemma playVideo_no_url (f : Iframe) : truthy (src f) = false -> playVideo f = f.
Proof.
  destruct f as [[s|]]; unfold playVideo; cbn [src]; intros H; [|reflexivity].
  rewrite H. reflexivity.
Qed.

Lemma playVideo_twice (f : Iframe) : playVideo (playVideo f) = playVideo f.
Proof.
  destruct f as [[s|]]; [|reflexivity].
  destruct (truthy (Some s)) eqn:Et.
  - destruct (includes s "autoplay=1") eqn:Ei.
    + rewrite !(playVideo_playing _ Ei). reflexivity.
    + assert (Hne : s <> "") by (intros ->; discriminate Et).
      rewrite (playVideo_fresh _ Hne Ei).
      apply playVideo_playing, includes_appended.
  - rewrite !(playVideo_no_url {| src := Some s |} Et). reflexivity.
Qed.

(** C7 as stated fails on an iframe whose [src] is the empty string: it
    does not contain [autoplay=1], and [playVideo], called twice, leaves
    it empty, with no autoplay parameter at all. *)
Lemma playVideo_skips_empty_url :
  let f := {| src := Some "" |} in
  includes "" "autoplay=1" = false /\
  playVideo (playVideo f) = f /\
  ~ (exists url, src (playVideo (playVideo f)) = Some url /\
                 occurrences url "autoplay=1" = 1).
Proof.
  cbv zeta. split; [reflexivity|]. split; [reflexivity|].
  intros (url & Hu & Ho). cbn in Hu. injection Hu as <-. discriminate Ho.
Qed.

(** C7, amended: on an iframe whose [src] is non-empty and does not yet
    contain [autoplay=1], [playVideo] sets the URL to the old one
    followed by [&autoplay=1], which then contains [autoplay=1] exactly
    once; an iframe without a [src], or with an empty one, is left as it
    is; and on every iframe a second call changes nothing. *)
Theorem playVideo_idempotent (f : Iframe) :
  (forall s, src f = Some s -> s <> "" -> includes s "autoplay=1" = false ->
     src (playVideo f) = Some (s ++ "&autoplay=1") /\
     occurrences (s ++ "&autoplay=1") "autoplay=1" = 1) /\
  (truthy (src f) = false -> playVideo f = f) /\
  playVideo (playVideo f) = playVideo f.
Proof.
  split; [|split; [apply playVideo_no_url | apply playVideo_twice]].
  intros s Hs Hne Hinc. destruct f as [o]. cbn [src] in Hs. subst o.
  rewrite (playVideo_fresh _ Hne Hinc). split; [reflexivity|].
  apply occurrences_appended; assumption.
Qed.

Lemma playVideo_idempotent_witness :
  let f := {| src := Some "https://www.youtube.com/embed/abc?rel=0" |} in
  src (playVideo f) = Some "https://www.youtube.com/embed/abc?rel=0&autoplay=1" /\
  occurrences "https://www.youtube.com/embed/abc?rel=0&autoplay=1" "autoplay=1" = 1.
Proof.
  apply (proj1 (playVideo_idempotent
                  {| src := Some "https://www.youtube.com/embed/abc?rel=0" |})
               "https://www.youtube.com/embed/abc?rel=0").
  - reflexivity.
  - discriminate.
  - reflexivity.
Defined.

(** C3 as stated fails: with two playing cards, hovering the first one in
    the Educatum script strips the parameter from the hovered card's own
    URL, and in the Education script leaves the other card playing. *)
Lemma hover_counterexample :
  card_src (Educatum.VideoManager.on_mouseenter 0 two_playing_cards) 0
    <> card_src two_playing_cards 0 /\
  card_src (Education.VideoManager.on_mouseenter 0 two_playing_cards) 1
    = Some "https://www.youtube.com/embed/xyz?rel=0&autoplay=1".
Proof. split; [vm_compute; discriminate | reflexivity]. Qed.

(** C3, amended: in the Educatum script hovering a card that has an iframe
    and an overlay runs [pauseAllVideos] over every card, the hovered one
    included: a URL that [playVideo] extended gets its original back, and
    a URL without [autoplay=1] is untouched. *)
Theorem hover_pauses_every_card (cards : list VideoCard) (i j : nat) (c : VideoCard) :
  nth_error cards i = Some c ->
  is_set_up c = true ->
  (forall u, card_src cards j = Some (u ++ "&autoplay=1") ->
             includes u "autoplay=1" = false ->
             card_src (Educatum.VideoManager.on_mouseenter i cards) j = Some u) /\
  (forall s, card_src cards j = Some s ->
             includes s "autoplay=1" = false ->
             card_src (Educatum.VideoManager.on_mouseenter i cards) j = Some s).
Proof.
  intros Hi Hset. unfold Educatum.VideoManager.on_mouseenter. rewrite Hi, Hset.
  split.
  - intros u Hsrc Hinc. rewrite (card_src_pauseAllVideos _ _ _ Hsrc).
    rewrite (pauseVideo_appended _ Hinc). reflexivity.
  - intros s Hsrc Hinc. rewrite (card_src_pauseAllVideos _ _ _ Hsrc).
    rewrite (pauseVideo_not_playing _ Hinc). reflexivity.
Qed.

Lemma hover_pauses_every_card_witness :
  (forall u, card_src two_playing_cards 0 = Some (u ++ "&autoplay=1") ->
             includes u "autoplay=1" = false ->
             card_src (Educatum.VideoManager.on_mouseenter 0 two_playing_cards) 0 = Some u) /\
  (forall s, card_src two_playing_cards 0 = Some s ->
             includes s "autoplay=1" = false ->
             card_src (Educatum.VideoManager.on_mouseenter 0 two_playing_cards) 0 = Some s).
Proof.
  apply (hover_pauses_every_card two_playing_cards 0 0
           {| iframe := Some {| src := Some "https://www.youtube.com/embed/abc?rel=0&autoplay=1" |};
              overlay := true |}); reflexivity.
Defined.

(** ** Particles *)

Section ParticleFacts.
Import ParticlePage.
Local Open Scope Q_scope.

Lemma Qltb_true (a b : Q) : Qltb a b = true <-> a < b.
Proof.
  unfold Qltb. rewrite negb_true_iff, <- not_true_iff_false, Qle_bool_iff.
  split; [apply Qnot_le_lt | apply Qlt_not_le].
Qed.

Lemma Qltb_false (a b : Q) : Qltb a b = false <-> b <= a.
Proof. unfold Qltb. rewrite negb_false_iff. apply Qle_bool_iff. Qed.

(** *** One draw, one turn of the loop *)

(** [Math.random()] consumes one draw and touches nothing else. *)
Lemma Math_random_state (w : t) :
  let w' := snd (Math_random w) in
  random w' = random w /\ draws w' = S (draws w) /\
  particles w' = particles w /\ innerWidth w' = innerWidth w /\
  prefers_reduced_motion w' = prefers_reduced_motion w /\
  container w' = container w /\ isActive w' = isActive w /\
  animationFrameId w' = animationFrameId w /\ frames w' = frames w /\
  stale_frames w' = stale_frames w.
Proof. cbv zeta. unfold Math_random. cbn [snd]. repeat split. Qed.

Lemma getRandomFloat_spec (lo hi : Q) (w : t) (r : Q) (w' : t) :
  getRandomFloat lo hi w = (r, w') ->
  r = random w (draws w) * (hi - lo) + lo /\
  random w' = random w /\ draws w' = S (draws w) /\
  particles w' = particles w /\ innerWidth w' = innerWidth w /\
  prefers_reduced_motion w' = prefers_reduced_motion w /\
  container w' = container w /\ isActive w' = isActive w /\
  animationFrameId w' = animationFrameId w /\ frames w' = frames w /\
  stale_frames w' = stale_frames w.
Proof.
  unfold getRandomFloat. intros E.
  assert (E' : r = fst (Math_random w) * (hi - lo) + lo /\ w' = snd (Math_random w)).
  { destruct (Math_random w) as [r0 w0]. injection E as <- <-. split; reflexivity. }
  destruct E' as [-> ->]. split; [reflexivity|]. apply Math_random_state.
Qed.

(** What one turn of the loop of [createParticles] does: seven draws,
    one particle appended, nothing else touched.  The proofs about
    [createParticle] go through this lemma and never unfold the seven
    nested state updates. *)
Lemma createParticle_spec (w : t) :
  exists p : Particle,
    (particles (createParticle w) = particles w ++ [p])%list /\
    (random (createParticle w) = random w /\
     draws (createParticle w) = (7 + draws w)%nat /\
     innerWidth (createParticle w) = innerWidth w /\
     prefers_reduced_motion (createParticle w) = prefers_reduced_motion w /\
     container (createParticle w) = container w /\
     isActive (createParticle w) = isActive w /\
     animationFrameId (createParticle w) = animationFrameId w /\
     frames (createParticle w) = frames w /\
     stale_frames (createParticle w) = stale_frames w) /\
    (x p = random w (draws w) * (100 - 0) + 0 /\
     y p = random w (1 + draws w)%nat * (100 - 0) + 0 /\
     size p = random w (2 + draws w)%nat * (6 - 2) + 2 /\
     animation_duration (element p) = random w (3 + draws w)%nat * (30 - 10) + 10 /\
     animation_delay (element p)
       = random w (4 + draws w)%nat * (animation_duration (element p) - 0) + 0 /\
     vx p = random w (5 + draws w)%nat * ((1 # 2) - - (1 # 2)) + - (1 # 2) /\
     vy p = random w (6 + draws w)%nat * ((1 # 2) - - (1 # 2)) + - (1 # 2)) /\
    (style_left (element p) = x p /\ style_top (element p) = y p /\
     style_size (element p) = size p).
Proof.
  unfold createParticle.
  destruct (getRandomFloat 0 100 w) as [x0 w1] eqn:E1.
  destruct (getRandomFloat 0 100 w1) as [y0 w2] eqn:E2.
  destruct (getRandomFloat 2 6 w2) as [size0 w3] eqn:E3.
  destruct (getRandomFloat 10 30 w3) as [duration w4] eqn:E4.
  destruct (getRandomFloat 0 duration w4) as [delay w5] eqn:E5.
  destruct (getRandomFloat (- (1 # 2)) (1 # 2) w5) as [vx0 w6] eqn:E6.
  destruct (getRandomFloat (- (1 # 2)) (1 # 2) w6) as [vy0 w7] eqn:E7.
  apply getRandomFloat_spec in E1 as (V1 & R1 & D1 & P1 & A1 & B1 & C1 & F1 & G1 & H1 & I1).
  apply getRandomFloat_spec in E2 as (V2 & R2 & D2 & P2 & A2 & B2 & C2 & F2 & G2 & H2 & I2).
  apply getRandomFloat_spec in E3 as (V3 & R3 & D3 & P3 & A3 & B3 & C3 & F3 & G3 & H3 & I3).
  apply getRandomFloat_spec in E4 as (V4 & R4 & D4 & P4 & A4 & B4 & C4 & F4 & G4 & H4 & I4).
  apply getRandomFloat_spec in E5 as (V5 & R5 & D5 & P5 & A5 & B5 & C5 & F5 & G5 & H5 & I5).
  apply getRandomFloat_spec in E6 as (V6 & R6 & D6 & P6 & A6 & B6 & C6 & F6 & G6 & H6 & I6).
  apply getRandomFloat_spec in E7 as (V7 & R7 & D7 & P7 & A7 & B7 & C7 & F7 & G7 & H7 & I7).
  rewrite R1 in V2. rewrite R2, R1 in V3. rewrite R3, R2, R1 in V4.
  rewrite R4, R3, R2, R1 in V5. rewrite R5, R4, R3, R2, R1 in V6.
  rewrite R6, R5, R4, R3, R2, R1 in V7.
  rewrite D1 in V2. rewrite D2, D1 in V3. rewrite D3, D2, D1 in V4.
  rewrite D4, D3, D2, D1 in V5. rewrite D5, D4, D3, D2, D1 in V6.
  rewrite D6, D5, D4, D3, D2, D1 in V7.
  eexists. split; [|split; [|split]].
  - cbn [particles set_particles]. rewrite P7, P6, P5, P4, P3, P2, P1. reflexivity.
  - cbn [random draws innerWidth prefers_reduced_motion container isActive
         animationFrameId frames stale_frames set_particles].
    repeat split; try congruence.
    rewrite D7, D6, D5, D4, D3, D2, D1. reflexivity.
  - cbn [x y vx vy size element animation_duration animation_delay].
    repeat split; assumption.
  - cbn [x y size element style_left style_top style_size]. repeat split.
Qed.

(** One turn of the loop, as an equation to rewrite with. *)
Lemma createParticles_loop_S (n : nat) (w : t) :
  createParticles_loop (S n) w = createParticles_loop n (createParticle w).
Proof.
  transitivity (id (createParticles_loop n) (createParticle w)).
  - exact (eq_refl (id (createParticles_loop n) (createParticle w))).
  - reflexivity.
Qed.

Lemma random_createParticle (w : t) : random (createParticle w) = random w.
Proof. destruct (createParticle_spec w) as (p & _ & H & _). apply H. Qed.

(** *** How many particles are created *)

Lemma particles_createParticle (w : t) :
  exists p, particles (createParticle w) = (particles w ++ [p])%list.
Proof. destruct (createParticle_spec w) as (p & H & _). exists p. exact H. Qed.

(** The loop appends [n] particles and leaves everything but the draws
    as it was. *)
Lemma createParticles_loop_state (n : nat) (w : t) :
  length (particles (createParticles_loop n w)) = (length (particles w) + n)%nat /\
  random (createParticles_loop n w) = random w /\
  innerWidth (createParticles_loop n w) = innerWidth w /\
  prefers_reduced_motion (createParticles_loop n w) = prefers_reduced_motion w /\
  container (createParticles_loop n w) = container w /\
  isActive (createParticles_loop n w) = isActive w /\
  animationFrameId (createParticles_loop n w) = animationFrameId w /\
  frames (createParticles_loop n w) = frames w /\
  stale_frames (createParticles_loop n w) = stale_frames w.
Proof.
  revert w; induction n as [|n IH]; intros w.
  - cbn [createParticles_loop]. rewrite Nat.add_0_r. repeat split.
  - rewrite createParticles_loop_S.
    destruct (IH (createParticle w)) as (L & R & A & B & C & F & G & H & I).
    destruct (createParticle_spec w)
      as (p & Hp & (R' & _ & A' & B' & C' & F' & G' & H' & I') & _).
    rewrite L, R, A, B, C, F, G, H, I, Hp, length_app. cbn [length].
    repeat split; try assumption. lia.
Qed.

Lemma length_createParticles_loop (n : nat) (w : t) :
  length (particles (createParticles_loop n w)) = (length (particles w) + n)%nat.
Proof. apply createParticles_loop_state. Qed.

Lemma innerWidth_createParticles_loop (n : nat) (w : t) :
  innerWidth (createParticles_loop n w) = innerWidth w.
Proof. apply createParticles_loop_state. Qed.

Lemma length_Education_animate (w : t) :
  length (particles (Education.ParticleSystem.animate w)) = length (particles w).
Proof.
  unfold Education.ParticleSystem.animate. destruct (isActive w); simpl; [|reflexivity].
  apply length_map.
Qed.

Lemma length_Educatum_animate (w : t) :
  length (particles (Educatum.ParticleSystem.animate w)) = length (particles w).
Proof.
  unfold Educatum.ParticleSystem.animate. destruct (isActive w); simpl; [|reflexivity].
  apply length_map.
Qed.

End ParticleFacts.

Section FrameFacts.
Import ParticlePage.

(** *** Frame callbacks on an active system *)

Lemma Education_animate_active (w : t) :
  isActive w = true ->
  isActive (Education.ParticleSystem.animate w) = true /\
  particles (Education.ParticleSystem.animate w) = map advance (particles w) /\
  length (Raf.pending (frames (Education.ParticleSystem.animate w)))
    = S (length (Raf.pending (frames w))).
Proof.
  intros H. unfold Education.ParticleSystem.animate. rewrite H.
  cbn. rewrite length_app. cbn. repeat split; [exact H | lia].
Qed.

Lemma Educatum_animate_active (w : t) :
  isActive w = true ->
  isActive (Educatum.ParticleSystem.animate w) = true /\
  particles (Educatum.ParticleSystem.animate w) = map advance (particles w) /\
  length (Raf.pending (frames (Educatum.ParticleSystem.animate w)))
    = S (length (Raf.pending (frames w))).
Proof.
  intros H. unfold Educatum.ParticleSystem.animate. rewrite H.
  cbn. rewrite length_app. cbn. repeat split; [exact H | lia].
Qed.

Lemma map_iter_advance (k : nat) (l : list Particle) :
  map (Nat.iter (S k) advance) l = map (Nat.iter k advance) (map advance l).
Proof.
  rewrite List.map_map. apply List.map_ext. intros p.
  apply Nat.iter_succ_r.
Qed.

(** Running the callbacks that were due, on an active system. *)
Lemma active_ticks
      (animate : t -> t)
      (Hact : forall v, isActive v = true ->
                isActive (animate v) = true /\
                particles (animate v) = map advance (particles v) /\
                length (Raf.pending (frames (animate v)))
                  = S (length (Raf.pending (frames v))))
      (due : list nat) (v : t) :
  isActive v = true ->
  let v' := fold_left (fun w' _ => animate w') due v in
  isActive v' = true /\
  particles v' = map (Nat.iter (length due) advance) (particles v) /\
  length (Raf.pending (frames v'))
    = length due + length (Raf.pending (frames v)).
Proof.
  revert v. induction due as [|d due IH]; intros v Hv; cbn [fold_left length Nat.iter].
  - repeat split; [exact Hv|]. rewrite List.map_id. reflexivity.
  - destruct (Hact v Hv) as (Ha & Hp & Hl).
    destruct (IH (animate v) Ha) as (Ha' & Hp' & Hl').
    repeat split; [exact Ha' | | rewrite Hl', Hl; lia].
    rewrite Hp', Hp. symmetry. apply (map_iter_advance (length due)).
Qed.

End FrameFacts.

(** C9: on a viewport wider than 768px with reduced motion off, [init]
    creates exactly min(50, floor(innerWidth / 30)) particles, in both
    scripts; at 1200px that is 40. *)
Theorem init_particle_count (w : ParticlePage.t) :
  (768 < ParticlePage.innerWidth w)%Z ->
  ParticlePage.prefers_reduced_motion w = false ->
  let created :=
    Z.to_nat (Z.min 50 (ParticlePage.innerWidth w / 30)) in
  length (ParticlePage.particles (Education.ParticleSystem.init w))
    = length (ParticlePage.particles w) + created /\
  length (ParticlePage.particles (Educatum.ParticleSystem.init w))
    = length (ParticlePage.particles w) + created /\
  (ParticlePage.innerWidth w = 1200%Z -> created = 40).
Proof.
  intros Hw Hrm created.
  unfold Education.ParticleSystem.init, Educatum.ParticleSystem.init.
  apply Z.ltb_lt in Hw. rewrite Hw, Hrm. cbn [negb andb].
  repeat split.
  - cbn [ParticlePage.set_isActive ParticlePage.particles].
    rewrite length_Education_animate. apply length_createParticles_loop.
  - cbn [ParticlePage.set_isActive ParticlePage.particles].
    rewrite length_Educatum_animate. apply length_createParticles_loop.
  - intros E. subst created. rewrite E. reflexivity.
Qed.

Lemma init_particle_count_witness :
  length (ParticlePage.particles
            (Education.ParticleSystem.init (desktop_page (fun _ => 1 # 2)))) = 0 + 40 /\
  length (ParticlePage.particles
            (Educatum.ParticleSystem.init (desktop_page (fun _ => 1 # 2)))) = 0 + 40 /\
  (1200%Z = 1200%Z -> 40 = 40).
Proof.
  apply (init_particle_count (desktop_page (fun _ => 1 # 2))).
  - reflexivity.
  - reflexivity.
Defined.

(** *** Reflection at the walls *)

Section Reflection.
Import ParticlePage.
Local Open Scope Q_scope.

Lemma advance_axis_ok (p v : Q) :
  axis_ok p v -> axis_ok (fst (advance_axis p v)) (snd (advance_axis p v)).
Proof.
  unfold axis_ok, advance_axis; cbn [fst snd]. intros [Hv Hp].
  destruct (Qltb (p + v) 0) eqn:Elo; [apply Qltb_true in Elo | apply Qltb_false in Elo];
    (destruct (Qltb 100 (p + v)) eqn:Ehi;
     [apply Qltb_true in Ehi | apply Qltb_false in Ehi]);
    cbn [orb]; split; lra.
Qed.

Lemma axis_ok_bounds (p v : Q) :
  axis_ok p v -> - (1 # 2) <= p <= 100 + (1 # 2).
Proof. unfold axis_ok. lra. Qed.

Lemma axis_ok_returns (p v : Q) :
  axis_ok p v -> p < 0 \/ 100 < p -> 0 <= fst (advance_axis p v) <= 100.
Proof. unfold axis_ok, advance_axis; cbn [fst]. lra. Qed.

Lemma advance_by_axis (p : Particle) :
  (x (advance p), vx (advance p)) = advance_axis (x p) (vx p) /\
  (y (advance p), vy (advance p)) = advance_axis (y p) (vy p) /\
  style_left (element (advance p)) = x (advance p) /\
  style_top (element (advance p)) = y (advance p).
Proof. repeat split. Qed.

Lemma advance_ok (p : Particle) : particle_ok p -> particle_ok (advance p).
Proof.
  intros [Hx Hy]. split.
  - exact (advance_axis_ok _ _ Hx).
  - exact (advance_axis_ok _ _ Hy).
Qed.

Lemma createParticle_ok (w : t) : page_ok w -> page_ok (createParticle w).
Proof.
  intros [Ho Hp].
  destruct (createParticle_spec w)
    as (p & Hps & (Hr & _) & (Hx & Hy & _ & _ & _ & Hvx & Hvy) & _).
  split.
  - intros k. rewrite Hr. apply Ho.
  - rewrite Hps. apply List.Forall_app. split; [exact Hp|].
    constructor; [|constructor].
    pose proof (Ho (draws w)) as H0.
    pose proof (Ho (1 + draws w)%nat) as H1.
    pose proof (Ho (5 + draws w)%nat) as H5.
    pose proof (Ho (6 + draws w)%nat) as H6.
    split; unfold axis_ok; rewrite ?Hx, ?Hy, ?Hvx, ?Hvy; split; try left; lra.
Qed.

Lemma createParticles_ok (w : t) : page_ok w -> page_ok (createParticles w).
Proof.
  unfold createParticles. generalize (Z.to_nat (particleCount w)).
  intros n; revert w; induction n as [|n IH]; intros w H; [exact H|].
  rewrite createParticles_loop_S. apply IH, createParticle_ok, H.
Qed.

Lemma page_ok_map_advance (w : t) :
  page_ok w -> Forall particle_ok (map advance (particles w)).
Proof.
  intros [_ Hp]. apply List.Forall_map. eapply List.Forall_impl; [|exact Hp].
  intros p; apply advance_ok.
Qed.

Lemma page_ok_empty (w : t) : oracle_ok w -> page_ok (set_particles [] w).
Proof. intros H; split; [exact H | constructor]. Qed.

(** *** The Education script *)

Lemma Education_animate_ok (w : t) :
  page_ok w -> page_ok (Education.ParticleSystem.animate w).
Proof.
  intros H. unfold Education.ParticleSystem.animate.
  destruct (isActive w); [|exact H].
  split; [exact (proj1 H) | exact (page_ok_map_advance _ H)].
Qed.

Lemma Education_new_ok (w : t) :
  oracle_ok w -> page_ok (Education.ParticleSystem.new w).
Proof.
  intros H. unfold Education.ParticleSystem.new, Education.ParticleSystem.init.
  cbn [container innerWidth prefers_reduced_motion set_animationFrameId
       set_isActive set_particles].
  assert (H0 : page_ok (set_animationFrameId None (set_isActive false (set_particles [] w))))
    by (split; [exact H | constructor]).
  destruct (container w); [|exact H0].
  destruct ((768 <? innerWidth w)%Z && negb (prefers_reduced_motion w)); [|exact H0].
  pose proof (Education_animate_ok _ (createParticles_ok _ H0)) as [Ha Hb].
  split; [exact Ha | exact Hb].
Qed.

Lemma Education_destroy_ok (w : t) :
  page_ok w -> page_ok (Education.ParticleSystem.destroy w).
Proof.
  intros [H _]. unfold Education.ParticleSystem.destroy.
  cbn [set_isActive animationFrameId].
  destruct (animationFrameId w) as [[|id]|]; cbn [Raf.truthy_id];
    (split; [exact H | constructor]).
Qed.

Lemma Education_ticks_ok (due : list nat) (w : t) :
  page_ok w ->
  page_ok (fold_left (fun w' _ => Education.ParticleSystem.animate w') due w).
Proof.
  revert w; induction due as [|d due IH]; intros w H; simpl; [exact H|].
  apply IH, Education_animate_ok, H.
Qed.

Lemma Education_step_ok (w : t) (e : event) :
  page_ok w -> page_ok (Education.ParticleSystem.step w e).
Proof.
  intros H. destruct e; cbn [Education.ParticleSystem.step].
  - unfold Education.ParticleSystem.frame_tick. cbn [Raf.take].
    apply Education_ticks_ok. split; [exact (proj1 H) | exact (proj2 H)].
  - split; [exact (proj1 H) | exact (proj2 H)].
  - apply Education_animate_ok. split; [exact (proj1 H) | exact (proj2 H)].
  - apply Education_new_ok.
    exact (proj1 (Education_destroy_ok _ H)).
  - apply Education_destroy_ok, H.
Qed.

Lemma Education_run_ok (es : list event) (w : t) :
  page_ok w -> page_ok (Education.ParticleSystem.run es w).
Proof.
  unfold Education.ParticleSystem.run.
  revert w; induction es as [|e es IH]; intros w H; simpl; [exact H|].
  apply IH, Education_step_ok, H.
Qed.

(** *** The Educatum script *)

Lemma Educatum_animate_ok (w : t) :
  page_ok w -> page_ok (Educatum.ParticleSystem.animate w).
Proof.
  intros H. unfold Educatum.ParticleSystem.animate.
  destruct (isActive w); [|exact H].
  split; [exact (proj1 H) | exact (page_ok_map_advance _ H)].
Qed.

Lemma Educatum_new_ok (w : t) :
  oracle_ok w -> page_ok (Educatum.ParticleSystem.new w).
Proof.
  intros H. unfold Educatum.ParticleSystem.new, Educatum.ParticleSystem.init.
  cbn [container innerWidth prefers_reduced_motion set_isActive set_particles].
  assert (H0 : page_ok (set_isActive false (set_particles [] w)))
    by (split; [exact H | constructor]).
  destruct (container w); [|exact H0].
  destruct ((768 <? innerWidth w)%Z && negb (prefers_reduced_motion w)); [|exact H0].
  pose proof (Educatum_animate_ok _ (createParticles_ok _ H0)) as [Ha Hb].
  split; [exact Ha | exact Hb].
Qed.

Lemma Educatum_ticks_ok (due : list nat) (w : t) :
  page_ok w ->
  page_ok (fold_left (fun w' _ => Educatum.ParticleSystem.animate w') due w).
Proof.
  revert w; induction due as [|d due IH]; intros w H; simpl; [exact H|].
  apply IH, Educatum_animate_ok, H.
Qed.

Lemma Educatum_step_ok (w : t) (e : event) :
  page_ok w -> page_ok (Educatum.ParticleSystem.step w e).
Proof.
  intros H. destruct e; cbn [Educatum.ParticleSystem.step].
  - unfold Educatum.ParticleSystem.frame_tick. cbn [Raf.take].
    apply Educatum_ticks_ok. split; [exact (proj1 H) | exact (proj2 H)].
  - split; [exact (proj1 H) | exact (proj2 H)].
  - apply Educatum_animate_ok. split; [exact (proj1 H) | exact (proj2 H)].
  - apply Educatum_new_ok. exact (proj1 H).
  - split; [exact (proj1 H) | constructor].
Qed.

Lemma Educatum_run_ok (es : list event) (w : t) :
  page_ok w -> page_ok (Educatum.ParticleSystem.run es w).
Proof.
  unfold Educatum.ParticleSystem.run.
  revert w; induction es as [|e es IH]; intros w H; simpl; [exact H|].
  apply IH, Educatum_step_ok, H.
Qed.

Lemma particle_ok_near (p : Particle) :
  particle_ok p ->
  (- (1 # 2) <= x p <= 100 + (1 # 2)) /\
  (- (1 # 2) <= y p <= 100 + (1 # 2)) /\
  (x p < 0 \/ 100 < x p -> 0 <= x (advance p) <= 100) /\
  (y p < 0 \/ 100 < y p -> 0 <= y (advance p) <= 100).
Proof.
  intros [Hx Hy]. repeat split;
    first [ apply (axis_ok_bounds _ _ Hx) | apply (axis_ok_bounds _ _ Hy)
          | apply (axis_ok_returns _ _ Hx); assumption
          | apply (axis_ok_returns _ _ Hy); assumption ].
Qed.

End Reflection.

(** C1 as stated fails.  The draws are legal (in [0,1)); the first
    particle starts at x = 99.90234375 with vx = 0.4990234375, and the
    first frame that runs (started by the page becoming visible) puts it
    at x = 100.4013671875, outside [0,100]. *)
Lemma particle_leaves_range :
  oracle_ok page_near_one /\
  exists p,
    nth_error
      (ParticlePage.particles
         (Education.ParticleSystem.run [PageVisible]
            (Education.ParticleSystem.new page_near_one))) 0 = Some p /\
    ~ (0 <= ParticlePage.x p <= 100)%Q.
Proof.
  split.
  - intros k. cbn. split; [discriminate | reflexivity].
  - eexists. split; [vm_compute; reflexivity|].
    cbn [ParticlePage.x]. intros [_ H]. vm_compute in H. apply H. reflexivity.
Qed.

Section ReflectionAlongRuns.
Import ParticlePage.
Local Open Scope Q_scope.

Lemma near_box_all (l : list Particle) : Forall particle_ok l -> Forall near_box l.
Proof.
  intros H. eapply List.Forall_impl; [|exact H].
  intros p Hp. destruct (particle_ok_near p Hp) as (Hx & Hy & _). split; assumption.
Qed.

Lemma back_inside_advance (l : list Particle) :
  Forall particle_ok l -> List.Forall2 back_inside l (map advance l).
Proof.
  induction 1 as [|p l Hp _ IH]; cbn [map]; constructor; [|exact IH].
  destruct (particle_ok_near p Hp) as (_ & _ & Hx & Hy). split; assumption.
Qed.

(** What is known of every state the particle field can reach: the
    particles are near the box, one run of [animate] on the active
    system brings back each one that is outside, and so does a frame in
    which a single callback is due. *)
Lemma reflection_at (animate frame_tick : t -> t) (w : t)
      (Hact : forall v, isActive v = true ->
                isActive (animate v) = true /\
                particles (animate v) = map advance (particles v) /\
                length (Raf.pending (frames (animate v)))
                  = S (length (Raf.pending (frames v))))
      (Htick : frame_tick w
               = fold_left (fun w' _ => animate w') (Raf.pending (frames w))
                   (set_stale_frames []
                      (set_frames {| Raf.next_id := Raf.next_id (frames w);
                                     Raf.pending := [] |} w))) :
  page_ok w ->
  Forall near_box (particles w) /\
  (isActive w = true ->
   List.Forall2 back_inside (particles w) (particles (animate w))) /\
  (isActive w = true -> length (Raf.pending (frames w)) = 1%nat ->
   List.Forall2 back_inside (particles w) (particles (frame_tick w))).
Proof.
  intros [_ Hok]. split; [apply near_box_all, Hok|]. split.
  - intros Ha. destruct (Hact w Ha) as (_ & -> & _). apply back_inside_advance, Hok.
  - intros Ha Hone. rewrite Htick.
    destruct (active_ticks animate Hact (Raf.pending (frames w))
                (set_stale_frames []
                   (set_frames {| Raf.next_id := Raf.next_id (frames w);
                                  Raf.pending := [] |} w)) Ha) as (_ & Hp & _).
    rewrite Hp, Hone. apply back_inside_advance, Hok.
Qed.

End ReflectionAlongRuns.

(** C1, amended: for draws of [Math.random()] in [0,1), after any sequence
    of frame ticks, visibility changes, resizes and unloads, in both
    scripts, every particle is within half a point of the box on each
    axis; and a particle that is outside [0,100] on an axis is back
    inside on that axis after the next run of [animate] on the active
    system, which is the next frame when a single frame loop is
    running. *)
Theorem particles_stay_near_box (w0 : ParticlePage.t) (es : list event) :
  oracle_ok w0 ->
  let w1 := Education.ParticleSystem.run es (Education.ParticleSystem.new w0) in
  let w2 := Educatum.ParticleSystem.run es (Educatum.ParticleSystem.new w0) in
  (Forall near_box (ParticlePage.particles w1) /\
   (ParticlePage.isActive w1 = true ->
    List.Forall2 back_inside (ParticlePage.particles w1)
      (ParticlePage.particles (Education.ParticleSystem.animate w1))) /\
   (ParticlePage.isActive w1 = true ->
    length (Raf.pending (ParticlePage.frames w1)) = 1 ->
    List.Forall2 back_inside (ParticlePage.particles w1)
      (ParticlePage.particles (Education.ParticleSystem.frame_tick w1)))) /\
  (Forall near_box (ParticlePage.particles w2) /\
   (ParticlePage.isActive w2 = true ->
    List.Forall2 back_inside (ParticlePage.particles w2)
      (ParticlePage.particles (Educatum.ParticleSystem.animate w2))) /\
   (ParticlePage.isActive w2 = true ->
    length (Raf.pending (ParticlePage.frames w2)) = 1 ->
    List.Forall2 back_inside (ParticlePage.particles w2)
      (ParticlePage.particles (Educatum.ParticleSystem.frame_tick w2)))).
Proof.
  intros Ho. cbv zeta. split.
  - apply (reflection_at Education.ParticleSystem.animate
             Education.ParticleSystem.frame_tick _ Education_animate_active eq_refl).
    apply Education_run_ok, Education_new_ok, Ho.
  - apply (reflection_at Educatum.ParticleSystem.animate
             Educatum.ParticleSystem.frame_tick _ Educatum_animate_active eq_refl).
    apply Educatum_run_ok, Educatum_new_ok, Ho.
Qed.

Lemma particles_stay_near_box_witness :
  let w1 := Education.ParticleSystem.run [PageVisible]
              (Education.ParticleSystem.new page_near_one) in
  Forall near_box (ParticlePage.particles w1) /\
  List.Forall2 back_inside (ParticlePage.particles w1)
    (ParticlePage.particles (Education.ParticleSystem.frame_tick w1)).
Proof.
  assert (Ho : oracle_ok page_near_one)
    by (intros k; cbn; split; [discriminate | reflexivity]).
  destruct (particles_stay_near_box page_near_one [PageVisible] Ho)
    as [(H1 & _ & H3) _].
  split; [exact H1|]. apply H3; reflexivity.
Defined.

(** ** Theme *)

Section ThemeFacts.
Import ThemePage.

Lemma Education_getInitialTheme_stored (w : t) (v : string) :
  v <> "" ->
  Storage.getItem (localStorage w) Education.STORAGE_KEYS_THEME = inr (Some v) ->
  Education.ThemeManager.getInitialTheme true w = Returns v w.
Proof.
  intros Hne Hget. unfold Education.ThemeManager.getInitialTheme, bind, storage_getItem.
  rewrite Hget, (truthy_nonempty _ Hne). reflexivity.
Qed.

Lemma Educatum_getInitialTheme_stored (w : t) (v : string) :
  v <> "" ->
  Storage.getItem (localStorage w) Educatum.STORAGE_KEYS_THEME = inr (Some v) ->
  Educatum.ThemeManager.getInitialTheme w = Returns v w.
Proof.
  intros Hne Hget. unfold Educatum.ThemeManager.getInitialTheme, bind, storage_getItem.
  rewrite Hget, (truthy_nonempty _ Hne). reflexivity.
Qed.

Lemma Education_applyTheme_returns (theme : string) (w : t) :
  exists w', Education.ThemeManager.applyTheme theme w = Returns tt w' /\
             data_theme w' = Some theme /\ currentTheme w' = theme /\
             localStorage w' = localStorage w /\ prefers_dark w' = prefers_dark w.
Proof.
  unfold Education.ThemeManager.applyTheme, try_catch, bind, modify.
  destruct (themeToggle w) as [b|] eqn:E; cbn; rewrite ?E;
    eexists; (split; [reflexivity|]); cbn; auto.
Qed.

Lemma Educatum_applyTheme_attribute (theme : string) (w : t) :
  data_theme (final_state (Educatum.ThemeManager.applyTheme theme w)) = Some theme /\
  currentTheme (final_state (Educatum.ThemeManager.applyTheme theme w)) = theme.
Proof.
  unfold Educatum.ThemeManager.applyTheme, bind, modify.
  destruct (themeToggle w) as [[[ic|] ap]|] eqn:E; cbn; rewrite ?E; cbn; auto.
Qed.

End ThemeFacts.

(** *** The load-time probe *)

Lemma probe_succeeds_iff (st : Storage.t) :
  fst (Education.probe_localStorage st) = true <->
  Storage.set_fails st = false /\ Storage.remove_fails st = false.
Proof.
  unfold Education.probe_localStorage, Storage.setItem, Storage.removeItem.
  destruct (Storage.set_fails st); cbn; [split; [discriminate | intros [H _]; discriminate H]|].
  destruct (Storage.remove_fails st); cbn; split; auto; try discriminate.
  intros [_ H]; discriminate H.
Qed.

(** A probe that succeeds leaves the stored theme readable as before. *)
Lemma probe_keeps_theme (st : Storage.t) :
  fst (Education.probe_localStorage st) = true ->
  Storage.getItem (snd (Education.probe_localStorage st)) Education.STORAGE_KEYS_THEME
    = Storage.getItem st Education.STORAGE_KEYS_THEME.
Proof.
  unfold Education.probe_localStorage, Storage.setItem, Storage.removeItem, Storage.getItem.
  destruct (Storage.set_fails st); cbn; [discriminate|].
  destruct (Storage.remove_fails st); cbn; [discriminate|]. intros _.
  destruct (Storage.get_fails st); [reflexivity|]. f_equal.
  rewrite lookup_delete_ne by discriminate.
  rewrite lookup_insert_ne by discriminate. reflexivity.
Qed.

Lemma loaded_spec (w : ThemePage.t) :
  fst (Education.loaded w) = fst (Education.probe_localStorage (ThemePage.localStorage w)) /\
  ThemePage.localStorage (snd (Education.loaded w))
    = snd (Education.probe_localStorage (ThemePage.localStorage w)) /\
  ThemePage.prefers_dark (snd (Education.loaded w)) = ThemePage.prefers_dark w.
Proof.
  unfold Education.loaded.
  destruct (Education.probe_localStorage (ThemePage.localStorage w)); repeat split.
Qed.

(** With the probe failed the Education script never reads the storage:
    the initial theme is the system preference, and the constructor
    shows it. *)
Lemma Education_probe_failed_theme (w : ThemePage.t) :
  let theme := match ThemePage.prefers_dark w with
               | Some true => "dark"
               | _ => "light"
               end in
  Education.ThemeManager.getInitialTheme false w = Returns theme w /\
  ThemePage.data_theme (final_state (Education.ThemeManager.new false w)) = Some theme.
Proof.
  destruct w as [st [[|]|] dt [[ic ap]|] bt tt cur ce]; cbn; split; reflexivity.
Qed.

(** C4 as stated fails in the Education script: the storage holds
    ["dark"] and can be read, but writing to it raises, so the load-time
    probe fails and [getInitialTheme] returns the system preference,
    ["light"]. *)
Lemma stored_theme_ignored_after_failed_probe :
  let w := page_with_full_storage "dark" false in
  Storage.getItem (ThemePage.localStorage w) Education.STORAGE_KEYS_THEME
    = inr (Some "dark") /\
  fst (Education.loaded w) = false /\
  Education.ThemeManager.getInitialTheme (fst (Education.loaded w)) (snd (Education.loaded w))
    = Returns "light" (snd (Education.loaded w)).
Proof. repeat split. Qed.

(** C4, amended: a stored theme of ["light"] or ["dark"] that can be read
    is what [getInitialTheme] returns, whatever the page reports as
    system preference: always in the Educatum script, and in the
    Education script when the load-time probe (a write followed by a
    removal) succeeded.  When that probe failed the Education script
    does not read the storage and returns the system preference. *)
Theorem stored_theme_wins (w : ThemePage.t) (v : string) :
  v = "light" \/ v = "dark" ->
  let available := fst (Education.loaded w) in
  let w1 := snd (Education.loaded w) in
  (Storage.getItem (ThemePage.localStorage w) Educatum.STORAGE_KEYS_THEME
     = inr (Some v) ->
   Educatum.ThemeManager.getInitialTheme w = Returns v w) /\
  (Storage.getItem (ThemePage.localStorage w) Education.STORAGE_KEYS_THEME
     = inr (Some v) ->
   Storage.set_fails (ThemePage.localStorage w) = false ->
   Storage.remove_fails (ThemePage.localStorage w) = false ->
   available = true /\
   Education.ThemeManager.getInitialTheme available w1 = Returns v w1) /\
  (Storage.set_fails (ThemePage.localStorage w) = true \/
   Storage.remove_fails (ThemePage.localStorage w) = true ->
   available = false /\
   Education.ThemeManager.getInitialTheme available w1
     = Returns (match ThemePage.prefers_dark w with
                | Some true => "dark"
                | _ => "light"
                end) w1).
Proof.
  intros Hv available w1. subst available w1.
  assert (Hne : v <> "") by (destruct Hv; subst; discriminate).
  destruct (loaded_spec w) as (Hf & Hst & Hpd).
  split; [|split].
  - intros Hget. apply Educatum_getInitialTheme_stored; assumption.
  - intros Hget Hs Hr.
    assert (Hp : fst (Education.probe_localStorage (ThemePage.localStorage w)) = true)
      by (apply probe_succeeds_iff; split; assumption).
    rewrite Hf, Hp. split; [reflexivity|].
    apply Education_getInitialTheme_stored; [exact Hne|].
    rewrite Hst, (probe_keeps_theme _ Hp). exact Hget.
  - intros Hfail.
    assert (Hp : fst (Education.probe_localStorage (ThemePage.localStorage w)) = false).
    { destruct (fst (Education.probe_localStorage (ThemePage.localStorage w))) eqn:E;
        [|reflexivity].
      apply probe_succeeds_iff in E as [E1 E2]. destruct Hfail; congruence. }
    rewrite Hf, Hp. split; [reflexivity|].
    rewrite <- Hpd. apply Education_probe_failed_theme.
Qed.

Lemma stored_theme_wins_witness :
  Educatum.ThemeManager.getInitialTheme (page_with_stored "light" true)
    = Returns "light" (page_with_stored "light" true) /\
  fst (Education.loaded (page_with_stored "light" true)) = true /\
  Education.ThemeManager.getInitialTheme
    (fst (Education.loaded (page_with_stored "light" true)))
    (snd (Education.loaded (page_with_stored "light" true)))
    = Returns "light" (snd (Education.loaded (page_with_stored "light" true))).
Proof.
  destruct (stored_theme_wins (page_with_stored "light" true) "light"
                              (or_introl eq_refl)) as (H1 & H2 & _).
  split; [apply H1; reflexivity|].
  apply H2; reflexivity.
Defined.

(** C10 as stated fails in the Education script: a page holds the
    readable string ["sepia"], but writing to its storage raises; the
    probe fails, the string is never read, and the constructor shows the
    system preference, ["dark"]. *)
Lemma stored_value_unread_after_failed_probe :
  let w := page_with_full_storage "sepia" true in
  Storage.getItem (ThemePage.localStorage w) Education.STORAGE_KEYS_THEME
    = inr (Some "sepia") /\
  Education.ThemeManager.getInitialTheme (fst (Education.loaded w)) (snd (Education.loaded w))
    = Returns "dark" (snd (Education.loaded w)) /\
  ThemePage.data_theme
    (final_state (Education.ThemeManager.new (fst (Education.loaded w))
                    (snd (Education.loaded w))))
    = Some "dark".
Proof. repeat split. Qed.

(** C10, amended: [getInitialTheme] does not validate what it reads: any
    non-empty stored string is returned as it is, and constructing the
    ThemeManager leaves that string in the root's data-theme attribute:
    always in the Educatum script, and in the Education script when the
    load-time probe succeeded.  When the probe failed the Education
    script does not read the stored string: the result, and the
    attribute, is ["dark"] or ["light"]. *)
Theorem stored_value_not_validated (w : ThemePage.t) (v : string) :
  v <> "" ->
  let available := fst (Education.loaded w) in
  let w1 := snd (Education.loaded w) in
  (Storage.getItem (ThemePage.localStorage w) Educatum.STORAGE_KEYS_THEME
     = inr (Some v) ->
   Educatum.ThemeManager.getInitialTheme w = Returns v w /\
   ThemePage.data_theme (final_state (Educatum.ThemeManager.new w)) = Some v) /\
  (Storage.getItem (ThemePage.localStorage w) Education.STORAGE_KEYS_THEME
     = inr (Some v) ->
   Storage.set_fails (ThemePage.localStorage w) = false ->
   Storage.remove_fails (ThemePage.localStorage w) = false ->
   available = true /\
   Education.ThemeManager.getInitialTheme available w1 = Returns v w1 /\
   ThemePage.data_theme (final_state (Education.ThemeManager.new available w1)) = Some v) /\
  (Storage.set_fails (ThemePage.localStorage w) = true \/
   Storage.remove_fails (ThemePage.localStorage w) = true ->
   available = false /\
   exists theme, (theme = "dark" \/ theme = "light") /\
     Education.ThemeManager.getInitialTheme available w1 = Returns theme w1 /\
     ThemePage.data_theme (final_state (Education.ThemeManager.new available w1))
       = Some theme).
Proof.
  intros Hne available w1. subst available w1.
  destruct (loaded_spec w) as (Hf & Hst & Hpd).
  split; [|split].
  - intros Hget.
    pose proof (Educatum_getInitialTheme_stored w v Hne Hget) as Hg.
    split; [exact Hg|].
    unfold Educatum.ThemeManager.new, Educatum.ThemeManager.init, bind at 1.
    rewrite Hg. unfold bind at 1 2 3, modify, gets.
    cbn [ThemePage.currentTheme ThemePage.set_currentTheme].
    pose proof (Educatum_applyTheme_attribute v (ThemePage.set_currentTheme v w)) as [Hd _].
    destruct (Educatum.ThemeManager.applyTheme v (ThemePage.set_currentTheme v w))
      as [[] w' | e w']; cbn [final_state] in Hd.
    + unfold bind, Educatum.ThemeManager.system_prefers_dark.
      destruct (ThemePage.prefers_dark w'); exact Hd.
    + exact Hd.
  - intros Hget Hs Hr.
    assert (Hp : fst (Education.probe_localStorage (ThemePage.localStorage w)) = true)
      by (apply probe_succeeds_iff; split; assumption).
    rewrite Hf, Hp. split; [reflexivity|].
    assert (Hg : Education.ThemeManager.getInitialTheme true (snd (Education.loaded w))
                 = Returns v (snd (Education.loaded w))).
    { apply Education_getInitialTheme_stored; [exact Hne|].
      rewrite Hst, (probe_keeps_theme _ Hp). exact Hget. }
    split; [exact Hg|].
    unfold Education.ThemeManager.new, Education.ThemeManager.init, bind at 1.
    rewrite Hg. unfold bind, modify, gets, try_catch.
    cbn [ThemePage.currentTheme ThemePage.set_currentTheme].
    destruct (Education_applyTheme_returns v
                (ThemePage.set_currentTheme v (snd (Education.loaded w))))
      as (w' & -> & Hd & _). exact Hd.
  - intros Hfail.
    assert (Hp : fst (Education.probe_localStorage (ThemePage.localStorage w)) = false).
    { destruct (fst (Education.probe_localStorage (ThemePage.localStorage w))) eqn:E;
        [|reflexivity].
      apply probe_succeeds_iff in E as [E1 E2]. destruct Hfail; congruence. }
    rewrite Hf, Hp. split; [reflexivity|].
    destruct (Education_probe_failed_theme (snd (Education.loaded w))) as [Hg Hd].
    eexists. split; [|split; [exact Hg | exact Hd]].
    destruct (ThemePage.prefers_dark (snd (Education.loaded w))) as [[|]|]; auto.
Qed.

Lemma stored_value_not_validated_witness :
  (Educatum.ThemeManager.getInitialTheme (page_with_stored "sepia" true)
     = Returns "sepia" (page_with_stored "sepia" true) /\
   ThemePage.data_theme
     (final_state (Educatum.ThemeManager.new (page_with_stored "sepia" true)))
     = Some "sepia") /\
  (fst (Education.loaded (page_with_stored "sepia" true)) = true /\
   Education.ThemeManager.getInitialTheme
     (fst (Education.loaded (page_with_stored "sepia" true)))
     (snd (Education.loaded (page_with_stored "sepia" true)))
     = Returns "sepia" (snd (Education.loaded (page_with_stored "sepia" true))) /\
   ThemePage.data_theme
     (final_state (Education.ThemeManager.new
                     (fst (Education.loaded (page_with_stored "sepia" true)))
                     (snd (Education.loaded (page_with_stored "sepia" true)))))
     = Some "sepia").
Proof.
  assert (Hne : "sepia" <> "") by discriminate.
  destruct (stored_value_not_validated (page_with_stored "sepia" true) "sepia" Hne)
    as (H1 & H2 & _).
  split; [apply H1; reflexivity|].
  apply H2; reflexivity.
Defined.

(** C8: starting from a ThemeManager whose current theme is ["light"] or
    ["dark"] and is the one shown in the root attribute, two calls of
    [toggleTheme] return, and put the attribute back to where it was;
    this holds whatever the storage does. *)
Theorem toggleTheme_involution (available : bool) (w : ThemePage.t) (theme : string) :
  theme = "light" \/ theme = "dark" ->
  ThemePage.currentTheme w = theme ->
  ThemePage.data_theme w = Some theme ->
  let once := Education.ThemeManager.toggleTheme available w in
  let twice := Education.ThemeManager.toggleTheme available (final_state once) in
  throws once = false /\ throws twice = false /\
  ThemePage.data_theme (final_state once) <> Some theme /\
  ThemePage.data_theme (final_state twice) = Some theme.
Proof.
  intros Hth Hcur Hattr.
  destruct w as [[m gf sf rf] pd dt tg bt tt cur ce].
  cbn in Hcur, Hattr. subst cur dt.
  destruct Hth as [-> | ->]; destruct available, sf, tg as [[ic ap]|];
    cbn; repeat split; congruence.
Qed.

Lemma toggleTheme_involution_witness :
  let w := page_without_storage in
  let once := Education.ThemeManager.toggleTheme true w in
  let twice := Education.ThemeManager.toggleTheme true (final_state once) in
  throws once = false /\ throws twice = false /\
  ThemePage.data_theme (final_state once) <> Some "light" /\
  ThemePage.data_theme (final_state twice) = Some "light".
Proof.
  apply (toggleTheme_involution true page_without_storage "light").
  - left; reflexivity.
  - reflexivity.
  - reflexivity.
Defined.

(** On a storage that works, the load-time probe succeeds and leaves the
    stored theme where it was. *)
Lemma probe_working_storage (m : gmap string string) :
  fst (Education.probe_localStorage (Storage.working m)) = true /\
  Storage.getItem (snd (Education.probe_localStorage (Storage.working m)))
                  Education.STORAGE_KEYS_THEME
    = inr (m !! Education.STORAGE_KEYS_THEME).
Proof.
  split; [reflexivity|].
  cbn. unfold Storage.getItem; cbn. f_equal.
  rewrite lookup_delete_ne by discriminate.
  rewrite lookup_insert_ne by discriminate. reflexivity.
Qed.

(** After the constructor the root attribute shows the current theme. *)
Lemma Education_new_syncs (available : bool) (w w' : ThemePage.t) :
  Education.ThemeManager.new available w = Returns tt w' ->
  ThemePage.data_theme w' = Some (ThemePage.currentTheme w').
Proof.
  unfold Education.ThemeManager.new, Education.ThemeManager.init, bind at 1.
  destruct (Education.ThemeManager.getInitialTheme available w) as [theme w1|e w1];
    [|discriminate].
  unfold bind, modify, gets, try_catch.
  cbn [ThemePage.currentTheme ThemePage.set_currentTheme].
  destruct (Education_applyTheme_returns theme (ThemePage.set_currentTheme theme w1))
    as (w2 & -> & Hd & Hc & _).
  intros [= <-]. rewrite Hd, Hc. reflexivity.
Qed.

(** *** Storage failures *)

Lemma probe_fails_without_storage (st : Storage.t) :
  Storage.set_fails st = true -> fst (Education.probe_localStorage st) = false.
Proof.
  intros H. unfold Education.probe_localStorage, Storage.setItem. rewrite H. reflexivity.
Qed.

(** Education script, probe failed: no theme operation touches the
    storage, and none throws. *)
Lemma Education_theme_safe_when_probe_failed (w : ThemePage.t) (matches : bool) :
  throws (Education.ThemeManager.getInitialTheme false w) = false /\
  throws (Education.ThemeManager.toggleTheme false w) = false /\
  throws (Education.ThemeManager.on_system_change false matches w) = false /\
  throws (Education.ThemeManager.new false w) = false.
Proof.
  destruct w as [st pd dt [[ic ap]|] bt tt cur ce]; cbn; auto.
Qed.

(** Education script: [toggleTheme] catches whatever the storage raises. *)
Lemma Education_toggleTheme_never_throws (available : bool) (w : ThemePage.t) :
  throws (Education.ThemeManager.toggleTheme available w) = false.
Proof.
  destruct w as [[m gf sf rf] pd dt [[ic ap]|] bt tt cur ce];
    destruct available, sf; reflexivity.
Qed.

(** Education script: [getInitialTheme] and the system-change listener
    read the storage outside any try block, so a storage that passed the
    probe but raises on a later read makes them throw. *)
Lemma Education_unguarded_reads (w : ThemePage.t) (matches : bool) :
  Storage.get_fails (ThemePage.localStorage w) = true ->
  Education.ThemeManager.getInitialTheme true w = Throws DOMException w /\
  Education.ThemeManager.on_system_change true matches w = Throws DOMException w.
Proof.
  intros H.
  unfold Education.ThemeManager.getInitialTheme, Education.ThemeManager.on_system_change,
    bind, ThemePage.storage_getItem, Storage.getItem.
  rewrite H. split; reflexivity.
Qed.

(** Educatum script: every theme operation reaches the storage unguarded. *)
Lemma Educatum_getInitialTheme_throws (w : ThemePage.t) :
  Storage.get_fails (ThemePage.localStorage w) = true ->
  Educatum.ThemeManager.getInitialTheme w = Throws DOMException w.
Proof.
  intros H.
  unfold Educatum.ThemeManager.getInitialTheme, bind, ThemePage.storage_getItem,
    Storage.getItem.
  rewrite H. reflexivity.
Qed.

(** C2 fails on the Educatum script: on a page whose storage raises on
    every access, [getInitialTheme], [toggleTheme] and the system-change
    listener all throw (and the ThemeManager constructor with them); the
    Education script, whose probe reports the storage as unavailable,
    runs the same three operations without throwing. *)
Theorem theme_operations_throw_without_storage :
  Educatum.ThemeManager.getInitialTheme page_without_storage
    = Throws DOMException page_without_storage /\
  throws (Educatum.ThemeManager.toggleTheme page_without_storage) = true /\
  throws (Educatum.ThemeManager.on_system_change true page_without_storage) = true /\
  throws (Educatum.ThemeManager.new page_without_storage) = true /\
  let available :=
    fst (Education.probe_localStorage (ThemePage.localStorage page_without_storage)) in
  available = false /\
  throws (Education.ThemeManager.getInitialTheme available page_without_storage) = false /\
  throws (Education.ThemeManager.toggleTheme available page_without_storage) = false /\
  throws (Education.ThemeManager.on_system_change available true page_without_storage) = false.
Proof. repeat split. Qed.

(** ** Menu and body scroll lock *)

Section NavigationFacts.
Import Education.Navigation.

Lemma closeMenu_exact (w : t) : lock_exact (closeMenu w).
Proof. unfold lock_exact, scroll_locked; cbn. split; discriminate. Qed.

Lemma openMenu_exact (w : t) : lock_exact (openMenu w).
Proof. unfold lock_exact, scroll_locked; cbn. split; reflexivity. Qed.

Lemma toggleMenu_exact (w : t) : lock_exact (toggleMenu w).
Proof.
  unfold toggleMenu. destruct (isMenuOpen w);
    [apply closeMenu_exact | apply openMenu_exact].
Qed.

Lemma sidebar_class_same (f : bool -> bool) (w : t) :
  isMenuOpen (sidebar_class f w) = isMenuOpen w /\
  body_overflow (sidebar_class f w) = body_overflow w.
Proof. unfold sidebar_class. destruct (sidebar w); split; reflexivity. Qed.

Lemma sidebar_class_exact (f : bool -> bool) (w : t) :
  lock_exact w -> lock_exact (sidebar_class f w).
Proof.
  unfold lock_exact, scroll_locked.
  destruct (sidebar_class_same f w) as [-> ->]. auto.
Qed.

Lemma click_document_exact (tg : target) (w : t) :
  lock_exact w -> lock_exact (click_document tg w).
Proof.
  intros H. unfold click_document.
  destruct (sidebar w), (menuButton w); try exact H.
  destruct (isMenuOpen w && negb (in_sidebar tg) && negb (in_menuButton tg));
    [apply closeMenu_exact | exact H].
Qed.

Lemma click_target_exact (tg : target) (w : t) :
  lock_exact w -> lock_exact (click_target tg w).
Proof.
  intros H. destruct tg; cbn [click_target].
  - destruct (menuButton w); [|exact H].
    destruct (minimal (toggleMenu w));
      [apply sidebar_class_exact|]; apply toggleMenu_exact.
  - destruct (sidebarClose w); [|exact H].
    destruct (minimal (closeMenu w));
      [apply sidebar_class_exact|]; apply closeMenu_exact.
  - destruct (isMenuOpen w); exact H.
  - destruct (isMenuOpen w); exact H.
  - exact H.
  - exact H.
Qed.

Lemma click_exact (tg : target) (w : t) :
  lock_exact w -> lock_exact (step w (Click tg)).
Proof.
  intros H. cbn [step]. cbv zeta.
  destruct (stops_propagation tg);
    [|apply click_document_exact]; apply click_target_exact, H.
Qed.

(** The loading overlay writes ['auto'] without looking at the menu:
    that keeps the biconditional exactly when the menu is closed. *)
Lemma overlay_exact_when_closed (w : t) (e : event) :
  overlay_event e = true -> isMenuOpen w = false ->
  lock_exact w -> lock_exact (step w e).
Proof.
  intros He Hc H. destruct e; try discriminate He; cbn [step].
  - destruct (hide_pending w); [|exact H].
    unfold hide, lock_exact, scroll_locked.
    destruct (loadingScreen w); cbn; [|exact H].
    rewrite Hc. split; discriminate.
  - unfold lock_exact, scroll_locked; cbn. rewrite Hc. split; discriminate.
Qed.

Lemma step_exact (w : t) (e : event) :
  negb (overlay_event e) || negb (isMenuOpen w) = true ->
  lock_exact w -> lock_exact (step w e).
Proof.
  intros He H. destruct (overlay_event e) eqn:Eo.
  - cbn [negb orb] in He. apply negb_true_iff in He.
    apply overlay_exact_when_closed; assumption.
  - destruct e; try discriminate Eo.
    + apply click_exact, H.
    + cbn [step]. apply sidebar_class_exact.
      destruct (isMenuOpen w); [apply closeMenu_exact | exact H].
    + cbn [step]. destruct (close_timers w); [exact H | apply closeMenu_exact].
Qed.

Lemma exact_sound (w : t) : lock_exact w -> lock_sound w.
Proof. intros [H _]. exact H. Qed.

Lemma click_target_sound (tg : target) (w : t) :
  lock_sound w -> lock_sound (click_target tg w).
Proof.
  intros H. destruct tg; cbn [click_target].
  - destruct (menuButton w); [|exact H].
    destruct (minimal (toggleMenu w)); apply exact_sound;
      [apply sidebar_class_exact|]; apply toggleMenu_exact.
  - destruct (sidebarClose w); [|exact H].
    destruct (minimal (closeMenu w)); apply exact_sound;
      [apply sidebar_class_exact|]; apply closeMenu_exact.
  - destruct (isMenuOpen w); exact H.
  - destruct (isMenuOpen w); exact H.
  - exact H.
  - exact H.
Qed.

Lemma step_sound (w : t) (e : event) : lock_sound w -> lock_sound (step w e).
Proof.
  intros H. destruct e; cbn [step].
  - cbv zeta. pose proof (click_target_sound tg w H) as Ht.
    destruct (stops_propagation tg); [exact Ht|].
    unfold click_document.
    destruct (sidebar (click_target tg w)), (menuButton (click_target tg w));
      try exact Ht.
    destruct (isMenuOpen (click_target tg w) && negb (in_sidebar tg)
              && negb (in_menuButton tg));
      [apply exact_sound, closeMenu_exact | exact Ht].
  - unfold lock_sound, scroll_locked.
    destruct (sidebar_class_same (fun _ => false)
                (if isMenuOpen w then closeMenu w else w)) as [-> ->].
    destruct (isMenuOpen w) eqn:E; [cbn; discriminate | exact H].
  - destruct (close_timers w); [exact H | apply exact_sound, closeMenu_exact].
  - destruct (hide_pending w); [|exact H].
    unfold hide, lock_sound, scroll_locked.
    destruct (loadingScreen w); cbn; [discriminate | exact H].
  - unfold lock_sound, scroll_locked; cbn. discriminate.
Qed.

Lemma run_sound (es : list event) (w : t) : lock_sound w -> lock_sound (run es w).
Proof.
  unfold run. revert w; induction es as [|e es IH]; intros w H; simpl; [exact H|].
  apply IH, step_sound, H.
Qed.

Lemma run_exact (es : list event) (w : t) :
  overlay_while_closed es w = true ->
  lock_exact w -> lock_exact (run es w).
Proof.
  unfold run. revert w; induction es as [|e es IH]; intros w Hes H; [exact H|].
  cbn [overlay_while_closed] in Hes. apply andb_true_iff in Hes as [He Hes].
  cbn [fold_left]. apply IH; [exact Hes|]. apply step_exact; assumption.
Qed.

Lemma initial_exact sb mb sc ls : lock_exact (initial sb mb sc ls).
Proof. unfold lock_exact, scroll_locked; cbn. split; discriminate. Qed.

(** Conversely, when the overlay code does write the overflow while the
    menu is open, the menu stays open with body scroll unlocked. *)
Lemma overlay_breaks_when_open (w : t) :
  isMenuOpen w = true ->
  ~ lock_exact (step w InitFails) /\
  (hide_pending w = true -> loadingScreen w <> None ->
   ~ lock_exact (step w LoadingHideResumes)).
Proof.
  intros Ho. split.
  - unfold lock_exact, scroll_locked; cbn. rewrite Ho. intros [_ H].
    specialize (H eq_refl). discriminate H.
  - intros Hp Hl. cbn [step]. rewrite Hp. unfold hide.
    destruct (loadingScreen w); [|congruence].
    unfold lock_exact, scroll_locked; cbn. rewrite Ho. intros [_ H].
    specialize (H eq_refl). discriminate H.
Qed.

End NavigationFacts.

(** C6 as stated fails: the menu is opened while the loading overlay is
    still waiting for its minimum time; when [LoadingManager.hide]
    resumes it sets the body overflow to ['auto'] and the menu stays
    open. *)
Lemma menu_open_but_scroll_unlocked :
  let w := Education.Navigation.run
             [Education.Navigation.Click Education.Navigation.OnMenuButton;
              Education.Navigation.LoadingHideResumes] full_page in
  Education.Navigation.isMenuOpen w = true /\
  Education.Navigation.body_overflow w = "auto" /\
  ~ (Education.Navigation.scroll_locked w = true <->
     Education.Navigation.isMenuOpen w = true).
Proof.
  cbn. repeat split. intros [_ H]. specialize (H eq_refl). discriminate.
Qed.

(** C6, amended: from the initial page, whatever elements exist and
    whatever events arrive (clicks anywhere, Escape, close timers, the
    loading overlay being hidden, a failed init), a locked body scroll
    implies an open menu; and body scroll is locked if and only if the
    menu is open at the end of every run in which [LoadingManager.hide]
    and [handleInitError] execute only while the menu is closed. *)
Theorem scroll_lock_implies_menu_open
        (sb : option Education.Navigation.Sidebar)
        (mb : option Education.Navigation.MenuButton)
        (sc : bool)
        (ls : option Education.Navigation.LoadingScreen)
        (es : list Education.Navigation.event) :
  let w := Education.Navigation.run es (Education.Navigation.initial sb mb sc ls) in
  (Education.Navigation.scroll_locked w = true ->
   Education.Navigation.isMenuOpen w = true) /\
  (overlay_while_closed es (Education.Navigation.initial sb mb sc ls) = true ->
   (Education.Navigation.scroll_locked w = true <->
    Education.Navigation.isMenuOpen w = true)).
Proof.
  intros w; subst w. split.
  - apply run_sound, exact_sound, initial_exact.
  - intros Hes. apply run_exact; [exact Hes | apply initial_exact].
Qed.

Lemma scroll_lock_implies_menu_open_witness :
  let w := Education.Navigation.run
             [Education.Navigation.Click Education.Navigation.OnMenuButton;
              Education.Navigation.Click Education.Navigation.Elsewhere;
              Education.Navigation.LoadingHideResumes;
              Education.Navigation.Click Education.Navigation.OnMenuButton;
              Education.Navigation.Click Education.Navigation.OnSocialLink]
             full_page in
  Education.Navigation.isMenuOpen w = true /\
  (Education.Navigation.scroll_locked w = true <->
   Education.Navigation.isMenuOpen w = true).
Proof.
  split; [reflexivity|].
  apply (proj2 (scroll_lock_implies_menu_open
                  (Some {| Education.Navigation.active := false;
                           Education.Navigation.aria_modal := None |})
                  (Some {| Education.Navigation.transform := "";
                           Education.Navigation.aria_expanded := None |})
                  true
                  (Some {| Education.Navigation.hidden := false;
                           Education.Navigation.display_none := false |})
                  [Education.Navigation.Click Education.Navigation.OnMenuButton;
                   Education.Navigation.Click Education.Navigation.Elsewhere;
                   Education.Navigation.LoadingHideResumes;
                   Education.Navigation.Click Education.Navigation.OnMenuButton;
                   Education.Navigation.Click Education.Navigation.OnSocialLink])).
  reflexivity.
Defined.

(** ** Teardown *)

Section TeardownFacts.
Import ParticlePage.

(** A stopped particle system ignores frame callbacks. *)
Lemma Education_idle_ticks (due : list nat) (w : t) :
  isActive w = false ->
  fold_left (fun w' _ => Education.ParticleSystem.animate w') due w = w.
Proof.
  intros H. induction due as [|d due IH]; simpl; [reflexivity|].
  unfold Education.ParticleSystem.animate at 2. rewrite H. exact IH.
Qed.

Lemma Educatum_idle_ticks (due : list nat) (w : t) :
  isActive w = false ->
  fold_left (fun w' _ => Educatum.ParticleSystem.animate w') due w = w.
Proof.
  intros H. induction due as [|d due IH]; simpl; [reflexivity|].
  unfold Educatum.ParticleSystem.animate at 2. rewrite H. exact IH.
Qed.

Lemma Education_destroy_stops (w : t) :
  isActive (Education.ParticleSystem.destroy w) = false /\
  particles (Education.ParticleSystem.destroy w) = [].
Proof.
  unfold Education.ParticleSystem.destroy. cbn [set_isActive animationFrameId].
  destruct (animationFrameId w) as [[|id]|]; split; reflexivity.
Qed.

(** [init] calls [animate] before it sets [isActive], so the constructor
    leaves the particles in place with no frame requested; the loop
    starts with the first [resumeAnimations]. *)
Lemma new_requests_no_frame (w : t) :
  frames (Education.ParticleSystem.new w) = frames w /\
  frames (Educatum.ParticleSystem.new w) = frames w.
Proof.
  unfold Education.ParticleSystem.new, Educatum.ParticleSystem.new,
    Education.ParticleSystem.init, Educatum.ParticleSystem.init,
    Education.ParticleSystem.animate, Educatum.ParticleSystem.animate.
  cbn [container set_animationFrameId set_isActive set_particles innerWidth
       prefers_reduced_motion].
  destruct (container w); [|split; reflexivity].
  destruct ((768 <? innerWidth w)%Z && negb (prefers_reduced_motion w));
    [|split; reflexivity].
  unfold createParticles.
  split.
  - destruct (createParticles_loop_state
                (Z.to_nat (particleCount
                   (set_animationFrameId None (set_isActive false (set_particles [] w)))))
                (set_animationFrameId None (set_isActive false (set_particles [] w))))
      as (_ & _ & _ & _ & _ & Ha & _ & Hf & _).
    cbn [isActive set_animationFrameId set_isActive] in Ha. rewrite Ha.
    cbn [negb set_isActive frames]. rewrite Hf. reflexivity.
  - destruct (createParticles_loop_state
                (Z.to_nat (particleCount (set_isActive false (set_particles [] w))))
                (set_isActive false (set_particles [] w)))
      as (_ & _ & _ & _ & _ & Ha & _ & Hf & _).
    cbn [isActive set_isActive] in Ha. rewrite Ha.
    cbn [negb set_isActive frames]. rewrite Hf. reflexivity.
Qed.

(** ParticleSystem, Education script: after two calls of [destroy] the
    container holds no particle, and frame ticks neither change that
    nor leave a callback pending. *)
Lemma Education_particles_destroy_twice (w : t) (n : nat) :
  let w' := Education.ParticleSystem.destroy (Education.ParticleSystem.destroy w) in
  rendered (Nat.iter n Education.ParticleSystem.frame_tick w') = [] /\
  Raf.pending (frames (Nat.iter (S n) Education.ParticleSystem.frame_tick w')) = [].
Proof.
  intros w'.
  assert (Hstop : isActive w' = false /\ particles w' = [])
    by apply Education_destroy_stops.
  clearbody w'. revert Hstop.
  assert (Htick : forall v, isActive v = false /\ particles v = [] ->
                  let v' := Education.ParticleSystem.frame_tick v in
                  (isActive v' = false /\ particles v' = []) /\
                  Raf.pending (frames v') = []).
  { intros v [Ha Hp]. unfold Education.ParticleSystem.frame_tick. cbn [Raf.take].
    rewrite Education_idle_ticks by exact Ha. cbn. auto. }
  intros Hstop.
  assert (Hn : isActive (Nat.iter n Education.ParticleSystem.frame_tick w') = false /\
               particles (Nat.iter n Education.ParticleSystem.frame_tick w') = []).
  { induction n as [|n IH]; [exact Hstop|]. cbn [Nat.iter]. apply Htick, IH. }
  split.
  - unfold rendered. rewrite (proj2 Hn). reflexivity.
  - cbn [Nat.iter]. apply Htick, Hn.
Qed.

Lemma Educatum_particles_destroy_twice (w : t) (n : nat) :
  let w' := Educatum.ParticleSystem.destroy (Educatum.ParticleSystem.destroy w) in
  rendered (Nat.iter n Educatum.ParticleSystem.frame_tick w') = [] /\
  Raf.pending (frames (Nat.iter (S n) Educatum.ParticleSystem.frame_tick w')) = [].
Proof.
  intros w'.
  assert (Hstop : isActive w' = false /\ particles w' = []) by (split; reflexivity).
  clearbody w'. revert Hstop.
  assert (Htick : forall v, isActive v = false /\ particles v = [] ->
                  let v' := Educatum.ParticleSystem.frame_tick v in
                  (isActive v' = false /\ particles v' = []) /\
                  Raf.pending (frames v') = []).
  { intros v [Ha Hp]. unfold Educatum.ParticleSystem.frame_tick. cbn [Raf.take].
    rewrite Educatum_idle_ticks by exact Ha. cbn. auto. }
  intros Hstop.
  assert (Hn : isActive (Nat.iter n Educatum.ParticleSystem.frame_tick w') = false /\
               particles (Nat.iter n Educatum.ParticleSystem.frame_tick w') = []).
  { induction n as [|n IH]; [exact Hstop|]. cbn [Nat.iter]. apply Htick, IH. }
  split.
  - unfold rendered. rewrite (proj2 Hn). reflexivity.
  - cbn [Nat.iter]. apply Htick, Hn.
Qed.

(** ScrollAnimationManager: [destroy] disconnects the observer; a
    second call finds nothing more to do.  The component never asks for
    an animation frame. *)
Lemma scroll_destroy_twice (w : ScrollAnimationManager.t) :
  ScrollAnimationManager.destroy (ScrollAnimationManager.destroy w)
    = ScrollAnimationManager.destroy w.
Proof.
  unfold ScrollAnimationManager.destroy.
  destruct (ScrollAnimationManager.observer w) eqn:E; cbn; [reflexivity|].
  rewrite E. reflexivity.
Qed.

End TeardownFacts.

(** CustomCursor, Education script: [destroy] called before any frame has
    run does cancel the loop. *)
Lemma cursor_destroy_before_first_frame :
  Raf.pending
    (CursorPage.frames
       (Education.CustomCursor.destroy (Education.CustomCursor.new cursor_page))) = [].
Proof. reflexivity. Qed.

(** C5 fails for the custom cursor.  In the Education script [init]
    copies the handle of the first requested frame to
    [this.animationFrameId] and never updates it; once that frame has
    run, [destroy] cancels a handle that is no longer pending: after two
    calls a callback is still queued, and the next frame tick moves the
    cursor element again.  In the Educatum script the class has no
    [destroy] at all, so the call itself throws. *)
Theorem cursor_loop_survives_destroy :
  let w := Education.CustomCursor.destroy
             (Education.CustomCursor.destroy cursor_after_one_frame) in
  CursorPage.animationFrameId w = Some 1 /\
  Raf.pending (CursorPage.frames w) = [2] /\
  (exists a b,
      CursorPage.cursor w = Some (Some (a, b)) /\
      (a == -72 # 10)%Q /\ (b == -136 # 10)%Q) /\
  (exists a b,
      CursorPage.cursor (Education.CustomCursor.frame_tick w) = Some (Some (a, b)) /\
      (a == 432 # 100)%Q /\ (b == -784 # 100)%Q) /\
  Raf.pending (CursorPage.frames (Education.CustomCursor.frame_tick w)) = [3] /\
  throws (Educatum.CustomCursor.call_destroy
            (Educatum.CustomCursor.new cursor_page)) = true.
Proof.
  cbv zeta. repeat split.
  - eexists _, _. split; [vm_compute; reflexivity|]. split; reflexivity.
  - eexists _, _. split; [vm_compute; reflexivity|]. split; reflexivity.
Qed.

(* ================================================================== *)
(** * Further properties of the scripts *)
(* ================================================================== *)

(** ** Theme: fallback, persistence, precedence *)

(** X1: with nothing usable in storage (no entry, an empty entry, or, in
    the Education script, a failed probe) [getInitialTheme] follows the
    system: "dark" exactly when the dark-scheme query matches.  Without
    [window.matchMedia] the Education script answers "light"; the
    Educatum script throws a TypeError. *)
Theorem system_preference_fallback (available : bool) (w : ThemePage.t) :
  (available = false \/
   Storage.getItem (ThemePage.localStorage w) Education.STORAGE_KEYS_THEME = inr None \/
   Storage.getItem (ThemePage.localStorage w) Education.STORAGE_KEYS_THEME = inr (Some "") ->
   Education.ThemeManager.getInitialTheme available w
     = Returns (match ThemePage.prefers_dark w with
                | Some true => "dark"
                | _ => "light"
                end) w) /\
  (Storage.getItem (ThemePage.localStorage w) Educatum.STORAGE_KEYS_THEME = inr None \/
   Storage.getItem (ThemePage.localStorage w) Educatum.STORAGE_KEYS_THEME = inr (Some "") ->
   Educatum.ThemeManager.getInitialTheme w
     = match ThemePage.prefers_dark w with
       | Some b => Returns (if b then "dark" else "light") w
       | None => Throws TypeError w
       end).
Proof.
  split.
  - unfold Education.ThemeManager.getInitialTheme, bind, gets, ret,
      ThemePage.storage_getItem.
    intros [-> | [H | H]]; [reflexivity | |];
      destruct available; try reflexivity; rewrite H; reflexivity.
  - unfold Educatum.ThemeManager.getInitialTheme, bind, ret,
      ThemePage.storage_getItem, Educatum.ThemeManager.system_prefers_dark.
    intros [H | H]; rewrite H; cbn; destruct (ThemePage.prefers_dark w); reflexivity.
Qed.

Lemma system_preference_fallback_witness :
  Education.ThemeManager.getInitialTheme true (ThemeEvents.fresh_page (Some true))
    = Returns "dark" (ThemeEvents.fresh_page (Some true)) /\
  Educatum.ThemeManager.getInitialTheme (ThemeEvents.fresh_page (Some true))
    = Returns "dark" (ThemeEvents.fresh_page (Some true)).
Proof.
  destruct (system_preference_fallback true (ThemeEvents.fresh_page (Some true)))
    as [H1 H2].
  split; [apply H1; right; left | apply H2; left]; reflexivity.
Defined.

Section ThemeMoreFacts.
Import ThemePage ThemeEvents.

Lemma Education_applyTheme_shape (theme : string) (w : t) :
  exists w', Education.ThemeManager.applyTheme theme w = Returns tt w' /\
             theme_consistent w' /\ currentTheme w' = theme /\
             localStorage w' = localStorage w /\
             prefers_dark w' = prefers_dark w /\
             (themeToggle w = None <-> themeToggle w' = None).
Proof.
  unfold Education.ThemeManager.applyTheme, try_catch, bind, modify, theme_consistent.
  destruct (themeToggle w) as [[[ic|] ap]|] eqn:E; cbn; rewrite ?E; cbn;
    eexists; (split; [reflexivity|]); cbn; rewrite ?E; cbn;
    repeat split; auto; discriminate.
Qed.

Lemma consistent_set_localStorage (st : Storage.t) (w : t) :
  theme_consistent w -> theme_consistent (set_localStorage st w).
Proof. intros H; exact H. Qed.

Lemma consistent_logError (w : t) : theme_consistent w -> theme_consistent (logError w).
Proof. intros H; exact H. Qed.

Lemma Education_toggleTheme_shape (available : bool) (w : t) :
  let w' := final_state (Education.ThemeManager.toggleTheme available w) in
  theme_consistent w' /\ currentTheme w' = flipped (currentTheme w) /\
  prefers_dark w' = prefers_dark w /\
  (themeToggle w = None <-> themeToggle w' = None).
Proof.
  destruct w as [[m gf sf rf] pd dt [[[ic|] ap]|] bt tt cur ce];
    destruct available, sf; unfold theme_consistent, flipped; cbn;
    destruct (String.eqb cur "light"); cbn; intuition congruence.
Qed.

End ThemeMoreFacts.

(** Storage round trip: what [setItem] wrote, [getItem] reads back. *)
Lemma getItem_after_setItem (st st' : Storage.t) (k v : string) :
  Storage.setItem st k v = inr st' ->
  Storage.get_fails st = false ->
  Storage.getItem st' k = inr (Some v).
Proof.
  unfold Storage.setItem, Storage.getItem.
  destruct (Storage.set_fails st); [discriminate|].
  intros [= <-] Hg. cbn [Storage.get_fails Storage.items]. rewrite Hg.
  f_equal. apply lookup_insert_eq.
Qed.

Lemma Education_toggle_stored (w : ThemePage.t) :
  Storage.set_fails (ThemePage.localStorage w) = false ->
  Storage.get_fails (ThemePage.localStorage w) = false ->
  let shown := ThemeEvents.flipped (ThemePage.currentTheme w) in
  exists w',
    Education.ThemeManager.toggleTheme true w = Returns tt w' /\
    ThemePage.data_theme w' = Some shown /\
    Storage.getItem (ThemePage.localStorage w') Education.STORAGE_KEYS_THEME
      = inr (Some shown).
Proof.
  intros Hset Hget shown.
  destruct (Education_applyTheme_shape shown w)
    as (w1 & Happ & [Hd _] & Hcur & Hst & _).
  destruct (Storage.setItem (ThemePage.localStorage w1)
                            Education.STORAGE_KEYS_THEME shown) as [e|st'] eqn:Eset.
  { unfold Storage.setItem in Eset. rewrite Hst, Hset in Eset. discriminate. }
  assert (Hread : Storage.getItem st' Education.STORAGE_KEYS_THEME = inr (Some shown)).
  { apply (getItem_after_setItem _ _ _ _ Eset). rewrite Hst. exact Hget. }
  exists (ThemePage.set_localStorage st' w1).
  split.
  - unfold Education.ThemeManager.toggleTheme, try_catch, bind, gets.
    fold (ThemeEvents.flipped (ThemePage.currentTheme w)). fold shown.
    rewrite Happ. unfold ThemePage.storage_setItem. rewrite Eset. reflexivity.
  - cbn [ThemePage.set_localStorage ThemePage.data_theme ThemePage.localStorage].
    split; [rewrite Hd, Hcur; reflexivity | exact Hread].
Qed.

Lemma flipped_nonempty (theme : string) : ThemeEvents.flipped theme <> "".
Proof. unfold ThemeEvents.flipped. destruct (String.eqb theme "light"); discriminate. Qed.

(** X2: in the Education script, when storage works, a toggle is
    remembered: [toggleTheme] switches to "dark" from "light" and to
    "light" from anything else, shows it in the root attribute, stores it,
    and a later [getInitialTheme] returns exactly the theme now shown,
    whatever the system prefers. *)
Theorem toggle_is_remembered (w : ThemePage.t) :
  Storage.set_fails (ThemePage.localStorage w) = false ->
  Storage.get_fails (ThemePage.localStorage w) = false ->
  let shown := ThemeEvents.flipped (ThemePage.currentTheme w) in
  exists w',
    Education.ThemeManager.toggleTheme true w = Returns tt w' /\
    ThemePage.data_theme w' = Some shown /\
    Storage.getItem (ThemePage.localStorage w') Education.STORAGE_KEYS_THEME
      = inr (Some shown) /\
    Education.ThemeManager.getInitialTheme true w' = Returns shown w'.
Proof.
  intros Hset Hget shown.
  destruct (Education_toggle_stored w Hset Hget) as (w' & Htog & Hd & Hread).
  exists w'. repeat split; try assumption.
  unfold Education.ThemeManager.getInitialTheme, bind, ThemePage.storage_getItem.
  rewrite Hread.
  pose proof (truthy_nonempty _ (flipped_nonempty (ThemePage.currentTheme w))) as Ht.
  cbv beta iota. rewrite Ht. reflexivity.
Qed.

Lemma toggle_is_remembered_witness :
  exists w',
    Education.ThemeManager.toggleTheme true (ThemeEvents.fresh_page (Some false))
      = Returns tt w' /\
    ThemePage.data_theme w' = Some "light" /\
    Storage.getItem (ThemePage.localStorage w') Education.STORAGE_KEYS_THEME
      = inr (Some "light") /\
    Education.ThemeManager.getInitialTheme true w' = Returns "light" w'.
Proof.
  apply (toggle_is_remembered (ThemeEvents.fresh_page (Some false))); reflexivity.
Defined.

(** X3: in the Educatum script, when the toggle button has no icon
    element, [toggleTheme] throws a TypeError after it has switched the
    root attribute and before it reaches the storage: the page shows the
    new theme, the stored preference is unchanged. *)
Theorem Educatum_toggle_without_icon (w : ThemePage.t) (b : ThemePage.ToggleButton) :
  ThemePage.themeToggle w = Some b ->
  ThemePage.icon b = None ->
  exists w',
    Educatum.ThemeManager.toggleTheme w = Throws TypeError w' /\
    ThemePage.data_theme w' = Some (ThemeEvents.flipped (ThemePage.currentTheme w)) /\
    ThemePage.currentTheme w' = ThemeEvents.flipped (ThemePage.currentTheme w) /\
    ThemePage.localStorage w' = ThemePage.localStorage w.
Proof.
  intros Ht Hi.
  unfold Educatum.ThemeManager.toggleTheme, Educatum.ThemeManager.applyTheme,
    bind, gets, modify, ThemeEvents.flipped.
  cbn. rewrite Ht, Hi. eexists. split; [reflexivity|]. cbn. auto.
Qed.

Lemma Educatum_toggle_without_icon_witness :
  exists w',
    Educatum.ThemeManager.toggleTheme
      (ThemePage.set_themeToggle
         (Some {| ThemePage.icon := None; ThemePage.aria_pressed := None |})
         (page_with_stored "light" false))
      = Throws TypeError w' /\
    ThemePage.data_theme w' = Some "light" /\
    ThemePage.currentTheme w' = "light" /\
    ThemePage.localStorage w' = ThemePage.localStorage (page_with_stored "light" false).
Proof.
  apply (Educatum_toggle_without_icon
           (ThemePage.set_themeToggle
              (Some {| ThemePage.icon := None; ThemePage.aria_pressed := None |})
              (page_with_stored "light" false))
           {| ThemePage.icon := None; ThemePage.aria_pressed := None |});
    reflexivity.
Defined.

(** X4: the system colour-scheme listener of the Education script.  When
    nothing usable is stored (probe failed, no entry, or an empty entry)
    the listener applies the system's scheme; once a toggle has been
    stored (storage working) the listener leaves the page exactly as it
    is. *)
Theorem system_change_precedence (available : bool) (w : ThemePage.t) (matches : bool) :
  (available = false \/
   Storage.getItem (ThemePage.localStorage w) Education.STORAGE_KEYS_THEME = inr None \/
   Storage.getItem (ThemePage.localStorage w) Education.STORAGE_KEYS_THEME = inr (Some "") ->
   exists w',
     Education.ThemeManager.on_system_change available matches w = Returns tt w' /\
     ThemePage.data_theme w' = Some (if matches then "dark" else "light")) /\
  (Storage.set_fails (ThemePage.localStorage w) = false ->
   Storage.get_fails (ThemePage.localStorage w) = false ->
   exists w1,
     Education.ThemeManager.toggleTheme true w = Returns tt w1 /\
     Education.ThemeManager.on_system_change true matches
       (ThemeEvents.set_prefers_dark matches w1)
     = Returns tt (ThemeEvents.set_prefers_dark matches w1)).
Proof.
  split.
  - intros Hno.
    destruct (Education_applyTheme_shape (if matches then "dark" else "light") w)
      as (w1 & Happ & [Hd _] & Hcur & _).
    exists w1. split; [|rewrite Hd, Hcur; reflexivity].
    unfold Education.ThemeManager.on_system_change, bind, ret, ThemePage.storage_getItem.
    destruct Hno as [-> | [H | H]]; [exact Happ | |];
      destruct available; try exact Happ; rewrite H; exact Happ.
  - intros Hset Hget.
    destruct (Education_toggle_stored w Hset Hget) as (w1 & Htog & _ & Hread).
    exists w1. split; [exact Htog|].
    unfold Education.ThemeManager.on_system_change, bind, ret, ThemePage.storage_getItem.
    change (ThemePage.localStorage (ThemeEvents.set_prefers_dark matches w1))
      with (ThemePage.localStorage w1).
    rewrite Hread.
    assert (Ht : truthy (Some (ThemeEvents.flipped (ThemePage.currentTheme w))) = true).
    { unfold ThemeEvents.flipped.
      destruct (String.eqb (ThemePage.currentTheme w) "light"); reflexivity. }
    rewrite Ht. reflexivity.
Qed.

Lemma system_change_precedence_witness :
  (exists w',
     Education.ThemeManager.on_system_change true true (ThemeEvents.fresh_page (Some true))
       = Returns tt w' /\
     ThemePage.data_theme w' = Some "dark") /\
  (exists w1,
     Education.ThemeManager.toggleTheme true (ThemeEvents.fresh_page (Some true))
       = Returns tt w1 /\
     Education.ThemeManager.on_system_change true true
       (ThemeEvents.set_prefers_dark true w1)
     = Returns tt (ThemeEvents.set_prefers_dark true w1)).
Proof.
  destruct (system_change_precedence true (ThemeEvents.fresh_page (Some true)) true)
    as [H1 H2].
  split; [apply H1; right; left; reflexivity | apply H2; reflexivity].
Defined.

Section ThemeInvariant.
Import ThemePage ThemeEvents.

Lemma Education_on_system_change_consistent (available matches : bool) (w : t) :
  theme_consistent w ->
  theme_consistent
    (final_state (Education.ThemeManager.on_system_change available matches w)).
Proof.
  intros H.
  destruct (Education_applyTheme_shape (if matches then "dark" else "light") w)
    as (w1 & Happ & Hc & _).
  unfold Education.ThemeManager.on_system_change, bind, ret, storage_getItem.
  destruct available; cbn [negb orb].
  - destruct (Storage.getItem (localStorage w) Education.STORAGE_KEYS_THEME) as [e|v];
      [exact H|].
    destruct (truthy v); cbn [negb]; [exact H | rewrite Happ; exact Hc].
  - rewrite Happ. exact Hc.
Qed.

Lemma Education_step_consistent (available : bool) (w : t) (e : event) :
  theme_consistent w -> theme_consistent (Education_step available w e).
Proof.
  intros H. destruct e as [|m]; cbn [Education_step].
  - destruct (themeToggle w); [|exact H].
    apply (Education_toggleTheme_shape available w).
  - apply Education_on_system_change_consistent. exact H.
Qed.

End ThemeInvariant.

(** X5: in the Education script, once the ThemeManager constructor has
    returned, the page stays coherent under any sequence of toggle clicks
    and system scheme changes, whatever the storage does: the root
    data-theme attribute is the manager's current theme, the button's
    aria-pressed is "true" exactly for "dark", and its icon, if it has
    one, is the sun for "dark" and the moon otherwise. *)
Theorem theme_stays_consistent
        (available : bool) (w w0 : ThemePage.t) (es : list ThemeEvents.event) :
  Education.ThemeManager.new available w = Returns tt w0 ->
  ThemeEvents.theme_consistent (ThemeEvents.Education_run available es w0).
Proof.
  intros Hnew.
  assert (H0 : ThemeEvents.theme_consistent w0).
  { revert Hnew.
    unfold Education.ThemeManager.new, Education.ThemeManager.init, bind at 1.
    destruct (Education.ThemeManager.getInitialTheme available w) as [theme w1|e w1];
      [|discriminate].
    unfold bind, modify, gets, try_catch.
    cbn [ThemePage.currentTheme ThemePage.set_currentTheme].
    destruct (Education_applyTheme_shape theme (ThemePage.set_currentTheme theme w1))
      as (w2 & -> & Hc & _).
    intros [= <-]. exact Hc. }
  clear Hnew. unfold ThemeEvents.Education_run.
  revert w0 H0. induction es as [|e es IH]; intros w0 H0; simpl; [exact H0|].
  apply IH, Education_step_consistent, H0.
Qed.

Lemma theme_stays_consistent_witness :
  ThemeEvents.theme_consistent
    (ThemeEvents.Education_run true
       [ThemeEvents.ToggleClick; ThemeEvents.SystemChange false; ThemeEvents.ToggleClick]
       (final_state (Education.ThemeManager.new true (ThemeEvents.fresh_page (Some true))))).
Proof.
  apply (theme_stays_consistent true (ThemeEvents.fresh_page (Some true))).
  reflexivity.
Defined.

(** ** Navigation: how the menu operations compose *)

(** X6: [openMenu] and [closeMenu] each overwrite everything the other
    one wrote: closing after opening is the same as closing, opening
    after closing the same as opening, and from any state that a toggle
    produced two more toggles come back to it. *)
Theorem open_close_compose (w : Education.Navigation.t) :
  Education.Navigation.closeMenu (Education.Navigation.openMenu w)
    = Education.Navigation.closeMenu w /\
  Education.Navigation.openMenu (Education.Navigation.closeMenu w)
    = Education.Navigation.openMenu w /\
  Education.Navigation.toggleMenu
    (Education.Navigation.toggleMenu (Education.Navigation.toggleMenu w))
    = Education.Navigation.toggleMenu w.
Proof.
  destruct w as [o l ov [sb|] [mb|] sc ls ct hp mn]; destruct o;
    repeat split; reflexivity.
Qed.

Section SidebarFacts.
Import Education.Navigation.

Lemma closeMenu_in_step (w : t) : minimal w = false -> sidebar_in_step (closeMenu w).
Proof.
  intros H. split; [exact H|]. cbn. destruct (sidebar w); reflexivity.
Qed.

Lemma openMenu_in_step (w : t) : minimal w = false -> sidebar_in_step (openMenu w).
Proof.
  intros H. split; [exact H|]. cbn. destruct (sidebar w); reflexivity.
Qed.

Lemma step_in_step (w : t) (e : event) :
  is_InitFails e = false -> sidebar_in_step w -> sidebar_in_step (step w e).
Proof.
  intros He H0. pose proof (proj1 H0) as Hm.
  destruct e as [tg| | | |]; try discriminate He; cbn [step].
  - assert (Ht : sidebar_in_step (click_target tg w)).
    { destruct tg; cbn [click_target].
      - destruct (menuButton w); [|exact H0].
        assert (H1 : sidebar_in_step (toggleMenu w)).
        { unfold toggleMenu. destruct (isMenuOpen w);
            [apply closeMenu_in_step | apply openMenu_in_step]; exact Hm. }
        rewrite (proj1 H1). exact H1.
      - destruct (sidebarClose w); [|exact H0].
        pose proof (closeMenu_in_step w Hm) as H1. rewrite (proj1 H1). exact H1.
      - destruct (isMenuOpen w); exact H0.
      - destruct (isMenuOpen w); exact H0.
      - exact H0.
      - exact H0. }
    cbv zeta. destruct (stops_propagation tg); [exact Ht|].
    unfold click_document.
    destruct (sidebar (click_target tg w)), (menuButton (click_target tg w));
      try exact Ht.
    destruct (isMenuOpen (click_target tg w) && negb (in_sidebar tg)
              && negb (in_menuButton tg)); [|exact Ht].
    apply closeMenu_in_step, Ht.
  - assert (H1 : sidebar_in_step (if isMenuOpen w then closeMenu w else w)).
    { destruct (isMenuOpen w); [apply closeMenu_in_step, Hm | exact H0]. }
    assert (H2 : isMenuOpen (if isMenuOpen w then closeMenu w else w) = false).
    { destruct (isMenuOpen w) eqn:E; [reflexivity | exact E]. }
    revert H1 H2. generalize (if isMenuOpen w then closeMenu w else w).
    intros v [Hv1 Hv2] Hv3. unfold sidebar_class, sidebar_in_step.
    destruct (sidebar v) as [sb|] eqn:Es; cbn; rewrite ?Es; auto.
  - destruct (close_timers w); [exact H0|].
    apply closeMenu_in_step. exact Hm.
  - destruct (hide_pending w); [|exact H0].
    unfold hide. destruct (loadingScreen w); exact H0.
Qed.

End SidebarFacts.

(** X7: on a page whose sidebar starts without the class 'active', and as
    long as the degraded start-up path has not run, the sidebar carries
    'active' exactly when the menu flag is set, after any sequence of
    clicks, Escape keys, close timers and the loading overlay going
    away. *)
Theorem sidebar_follows_menu_flag
        (sb : option Education.Navigation.Sidebar)
        (mb : option Education.Navigation.MenuButton)
        (sc : bool)
        (ls : option Education.Navigation.LoadingScreen)
        (es : list Education.Navigation.event) :
  match sb with Some s => Education.Navigation.active s = false | None => True end ->
  forallb (fun e => negb (is_InitFails e)) es = true ->
  sidebar_in_step
    (Education.Navigation.run es (Education.Navigation.initial sb mb sc ls)).
Proof.
  intros Hsb Hes.
  assert (H0 : sidebar_in_step (Education.Navigation.initial sb mb sc ls)).
  { split; [reflexivity|]. cbn. destruct sb; [exact Hsb | exact I]. }
  clear Hsb. unfold Education.Navigation.run.
  revert H0. generalize (Education.Navigation.initial sb mb sc ls).
  induction es as [|e es IH]; intros w H0; simpl; [exact H0|].
  simpl in Hes. apply andb_true_iff in Hes as [He Hes].
  apply IH; [exact Hes|]. apply step_in_step; [|exact H0].
  apply negb_true_iff, He.
Qed.

Lemma sidebar_follows_menu_flag_witness :
  sidebar_in_step
    (Education.Navigation.run
       [Education.Navigation.Click Education.Navigation.OnMenuButton;
        Education.Navigation.LoadingHideResumes;
        Education.Navigation.Click Education.Navigation.OnSidebarLink;
        Education.Navigation.KeyEscape;
        Education.Navigation.CloseTimerFires]
       full_page).
Proof.
  apply (sidebar_follows_menu_flag
           (Some {| Education.Navigation.active := false;
                    Education.Navigation.aria_modal := None |})
           (Some {| Education.Navigation.transform := "";
                    Education.Navigation.aria_expanded := None |})
           true
           (Some {| Education.Navigation.hidden := false;
                    Education.Navigation.display_none := false |})).
  - reflexivity.
  - reflexivity.
Defined.

(** X8: what closes the menu.  Escape always leaves the flag cleared and
    the sidebar without 'active'; so does a click on the close control
    when it exists; a click outside the sidebar and the menu button that
    bubbles to the document clears the flag when both elements exist,
    and is ignored altogether when either is missing, even with the
    menu open.  A click on a teacher card's social link never reaches
    the document (its listener stops the propagation): it leaves the
    menu as it is, open or closed. *)
Theorem closing_gestures (w : Education.Navigation.t) :
  (Education.Navigation.isMenuOpen
     (Education.Navigation.step w Education.Navigation.KeyEscape) = false /\
   match Education.Navigation.sidebar
           (Education.Navigation.step w Education.Navigation.KeyEscape) with
   | Some s => Education.Navigation.active s = false
   | None => True
   end) /\
  (Education.Navigation.sidebarClose w = true ->
   Education.Navigation.isMenuOpen
     (Education.Navigation.step w
        (Education.Navigation.Click Education.Navigation.OnSidebarClose)) = false) /\
  (Education.Navigation.sidebar w <> None ->
   Education.Navigation.menuButton w <> None ->
   Education.Navigation.isMenuOpen
     (Education.Navigation.step w
        (Education.Navigation.Click Education.Navigation.Elsewhere)) = false) /\
  (Education.Navigation.sidebar w = None \/ Education.Navigation.menuButton w = None ->
   Education.Navigation.step w
     (Education.Navigation.Click Education.Navigation.Elsewhere) = w) /\
  Education.Navigation.step w
    (Education.Navigation.Click Education.Navigation.OnSocialLink) = w.
Proof.
  destruct w as [o l ov [sb|] [mb|] sc ls ct hp mn]; destruct o, mn;
    cbn; repeat split; try congruence; try (intros ->; reflexivity);
    intros [H | H]; congruence.
Qed.

(** ** Particles: shape, speed, loops *)

Section ParticleInvariant.
Import ParticlePage.

Variable P : Particle -> Prop.
Hypothesis P_created :
  forall w, oracle_ok w -> Forall P (particles w) -> Forall P (particles (createParticle w)).
Hypothesis P_advance : forall p, P p -> P (advance p).

Local Abbreviation keeps := (particles_all P).

Lemma keeps_createParticles (w : t) : keeps w -> keeps (createParticles w).
Proof.
  unfold createParticles. generalize (Z.to_nat (particleCount w)).
  intros n; revert w; induction n as [|n IH]; intros w H; [exact H|].
  rewrite createParticles_loop_S.
  apply IH. split; [|apply P_created; apply H].
  intros k. rewrite random_createParticle. apply (proj1 H).
Qed.

Lemma keeps_map_advance (w : t) : keeps w -> Forall P (map advance (particles w)).
Proof.
  intros [_ Hp]. apply List.Forall_map. eapply List.Forall_impl; [|exact Hp].
  exact P_advance.
Qed.

Lemma keeps_Education_animate (w : t) : keeps w -> keeps (Education.ParticleSystem.animate w).
Proof.
  intros H. unfold Education.ParticleSystem.animate.
  destruct (isActive w); [|exact H].
  split; [exact (proj1 H) | exact (keeps_map_advance _ H)].
Qed.

Lemma keeps_Educatum_animate (w : t) : keeps w -> keeps (Educatum.ParticleSystem.animate w).
Proof.
  intros H. unfold Educatum.ParticleSystem.animate.
  destruct (isActive w); [|exact H].
  split; [exact (proj1 H) | exact (keeps_map_advance _ H)].
Qed.

Lemma keeps_Education_new (w : t) : oracle_ok w -> keeps (Education.ParticleSystem.new w).
Proof.
  intros H. unfold Education.ParticleSystem.new, Education.ParticleSystem.init.
  cbn [container innerWidth prefers_reduced_motion set_animationFrameId
       set_isActive set_particles].
  assert (H0 : keeps (set_animationFrameId None (set_isActive false (set_particles [] w))))
    by (split; [exact H | constructor]).
  destruct (container w); [|exact H0].
  destruct ((768 <? innerWidth w)%Z && negb (prefers_reduced_motion w)); [|exact H0].
  pose proof (keeps_Education_animate _ (keeps_createParticles _ H0)) as [Ha Hb].
  split; [exact Ha | exact Hb].
Qed.

Lemma keeps_Educatum_new (w : t) : oracle_ok w -> keeps (Educatum.ParticleSystem.new w).
Proof.
  intros H. unfold Educatum.ParticleSystem.new, Educatum.ParticleSystem.init.
  cbn [container innerWidth prefers_reduced_motion set_isActive set_particles].
  assert (H0 : keeps (set_isActive false (set_particles [] w)))
    by (split; [exact H | constructor]).
  destruct (container w); [|exact H0].
  destruct ((768 <? innerWidth w)%Z && negb (prefers_reduced_motion w)); [|exact H0].
  pose proof (keeps_Educatum_animate _ (keeps_createParticles _ H0)) as [Ha Hb].
  split; [exact Ha | exact Hb].
Qed.

Lemma keeps_Education_destroy (w : t) : keeps w -> keeps (Education.ParticleSystem.destroy w).
Proof.
  intros [H _]. unfold Education.ParticleSystem.destroy.
  cbn [set_isActive animationFrameId].
  destruct (animationFrameId w) as [[|id]|]; cbn [Raf.truthy_id];
    (split; [exact H | constructor]).
Qed.

Lemma keeps_Education_step (w : t) (e : event) :
  keeps w -> keeps (Education.ParticleSystem.step w e).
Proof.
  intros H. destruct e; cbn [Education.ParticleSystem.step].
  - unfold Education.ParticleSystem.frame_tick. cbn [Raf.take].
    assert (Hs : keeps (set_stale_frames []
       (set_frames {| Raf.next_id := Raf.next_id (frames w); Raf.pending := [] |} w)))
      by (split; [exact (proj1 H) | exact (proj2 H)]).
    revert Hs. generalize (set_stale_frames []
       (set_frames {| Raf.next_id := Raf.next_id (frames w); Raf.pending := [] |} w)).
    induction (Raf.pending (frames w)) as [|d due IH]; intros v Hv; simpl; [exact Hv|].
    apply IH, keeps_Education_animate, Hv.
  - split; [exact (proj1 H) | exact (proj2 H)].
  - apply keeps_Education_animate. split; [exact (proj1 H) | exact (proj2 H)].
  - apply keeps_Education_new. exact (proj1 (keeps_Education_destroy _ H)).
  - apply keeps_Education_destroy, H.
Qed.

Lemma keeps_Educatum_step (w : t) (e : event) :
  keeps w -> keeps (Educatum.ParticleSystem.step w e).
Proof.
  intros H. destruct e; cbn [Educatum.ParticleSystem.step].
  - unfold Educatum.ParticleSystem.frame_tick. cbn [Raf.take].
    assert (Hs : keeps (set_stale_frames []
       (set_frames {| Raf.next_id := Raf.next_id (frames w); Raf.pending := [] |} w)))
      by (split; [exact (proj1 H) | exact (proj2 H)]).
    revert Hs. generalize (set_stale_frames []
       (set_frames {| Raf.next_id := Raf.next_id (frames w); Raf.pending := [] |} w)).
    induction (Raf.pending (frames w)) as [|d due IH]; intros v Hv; simpl; [exact Hv|].
    apply IH, keeps_Educatum_animate, Hv.
  - split; [exact (proj1 H) | exact (proj2 H)].
  - apply keeps_Educatum_animate. split; [exact (proj1 H) | exact (proj2 H)].
  - apply keeps_Educatum_new. exact (proj1 H).
  - split; [exact (proj1 H) | constructor].
Qed.

Lemma kept_along_runs (w0 : t) (es : list event) :
  oracle_ok w0 ->
  Forall P (particles (Education.ParticleSystem.run es (Education.ParticleSystem.new w0))) /\
  Forall P (particles (Educatum.ParticleSystem.run es (Educatum.ParticleSystem.new w0))).
Proof.
  intros Ho. split.
  - pose proof (keeps_Education_new _ Ho) as H0. revert H0.
    unfold Education.ParticleSystem.run.
    generalize (Education.ParticleSystem.new w0).
    induction es as [|e es IH]; intros w H; simpl; [exact (proj2 H)|].
    apply IH, keeps_Education_step, H.
  - pose proof (keeps_Educatum_new _ Ho) as H0. revert H0.
    unfold Educatum.ParticleSystem.run.
    generalize (Educatum.ParticleSystem.new w0).
    induction es as [|e es IH]; intros w H; simpl; [exact (proj2 H)|].
    apply IH, keeps_Educatum_step, H.
Qed.

End ParticleInvariant.

Section ParticleShape.
Import ParticlePage.
Local Open Scope Q_scope.

Lemma createParticle_shape (w : t) :
  oracle_ok w -> Forall particle_shape_ok (particles w) ->
  Forall particle_shape_ok (particles (createParticle w)).
Proof.
  intros Ho Hp.
  destruct (createParticle_spec w)
    as (p & Hps & _ & (_ & _ & Hs & Hd & Hl & _) & (Hsl & Hst & Hss)).
  rewrite Hps. apply List.Forall_app. split; [exact Hp|].
  constructor; [|constructor].
  pose proof (Ho (2 + draws w)%nat) as H2.
  pose proof (Ho (3 + draws w)%nat) as H3.
  pose proof (Ho (4 + draws w)%nat) as H4.
  unfold particle_shape_ok. rewrite Hsl, Hst, Hss, Hl, Hd, Hs.
  revert H2 H3 H4.
  generalize (random w (2 + draws w)%nat), (random w (3 + draws w)%nat),
             (random w (4 + draws w)%nat).
  intros r2 r3 r4 H2 H3 H4.
  repeat split; try lra; nra.
Qed.

Lemma advance_shape (p : Particle) : particle_shape_ok p -> particle_shape_ok (advance p).
Proof.
  unfold particle_shape_ok, advance;
    cbn [size element style_size animation_duration animation_delay
         style_left style_top x y].
  tauto.
Qed.

End ParticleShape.

(** X9: for draws of [Math.random()] in [0,1), in both scripts and after
    any sequence of frames, visibility changes, resizes and unloads,
    every particle has a size from 2 to 6 that is also its element's
    width and height, a float animation lasting 10 to 30 seconds with a
    start offset of at most one cycle, and an element whose left/top are
    the particle's x/y.  All bounds are closed. *)
Theorem particles_keep_their_shape
        (w0 : ParticlePage.t) (es : list event) (p : ParticlePage.Particle) :
  oracle_ok w0 ->
  In p (ParticlePage.particles
          (Education.ParticleSystem.run es (Education.ParticleSystem.new w0))) \/
  In p (ParticlePage.particles
          (Educatum.ParticleSystem.run es (Educatum.ParticleSystem.new w0))) ->
  particle_shape_ok p.
Proof.
  intros Ho Hin.
  destruct (kept_along_runs particle_shape_ok createParticle_shape advance_shape w0 es Ho)
    as [H1 H2].
  rewrite List.Forall_forall in H1, H2.
  destruct Hin as [Hin | Hin]; [apply H1 | apply H2]; exact Hin.
Qed.

Lemma particles_keep_their_shape_witness : particle_shape_ok escaped_particle.
Proof.
  apply (particles_keep_their_shape page_near_one [PageVisible] escaped_particle).
  - intros k. cbn. split; [discriminate | reflexivity].
  - left. vm_compute. left. reflexivity.
Defined.

Section ParticleSpeed.
Import ParticlePage.
Local Open Scope Q_scope.

Lemma Qabs_flip (v : Q) : Qabs (v * (-1)) == Qabs v.
Proof.
  assert (E : v * (-1) == - v) by ring. rewrite E. apply Qabs_opp.
Qed.

Lemma same_speed_refl (p : Particle) : same_speed p p.
Proof. repeat split; reflexivity. Qed.

Lemma same_speed_advance (p q : Particle) : same_speed p q -> same_speed p (advance q).
Proof.
  intros (Hx & Hy & Hs & He). unfold same_speed, advance;
    cbn [vx vy size element style_size].
  repeat split; try assumption.
  - destruct (Qltb (x q + vx q) 0 || Qltb 100 (x q + vx q)); [rewrite Qabs_flip|]; exact Hx.
  - destruct (Qltb (y q + vy q) 0 || Qltb 100 (y q + vy q)); [rewrite Qabs_flip|]; exact Hy.
Qed.

Lemma same_speed_map_advance (l l' : list Particle) :
  List.Forall2 same_speed l l' -> List.Forall2 same_speed l (map advance l').
Proof.
  induction 1 as [|p q l l' Hpq _ IH]; simpl; constructor;
    [apply same_speed_advance; exact Hpq | exact IH].
Qed.

Lemma same_speed_Education_animate (l : list Particle) (w : t) :
  List.Forall2 same_speed l (particles w) ->
  List.Forall2 same_speed l (particles (Education.ParticleSystem.animate w)).
Proof.
  intros H. unfold Education.ParticleSystem.animate.
  destruct (isActive w); [|exact H]. exact (same_speed_map_advance _ _ H).
Qed.

Lemma same_speed_Educatum_animate (l : list Particle) (w : t) :
  List.Forall2 same_speed l (particles w) ->
  List.Forall2 same_speed l (particles (Educatum.ParticleSystem.animate w)).
Proof.
  intros H. unfold Educatum.ParticleSystem.animate.
  destruct (isActive w); [|exact H]. exact (same_speed_map_advance _ _ H).
Qed.

Lemma same_speed_Education_step (l : list Particle) (w : t) (e : event) :
  discards_particles e = false ->
  List.Forall2 same_speed l (particles w) ->
  List.Forall2 same_speed l (particles (Education.ParticleSystem.step w e)).
Proof.
  intros He H. destruct e; try discriminate He; cbn [Education.ParticleSystem.step].
  - unfold Education.ParticleSystem.frame_tick. cbn [Raf.take].
    assert (Hs : List.Forall2 same_speed l
                   (particles (set_stale_frames []
       (set_frames {| Raf.next_id := Raf.next_id (frames w); Raf.pending := [] |} w)))) by exact H.
    revert Hs. generalize (set_stale_frames []
       (set_frames {| Raf.next_id := Raf.next_id (frames w); Raf.pending := [] |} w)).
    induction (Raf.pending (frames w)) as [|d due IH]; intros v Hv; simpl; [exact Hv|].
    apply IH, same_speed_Education_animate, Hv.
  - exact H.
  - apply same_speed_Education_animate. exact H.
Qed.

Lemma same_speed_Educatum_step (l : list Particle) (w : t) (e : event) :
  discards_particles e = false ->
  List.Forall2 same_speed l (particles w) ->
  List.Forall2 same_speed l (particles (Educatum.ParticleSystem.step w e)).
Proof.
  intros He H. destruct e; try discriminate He; cbn [Educatum.ParticleSystem.step].
  - unfold Educatum.ParticleSystem.frame_tick. cbn [Raf.take].
    assert (Hs : List.Forall2 same_speed l
                   (particles (set_stale_frames []
       (set_frames {| Raf.next_id := Raf.next_id (frames w); Raf.pending := [] |} w)))) by exact H.
    revert Hs. generalize (set_stale_frames []
       (set_frames {| Raf.next_id := Raf.next_id (frames w); Raf.pending := [] |} w)).
    induction (Raf.pending (frames w)) as [|d due IH]; intros v Hv; simpl; [exact Hv|].
    apply IH, same_speed_Educatum_animate, Hv.
  - exact H.
  - apply same_speed_Educatum_animate. exact H.
Qed.

Lemma Forall2_same_speed_refl (l : list Particle) : List.Forall2 same_speed l l.
Proof. induction l; constructor; [apply same_speed_refl | assumption]. Qed.

End ParticleSpeed.

(** X10: reflection loses no energy.  Over any sequence of frames and
    visibility changes (no resize, no unload), in both scripts, the
    particle list keeps its length and order, and each particle keeps
    the absolute value of both velocity components and its size. *)
Theorem particles_keep_their_speed (w : ParticlePage.t) (es : list event) :
  forallb (fun e => negb (discards_particles e)) es = true ->
  List.Forall2 same_speed (ParticlePage.particles w)
    (ParticlePage.particles (Education.ParticleSystem.run es w)) /\
  List.Forall2 same_speed (ParticlePage.particles w)
    (ParticlePage.particles (Educatum.ParticleSystem.run es w)).
Proof.
  intros Hes. split.
  - unfold Education.ParticleSystem.run.
    assert (Hgen : forall v,
               List.Forall2 same_speed (ParticlePage.particles w) (ParticlePage.particles v) ->
               List.Forall2 same_speed (ParticlePage.particles w)
                 (ParticlePage.particles (fold_left Education.ParticleSystem.step es v))).
    { induction es as [|e es IH]; intros v Hv; simpl; [exact Hv|].
      simpl in Hes. apply andb_true_iff in Hes as [He Hes].
      apply IH; [exact Hes|]. apply same_speed_Education_step; [|exact Hv].
      apply negb_true_iff, He. }
    apply Hgen, Forall2_same_speed_refl.
  - unfold Educatum.ParticleSystem.run.
    assert (Hgen : forall v,
               List.Forall2 same_speed (ParticlePage.particles w) (ParticlePage.particles v) ->
               List.Forall2 same_speed (ParticlePage.particles w)
                 (ParticlePage.particles (fold_left Educatum.ParticleSystem.step es v))).
    { induction es as [|e es IH]; intros v Hv; simpl; [exact Hv|].
      simpl in Hes. apply andb_true_iff in Hes as [He Hes].
      apply IH; [exact Hes|]. apply same_speed_Educatum_step; [|exact Hv].
      apply negb_true_iff, He. }
    apply Hgen, Forall2_same_speed_refl.
Qed.

Lemma particles_keep_their_speed_witness :
  List.Forall2 same_speed
    (ParticlePage.particles (Education.ParticleSystem.new page_near_one))
    (ParticlePage.particles
       (Education.ParticleSystem.run [PageVisible; FrameTick; PageHidden]
          (Education.ParticleSystem.new page_near_one))) /\
  List.Forall2 same_speed
    (ParticlePage.particles (Education.ParticleSystem.new page_near_one))
    (ParticlePage.particles
       (Educatum.ParticleSystem.run [PageVisible; FrameTick; PageHidden]
          (Education.ParticleSystem.new page_near_one))).
Proof.
  apply (particles_keep_their_speed (Education.ParticleSystem.new page_near_one)
           [PageVisible; FrameTick; PageHidden]).
  reflexivity.
Defined.

(** X11: the constructor creates no particle when the container is
    missing, the viewport is at most 768px wide or reduced motion is
    requested; otherwise it creates between 25 and 50 of them. *)
Theorem particle_count_bounds (w : ParticlePage.t) :
  let n := length (ParticlePage.particles (Education.ParticleSystem.new w)) in
  let n' := length (ParticlePage.particles (Educatum.ParticleSystem.new w)) in
  n' = n /\
  (ParticlePage.container w = false \/ (ParticlePage.innerWidth w <= 768)%Z \/
   ParticlePage.prefers_reduced_motion w = true -> n = 0) /\
  (ParticlePage.container w = true -> (768 < ParticlePage.innerWidth w)%Z ->
   ParticlePage.prefers_reduced_motion w = false -> 25 <= n <= 50).
Proof.
  unfold Education.ParticleSystem.new, Educatum.ParticleSystem.new,
    Education.ParticleSystem.init, Educatum.ParticleSystem.init.
  cbn [ParticlePage.container ParticlePage.set_animationFrameId
       ParticlePage.set_isActive ParticlePage.set_particles
       ParticlePage.innerWidth ParticlePage.prefers_reduced_motion].
  destruct (ParticlePage.container w).
  2:{ cbn. repeat split; auto; discriminate. }
  destruct (Z.ltb_spec 768 (ParticlePage.innerWidth w)) as [Hw | Hw];
    destruct (ParticlePage.prefers_reduced_motion w); cbn [negb andb];
    try (cbn; repeat split; auto; intros; try lia; discriminate).
  cbn [ParticlePage.set_isActive ParticlePage.particles].
  rewrite length_Education_animate, length_Educatum_animate.
  unfold createParticles. rewrite !length_createParticles_loop.
  cbn [ParticlePage.particles ParticlePage.set_particles
       ParticlePage.set_animationFrameId ParticlePage.set_isActive length].
  unfold particleCount.
  cbn [ParticlePage.innerWidth ParticlePage.set_particles
       ParticlePage.set_animationFrameId ParticlePage.set_isActive].
  split; [reflexivity|]. split.
  - intros [H | [H | H]]; [discriminate | lia | discriminate].
  - intros _ _ _.
    assert (25 <= ParticlePage.innerWidth w / 30)%Z
      by (apply Z.div_le_lower_bound; lia).
    lia.
Qed.

Section ParticleLoops.
Import ParticlePage.

Lemma Education_no_frame_ticks (n : nat) (v : t) :
  Raf.pending (frames v) = [] ->
  rendered (Education.ParticleSystem.run (repeat FrameTick n) v) = rendered v /\
  Raf.pending (frames (Education.ParticleSystem.run (repeat FrameTick n) v)) = [].
Proof.
  unfold Education.ParticleSystem.run.
  revert v; induction n as [|k IH]; intros v Hv; cbn [repeat fold_left];
    [split; [reflexivity | exact Hv]|].
  cbn [Education.ParticleSystem.step].
  assert (Ht : rendered (Education.ParticleSystem.frame_tick v) = rendered v /\
               Raf.pending (frames (Education.ParticleSystem.frame_tick v)) = []).
  { unfold Education.ParticleSystem.frame_tick. cbn [Raf.take].
    rewrite Hv. split; reflexivity. }
  destruct Ht as [Ha Hb]. destruct (IH _ Hb) as [Hc Hd].
  split; [rewrite Hc; exact Ha | exact Hd].
Qed.

Lemma Educatum_no_frame_ticks (n : nat) (v : t) :
  Raf.pending (frames v) = [] ->
  rendered (Educatum.ParticleSystem.run (repeat FrameTick n) v) = rendered v /\
  Raf.pending (frames (Educatum.ParticleSystem.run (repeat FrameTick n) v)) = [].
Proof.
  unfold Educatum.ParticleSystem.run.
  revert v; induction n as [|k IH]; intros v Hv; cbn [repeat fold_left];
    [split; [reflexivity | exact Hv]|].
  cbn [Educatum.ParticleSystem.step].
  assert (Ht : rendered (Educatum.ParticleSystem.frame_tick v) = rendered v /\
               Raf.pending (frames (Educatum.ParticleSystem.frame_tick v)) = []).
  { unfold Educatum.ParticleSystem.frame_tick. cbn [Raf.take].
    rewrite Hv. split; reflexivity. }
  destruct Ht as [Ha Hb]. destruct (IH _ Hb) as [Hc Hd].
  split; [rewrite Hc; exact Ha | exact Hd].
Qed.

End ParticleLoops.

(** X12: the constructor starts no frame loop.  On a page with no frame
    pending, after construction any number of frame ticks leaves the
    particle elements exactly where they were created and nothing
    pending; the first [resumeAnimations] (page becoming visible) is what
    requests the first frame.  Both scripts. *)
Theorem particles_idle_until_resume (w : ParticlePage.t) (n : nat) :
  Raf.pending (ParticlePage.frames w) = [] ->
  let idle := Education.ParticleSystem.run (repeat FrameTick n)
                (Education.ParticleSystem.new w) in
  let idle' := Educatum.ParticleSystem.run (repeat FrameTick n)
                 (Educatum.ParticleSystem.new w) in
  (ParticlePage.rendered idle = ParticlePage.rendered (Education.ParticleSystem.new w) /\
   Raf.pending (ParticlePage.frames idle) = [] /\
   length (Raf.pending (ParticlePage.frames
                          (Education.ParticleSystem.step idle PageVisible))) = 1) /\
  (ParticlePage.rendered idle' = ParticlePage.rendered (Educatum.ParticleSystem.new w) /\
   Raf.pending (ParticlePage.frames idle') = [] /\
   length (Raf.pending (ParticlePage.frames
                          (Educatum.ParticleSystem.step idle' PageVisible))) = 1).
Proof.
  intros Hp.
  destruct (new_requests_no_frame w) as [H1 H2].
  pose proof (Education_no_frame_ticks n) as R1.
  pose proof (Educatum_no_frame_ticks n) as R2.
  rewrite <- H1 in Hp at 1. destruct (R1 _ Hp) as [Ra Rb].
  rewrite H1, <- H2 in Hp. destruct (R2 _ Hp) as [Rc Rd].
  cbv zeta. repeat split; try assumption.
  - cbn [Education.ParticleSystem.step].
    unfold Education.ParticleSystem.resumeAnimations.
    destruct (Education_animate_active
                (ParticlePage.set_isActive true
                   (Education.ParticleSystem.run (repeat FrameTick n)
                      (Education.ParticleSystem.new w))) eq_refl) as (_ & _ & Hl).
    rewrite Hl. cbn [ParticlePage.set_isActive ParticlePage.frames]. rewrite Rb. reflexivity.
  - cbn [Educatum.ParticleSystem.step].
    unfold Educatum.ParticleSystem.resumeAnimations.
    destruct (Educatum_animate_active
                (ParticlePage.set_isActive true
                   (Educatum.ParticleSystem.run (repeat FrameTick n)
                      (Educatum.ParticleSystem.new w))) eq_refl) as (_ & _ & Hl).
    rewrite Hl. cbn [ParticlePage.set_isActive ParticlePage.frames]. rewrite Rd. reflexivity.
Qed.

Lemma particles_idle_until_resume_witness :
  let idle := Education.ParticleSystem.run (repeat FrameTick 3)
                (Education.ParticleSystem.new page_near_one) in
  let idle' := Educatum.ParticleSystem.run (repeat FrameTick 3)
                 (Educatum.ParticleSystem.new page_near_one) in
  (ParticlePage.rendered idle
     = ParticlePage.rendered (Education.ParticleSystem.new page_near_one) /\
   Raf.pending (ParticlePage.frames idle) = [] /\
   length (Raf.pending (ParticlePage.frames
                          (Education.ParticleSystem.step idle PageVisible))) = 1) /\
  (ParticlePage.rendered idle'
     = ParticlePage.rendered (Educatum.ParticleSystem.new page_near_one) /\
   Raf.pending (ParticlePage.frames idle') = [] /\
   length (Raf.pending (ParticlePage.frames
                          (Educatum.ParticleSystem.step idle' PageVisible))) = 1).
Proof.
  apply (particles_idle_until_resume page_near_one 3). reflexivity.
Defined.

(** X13: frame loops pile up.  On an active particle system with k
    callbacks pending, a frame tick runs [animate] k times (every
    particle advances k steps in that one frame) and leaves k callbacks
    pending again; hiding and showing the page with no frame in between
    leaves k + 1.  Both scripts. *)
Theorem hide_show_adds_a_loop (w : ParticlePage.t) :
  ParticlePage.isActive w = true ->
  let k := length (Raf.pending (ParticlePage.frames w)) in
  (ParticlePage.particles (Education.ParticleSystem.frame_tick w)
     = map (Nat.iter k advance) (ParticlePage.particles w) /\
   length (Raf.pending (ParticlePage.frames (Education.ParticleSystem.frame_tick w))) = k /\
   length (Raf.pending
             (ParticlePage.frames
                (Education.ParticleSystem.run [PageHidden; PageVisible] w))) = S k) /\
  (ParticlePage.particles (Educatum.ParticleSystem.frame_tick w)
     = map (Nat.iter k advance) (ParticlePage.particles w) /\
   length (Raf.pending (ParticlePage.frames (Educatum.ParticleSystem.frame_tick w))) = k /\
   length (Raf.pending
             (ParticlePage.frames
                (Educatum.ParticleSystem.run [PageHidden; PageVisible] w))) = S k).
Proof.
  intros Ha k. split.
  - unfold Education.ParticleSystem.frame_tick. cbn [Raf.take].
    destruct (active_ticks Education.ParticleSystem.animate Education_animate_active
                (Raf.pending (ParticlePage.frames w))
                (ParticlePage.set_stale_frames []
       (ParticlePage.set_frames {| Raf.next_id := Raf.next_id (ParticlePage.frames w); Raf.pending := [] |} w)) Ha) as (_ & Hp & Hl).
    repeat split; [exact Hp | rewrite Hl; cbn; lia |].
    cbn [Education.ParticleSystem.run fold_left Education.ParticleSystem.step].
    unfold Education.ParticleSystem.resumeAnimations, Education.ParticleSystem.pauseAnimations.
    destruct (Education_animate_active
                (ParticlePage.set_isActive true (ParticlePage.set_isActive false w))
                eq_refl) as (_ & _ & Hl2).
    rewrite Hl2. reflexivity.
  - unfold Educatum.ParticleSystem.frame_tick. cbn [Raf.take].
    destruct (active_ticks Educatum.ParticleSystem.animate Educatum_animate_active
                (Raf.pending (ParticlePage.frames w))
                (ParticlePage.set_stale_frames []
       (ParticlePage.set_frames {| Raf.next_id := Raf.next_id (ParticlePage.frames w); Raf.pending := [] |} w)) Ha) as (_ & Hp & Hl).
    repeat split; [exact Hp | rewrite Hl; cbn; lia |].
    cbn [Educatum.ParticleSystem.run fold_left Educatum.ParticleSystem.step].
    unfold Educatum.ParticleSystem.resumeAnimations, Educatum.ParticleSystem.pauseAnimations.
    destruct (Educatum_animate_active
                (ParticlePage.set_isActive true (ParticlePage.set_isActive false w))
                eq_refl) as (_ & _ & Hl2).
    rewrite Hl2. reflexivity.
Qed.

Lemma hide_show_adds_a_loop_witness :
  let w := Education.ParticleSystem.step
             (Education.ParticleSystem.new page_near_one) PageVisible in
  length (Raf.pending
            (ParticlePage.frames
               (Education.ParticleSystem.run [PageHidden; PageVisible] w))) = 2 /\
  length (Raf.pending
            (ParticlePage.frames
               (Educatum.ParticleSystem.run [PageHidden; PageVisible] w))) = 2.
Proof.
  destruct (hide_show_adds_a_loop
              (Education.ParticleSystem.step
                 (Education.ParticleSystem.new page_near_one) PageVisible) eq_refl)
    as [(_ & _ & H1) (_ & _ & H2)].
  split; [exact H1 | exact H2].
Defined.

(** ** Custom cursor *)

Section CursorFacts.
Import CursorPage.
Local Open Scope Q_scope.

(** A frame with exactly one callback pending is one [updateCursor]. *)
Lemma Education_single_frame (w : t) (id : nat) :
  Raf.pending (frames w) = [id] ->
  let w' := Education.CustomCursor.frame_tick w in
  Raf.pending (frames w') = [Raf.next_id (frames w)] /\
  mouseX w' = mouseX w /\ mouseY w' = mouseY w /\
  cursorX w' = cursorX w + (mouseX w - cursorX w) * (1 # 10) /\
  cursorY w' = cursorY w + (mouseY w - cursorY w) * (1 # 10) /\
  dotX w' = dotX w + (mouseX w - dotX w) * (15 # 100) /\
  dotY w' = dotY w + (mouseY w - dotY w) * (15 # 100) /\
  cursor w' = match cursor w with
              | Some _ => Some (Some (cursorX w' - 20, cursorY w' - 20))
              | None => None
              end /\
  cursorDot w' = match cursorDot w with
                 | Some _ => Some (Some (dotX w' - 4, dotY w' - 4))
                 | None => None
                 end.
Proof.
  intros Hp. unfold Education.CustomCursor.frame_tick. cbn [Raf.take].
  rewrite Hp. cbn. repeat split.
Qed.

Lemma toward_step (start target now : Q) :
  toward start target now ->
  toward start target (now + (target - now) * (1 # 10)) /\
  toward start target (now + (target - now) * (15 # 100)).
Proof.
  unfold toward. intros [H1 H2].
  split; (split; intros H3; [specialize (H1 H3) | specialize (H2 H3)]; lra).
Qed.

End CursorFacts.

(** X14: the smoothing never overshoots.  With one frame callback pending
    and the pointer at rest, after any number of frames the ring and the
    dot are, on each axis, between where they started and the pointer
    (ends included), and one callback is pending again.  Order is all
    that is stated: how fast the gap closes depends on rounding. *)
Theorem cursor_closes_in (w : CursorPage.t) (id : nat) (n : nat) :
  Raf.pending (CursorPage.frames w) = [id] ->
  let w' := Nat.iter n Education.CustomCursor.frame_tick w in
  toward (CursorPage.cursorX w) (CursorPage.mouseX w) (CursorPage.cursorX w') /\
  toward (CursorPage.cursorY w) (CursorPage.mouseY w) (CursorPage.cursorY w') /\
  toward (CursorPage.dotX w) (CursorPage.mouseX w) (CursorPage.dotX w') /\
  toward (CursorPage.dotY w) (CursorPage.mouseY w) (CursorPage.dotY w') /\
  CursorPage.mouseX w' = CursorPage.mouseX w /\
  CursorPage.mouseY w' = CursorPage.mouseY w /\
  length (Raf.pending (CursorPage.frames w')) = 1.
Proof.
  intros Hp w'. subst w'.
  assert (H : exists id',
             Raf.pending (CursorPage.frames (Nat.iter n Education.CustomCursor.frame_tick w))
               = [id'] /\
             toward (CursorPage.cursorX w) (CursorPage.mouseX w)
               (CursorPage.cursorX (Nat.iter n Education.CustomCursor.frame_tick w)) /\
             toward (CursorPage.cursorY w) (CursorPage.mouseY w)
               (CursorPage.cursorY (Nat.iter n Education.CustomCursor.frame_tick w)) /\
             toward (CursorPage.dotX w) (CursorPage.mouseX w)
               (CursorPage.dotX (Nat.iter n Education.CustomCursor.frame_tick w)) /\
             toward (CursorPage.dotY w) (CursorPage.mouseY w)
               (CursorPage.dotY (Nat.iter n Education.CustomCursor.frame_tick w)) /\
             CursorPage.mouseX (Nat.iter n Education.CustomCursor.frame_tick w)
               = CursorPage.mouseX w /\
             CursorPage.mouseY (Nat.iter n Education.CustomCursor.frame_tick w)
               = CursorPage.mouseY w).
  { induction n as [|n IH].
    - exists id.
      change (Nat.iter 0 Education.CustomCursor.frame_tick w) with w.
      split; [exact Hp|].
      assert (Hself : forall a m : Q, toward a m a)
        by (intros a m; unfold toward; split; intros H3; lra).
      repeat (split; [apply Hself|]). split; reflexivity.
    - destruct IH as (id' & Hp' & Hx & Hy & Hdx & Hdy & Hmx & Hmy).
      change (Nat.iter (S n) Education.CustomCursor.frame_tick w)
        with (Education.CustomCursor.frame_tick
                (Nat.iter n Education.CustomCursor.frame_tick w)).
      destruct (Education_single_frame _ _ Hp')
        as (Hq & Hmx' & Hmy' & Hcx & Hcy & Hddx & Hddy & _).
      eexists. split; [exact Hq|].
      rewrite Hmx', Hmy', Hcx, Hcy, Hddx, Hddy, Hmx, Hmy.
      split; [exact (proj1 (toward_step _ _ _ Hx))|].
      split; [exact (proj1 (toward_step _ _ _ Hy))|].
      split; [exact (proj2 (toward_step _ _ _ Hdx))|].
      split; [exact (proj2 (toward_step _ _ _ Hdy))|].
      split; reflexivity. }
  destruct H as (id' & Hp' & Hx & Hy & Hdx & Hdy & Hmx & Hmy).
  split; [exact Hx|]. split; [exact Hy|]. split; [exact Hdx|]. split; [exact Hdy|].
  split; [exact Hmx|]. split; [exact Hmy|]. rewrite Hp'. reflexivity.
Qed.

Lemma cursor_closes_in_witness :
  let w := CursorPage.on_mousemove 128 64 (Education.CustomCursor.new cursor_page) in
  let w' := Nat.iter 2 Education.CustomCursor.frame_tick w in
  toward (CursorPage.cursorX w) 128%Q (CursorPage.cursorX w') /\
  toward (CursorPage.cursorY w) 64%Q (CursorPage.cursorY w') /\
  toward (CursorPage.dotX w) 128%Q (CursorPage.dotX w') /\
  toward (CursorPage.dotY w) 64%Q (CursorPage.dotY w') /\
  CursorPage.mouseX w' = 128%Q /\
  CursorPage.mouseY w' = 64%Q /\
  length (Raf.pending (CursorPage.frames w')) = 1.
Proof.
  apply (cursor_closes_in
           (CursorPage.on_mousemove 128 64 (Education.CustomCursor.new cursor_page)) 1 2).
  reflexivity.
Defined.

(** X15: the cursor loop of the Education script.  On a narrow viewport
    or with either element missing the constructor does nothing at all.
    Otherwise, starting with no frame pending, the constructor leaves
    exactly one callback pending, and pointer moves and frames keep it at
    exactly one: the loop neither stops nor multiplies. *)
Theorem cursor_loop_is_single (w : CursorPage.t) (es : list CursorEvents.event) :
  (CursorEvents.enabled w = false -> Education.CustomCursor.new w = w) /\
  (CursorEvents.enabled w = true ->
   Raf.pending (CursorPage.frames w) = [] ->
   length (Raf.pending
             (CursorPage.frames
                (CursorEvents.Education_run es (Education.CustomCursor.new w)))) = 1).
Proof.
  split.
  - unfold Education.CustomCursor.new, CursorEvents.enabled. intros ->. reflexivity.
  - intros Hen Hp. unfold Education.CustomCursor.new, CursorEvents.enabled in *.
    rewrite Hen.
    assert (H0 : exists id, Raf.pending (CursorPage.frames (Education.CustomCursor.init w))
                            = [id]).
    { unfold Education.CustomCursor.init, Education.CustomCursor.updateCursor.
      cbn. rewrite Hp. eexists. reflexivity. }
    revert H0. generalize (Education.CustomCursor.init w).
    unfold CursorEvents.Education_run.
    induction es as [|e es IH]; intros v [id Hv]; simpl.
    + rewrite Hv. reflexivity.
    + apply IH. destruct e as [a b|]; cbn [CursorEvents.Education_step].
      * exists id. exact Hv.
      * destruct (Education_single_frame _ _ Hv) as (Hq & _). eexists. exact Hq.
Qed.

Lemma cursor_loop_is_single_witness :
  length (Raf.pending
            (CursorPage.frames
               (CursorEvents.Education_run
                  [CursorEvents.Frame; CursorEvents.MouseMove 128 64; CursorEvents.Frame]
                  (Education.CustomCursor.new cursor_page)))) = 1.
Proof.
  apply (proj2 (cursor_loop_is_single cursor_page
                  [CursorEvents.Frame; CursorEvents.MouseMove 128 64; CursorEvents.Frame]));
    reflexivity.
Defined.

(** ** Scroll reveal *)

Section RevealFacts.
Import ScrollAnimationManager.

Lemma unrevealed_before_cons (j : nat) (e : RevealElement) (es : list RevealElement) :
  Reveal.unrevealed_before (S j) (e :: es)
  = (if revealed e then 0 else 1) + Reveal.unrevealed_before j es.
Proof.
  unfold Reveal.unrevealed_before. cbn [firstn List.filter].
  destruct (revealed e); reflexivity.
Qed.

Lemma observe_from_spec (es : list RevealElement) (i index : nat) :
  let '(es', obs) := observe_from i index es in
  length es' = length es /\
  (forall j e, nth_error es j = Some e ->
     nth_error es' j
       = Some (if revealed e then e
               else {| revealed := false;
                       data_delay := Some ((index + Reveal.unrevealed_before j es) * 100) |})) /\
  (forall j, In (i + j) obs <-> Reveal.is_revealed es j = false /\ j < length es) /\
  (forall a, In a obs -> i <= a).
Proof.
  revert i index. induction es as [|e es IH]; intros i index.
  - cbn [observe_from length]. split; [reflexivity|]. split; [|split].
    + intros j e H. destruct j; discriminate H.
    + intros j. split; [intros [] | intros [_ H]; lia].
    + intros a [].
  - cbn [observe_from]. destruct (revealed e) eqn:Er.
    + specialize (IH (S i) index). destruct (observe_from (S i) index es) as [es' obs].
      destruct IH as (Hl & Hn & Ho & Hge). split; [|split; [|split]].
      * cbn [length]. rewrite Hl. reflexivity.
      * intros [|j] e0 Hj; cbn [nth_error] in Hj |- *.
        -- injection Hj as <-. rewrite Er. reflexivity.
        -- rewrite (Hn j e0 Hj), unrevealed_before_cons, Er. reflexivity.
      * intros j. unfold Reveal.is_revealed. destruct j as [|j]; cbn [nth_error length].
        -- rewrite Er. split; [intros Hin; apply Hge in Hin; lia | intros [H _]; discriminate H].
        -- replace (i + S j) with (S i + j) by lia. rewrite (Ho j).
           unfold Reveal.is_revealed. split; intros [H1 H2]; (split; [exact H1 | lia]).
      * intros a Ha. apply Hge in Ha. lia.
    + specialize (IH (S i) (S index)).
      destruct (observe_from (S i) (S index) es) as [es' obs].
      destruct IH as (Hl & Hn & Ho & Hge). split; [|split; [|split]].
      * cbn [length]. rewrite Hl. reflexivity.
      * intros [|j] e0 Hj; cbn [nth_error] in Hj |- *.
        -- injection Hj as <-. rewrite Er.
           unfold Reveal.unrevealed_before. cbn [firstn List.filter length].
           rewrite Nat.add_0_r. reflexivity.
        -- rewrite (Hn j e0 Hj), unrevealed_before_cons, Er.
           replace (S index + Reveal.unrevealed_before j es)
             with (index + (1 + Reveal.unrevealed_before j es)) by lia.
           reflexivity.
      * intros j. unfold Reveal.is_revealed. destruct j as [|j]; cbn [nth_error length].
        -- rewrite Er. split; [intros _; split; [reflexivity | lia] | intros _; left; lia].
        -- replace (i + S j) with (S i + j) by lia. cbn [In]. rewrite (Ho j).
           unfold Reveal.is_revealed.
           split; [intros [H | [H1 H2]]; [lia | split; [exact H1 | lia]]
                  | intros [H1 H2]; right; split; [exact H1 | lia]].
      * intros a [<- | Ha]; [lia|]. apply Hge in Ha. lia.
Qed.

(** A second pass over the elements changes nothing more. *)
Lemma observe_from_again (es : list RevealElement) (i index : nat) :
  observe_from i index (fst (observe_from i index es)) = observe_from i index es.
Proof.
  revert i index. induction es as [|e es IH]; intros i index; [reflexivity|].
  cbn [observe_from]. destruct (revealed e) eqn:Er.
  - specialize (IH (S i) index). destruct (observe_from (S i) index es) as [es' obs].
    cbn [fst] in *. cbn [observe_from]. rewrite Er, IH. reflexivity.
  - specialize (IH (S i) (S index)).
    destruct (observe_from (S i) (S index) es) as [es' obs].
    cbn [fst] in *. cbn [observe_from revealed]. rewrite IH. reflexivity.
Qed.

Lemma filter_already_observed (targets obs : list nat) :
  List.filter
    (fun i => negb (existsb (Nat.eqb i)
                      (targets ++ List.filter
                                    (fun i => negb (existsb (Nat.eqb i) targets)) obs)))
    obs = [].
Proof.
  set (all := (targets ++ List.filter (fun i => negb (existsb (Nat.eqb i) targets)) obs)%list).
  assert (Hall : forall a, In a obs -> existsb (Nat.eqb a) all = true).
  { intros a Ha. apply existsb_exists.
    destruct (existsb (Nat.eqb a) targets) eqn:E.
    - apply existsb_exists in E as (b & Hb & Hab). exists b. split; [|exact Hab].
      unfold all. apply in_or_app. left. exact Hb.
    - exists a. split; [|apply Nat.eqb_refl].
      unfold all. apply in_or_app. right. apply List.filter_In. split; [exact Ha|].
      rewrite E. reflexivity. }
  clearbody all. induction obs as [|a obs IH]; [reflexivity|].
  cbn [List.filter]. rewrite (Hall a (or_introl eq_refl)). cbn [negb].
  apply IH. intros b Hb. apply Hall. right. exact Hb.
Qed.

End RevealFacts.

(** X16: without IntersectionObserver the constructor reveals every
    marked element at once and keeps no observer; [observeElements] and
    [destroy] are then no-ops. *)
Theorem reveal_fallback (w : ScrollAnimationManager.t) :
  ScrollAnimationManager.has_IntersectionObserver w = false ->
  let w' := ScrollAnimationManager.new w in
  length (ScrollAnimationManager.elements w')
    = length (ScrollAnimationManager.elements w) /\
  Forall (fun e => ScrollAnimationManager.revealed e = true)
         (ScrollAnimationManager.elements w') /\
  ScrollAnimationManager.observer w' = None /\
  ScrollAnimationManager.observeElements w' = w' /\
  ScrollAnimationManager.destroy w' = w'.
Proof.
  intros H. unfold ScrollAnimationManager.new, ScrollAnimationManager.createObserver.
  cbn [ScrollAnimationManager.has_IntersectionObserver]. rewrite H.
  cbn. repeat split.
  - apply length_map.
  - apply List.Forall_map. apply List.Forall_forall. reflexivity.
Qed.

Lemma reveal_fallback_witness :
  let w := {| ScrollAnimationManager.has_IntersectionObserver := false;
              ScrollAnimationManager.elements :=
                [ {| ScrollAnimationManager.revealed := false;
                     ScrollAnimationManager.data_delay := None |};
                  {| ScrollAnimationManager.revealed := true;
                     ScrollAnimationManager.data_delay := None |} ];
              ScrollAnimationManager.observer := None |} in
  let w' := ScrollAnimationManager.new w in
  length (ScrollAnimationManager.elements w') = 2 /\
  Forall (fun e => ScrollAnimationManager.revealed e = true)
         (ScrollAnimationManager.elements w') /\
  ScrollAnimationManager.observer w' = None /\
  ScrollAnimationManager.observeElements w' = w' /\
  ScrollAnimationManager.destroy w' = w'.
Proof.
  apply (reveal_fallback
           {| ScrollAnimationManager.has_IntersectionObserver := false;
              ScrollAnimationManager.elements :=
                [ {| ScrollAnimationManager.revealed := false;
                     ScrollAnimationManager.data_delay := None |};
                  {| ScrollAnimationManager.revealed := true;
                     ScrollAnimationManager.data_delay := None |} ];
              ScrollAnimationManager.observer := None |}).
  reflexivity.
Defined.

(** X17: [observeElements] can be called again at any time: a second
    call right after the first changes nothing (same delays, no target
    observed twice). *)
Theorem observeElements_idempotent (w : ScrollAnimationManager.t) :
  ScrollAnimationManager.observeElements (ScrollAnimationManager.observeElements w)
    = ScrollAnimationManager.observeElements w.
Proof.
  unfold ScrollAnimationManager.observeElements.
  destruct (ScrollAnimationManager.observer w) as [targets|] eqn:Eo.
  2:{ rewrite Eo. reflexivity. }
  pose proof (observe_from_again (ScrollAnimationManager.elements w) 0 0) as Hagain.
  destruct (ScrollAnimationManager.observe_from 0 0 (ScrollAnimationManager.elements w))
    as [es obs] eqn:E1.
  cbn [fst] in Hagain.
  cbn [ScrollAnimationManager.observer ScrollAnimationManager.elements
       ScrollAnimationManager.has_IntersectionObserver].
  rewrite Hagain. rewrite filter_already_observed, List.app_nil_r. reflexivity.
Qed.

(** X18: staggering.  With an observer in place, [observeElements] gives
    the k-th not yet revealed element (in document order, counting from
    0) the delay 100 * k, leaves revealed elements untouched, and the
    observer then watches every element that is not revealed. *)
Theorem observeElements_staggers
        (w : ScrollAnimationManager.t) (targets : list nat)
        (i : nat) (e : ScrollAnimationManager.RevealElement) :
  ScrollAnimationManager.observer w = Some targets ->
  nth_error (ScrollAnimationManager.elements w) i = Some e ->
  let w' := ScrollAnimationManager.observeElements w in
  nth_error (ScrollAnimationManager.elements w') i
    = Some (if ScrollAnimationManager.revealed e then e
            else {| ScrollAnimationManager.revealed := false;
                    ScrollAnimationManager.data_delay :=
                      Some (Reveal.unrevealed_before i (ScrollAnimationManager.elements w)
                            * 100) |}) /\
  (ScrollAnimationManager.revealed e = false ->
   exists targets', ScrollAnimationManager.observer w' = Some targets' /\ In i targets').
Proof.
  intros Ho Hi. unfold ScrollAnimationManager.observeElements. rewrite Ho.
  pose proof (observe_from_spec (ScrollAnimationManager.elements w) 0 0) as Hs.
  destruct (ScrollAnimationManager.observe_from 0 0 (ScrollAnimationManager.elements w))
    as [es obs].
  destruct Hs as (Hl & Hn & Hobs & _).
  cbn [ScrollAnimationManager.elements ScrollAnimationManager.observer].
  split; [exact (Hn i e Hi)|].
  intros Hr. eexists. split; [reflexivity|].
  assert (Hin : In i obs).
  { apply (Hobs i). unfold Reveal.is_revealed. rewrite Hi. split; [exact Hr|].
    apply nth_error_Some. congruence. }
  apply in_or_app.
  destruct (existsb (Nat.eqb i) targets) eqn:E.
  - left. apply existsb_exists in E as (b & Hb & Hib).
    apply Nat.eqb_eq in Hib. subst b. exact Hb.
  - right. apply List.filter_In. split; [exact Hin|]. rewrite E. reflexivity.
Qed.

Lemma observeElements_staggers_witness :
  let w := {| ScrollAnimationManager.has_IntersectionObserver := true;
              ScrollAnimationManager.elements :=
                [ {| ScrollAnimationManager.revealed := false;
                     ScrollAnimationManager.data_delay := None |};
                  {| ScrollAnimationManager.revealed := true;
                     ScrollAnimationManager.data_delay := None |};
                  {| ScrollAnimationManager.revealed := false;
                     ScrollAnimationManager.data_delay := None |} ];
              ScrollAnimationManager.observer := Some [] |} in
  let w' := ScrollAnimationManager.observeElements w in
  nth_error (ScrollAnimationManager.elements w') 2
    = Some {| ScrollAnimationManager.revealed := false;
              ScrollAnimationManager.data_delay := Some 100 |} /\
  (false = false ->
   exists targets', ScrollAnimationManager.observer w' = Some targets' /\ In 2 targets').
Proof.
  apply (observeElements_staggers
           {| ScrollAnimationManager.has_IntersectionObserver := true;
              ScrollAnimationManager.elements :=
                [ {| ScrollAnimationManager.revealed := false;
                     ScrollAnimationManager.data_delay := None |};
                  {| ScrollAnimationManager.revealed := true;
                     ScrollAnimationManager.data_delay := None |};
                  {| ScrollAnimationManager.revealed := false;
                     ScrollAnimationManager.data_delay := None |} ];
              ScrollAnimationManager.observer := Some [] |}
           [] 2
           {| ScrollAnimationManager.revealed := false;
              ScrollAnimationManager.data_delay := None |});
    reflexivity.
Defined.

Section RevealMonotone.
Import ScrollAnimationManager.

Lemma nth_error_list_insert (A : Type) (l : list A) (i j : nat) (a : A) :
  nth_error (<[i := a]> l) j
  = if Nat.eqb i j then match nth_error l j with Some _ => Some a | None => None end
    else nth_error l j.
Proof.
  revert i j. induction l as [|b l IH]; intros i j.
  - destruct i, j; cbn; try reflexivity; destruct (Nat.eqb _ _); reflexivity.
  - destruct i as [|i], j as [|j]; cbn; try reflexivity. apply IH.
Qed.

Lemma is_revealed_observeElements (m : t) (j : nat) :
  Reveal.is_revealed (elements (observeElements m)) j = Reveal.is_revealed (elements m) j /\
  length (elements (observeElements m)) = length (elements m).
Proof.
  unfold observeElements. destruct (observer m); [|split; reflexivity].
  pose proof (observe_from_spec (elements m) 0 0) as Hs.
  destruct (observe_from 0 0 (elements m)) as [es obs].
  destruct Hs as (Hl & Hn & _). cbn [elements]. split; [|exact Hl].
  unfold Reveal.is_revealed.
  destruct (nth_error (elements m) j) as [e|] eqn:Ej.
  - rewrite (Hn j e Ej). destruct (revealed e) eqn:Er; [exact Er | reflexivity].
  - destruct (nth_error es j) eqn:Ej'; [|reflexivity].
    apply nth_error_None in Ej. assert (j < length es) by (apply nth_error_Some; congruence).
    lia.
Qed.

Lemma is_revealed_reveal (m : t) (i j : nat) :
  Reveal.is_revealed (elements (Reveal.reveal i m)) j
    = (Nat.eqb i j && Nat.ltb j (length (elements m))) || Reveal.is_revealed (elements m) j /\
  length (elements (Reveal.reveal i m)) = length (elements m).
Proof.
  unfold Reveal.reveal, Reveal.is_revealed. cbn [elements].
  destruct (nth_error (elements m) i) as [e|] eqn:Ei.
  - split; [|apply length_insert].
    rewrite nth_error_list_insert. destruct (Nat.eqb_spec i j) as [<- | Hne].
    + rewrite Ei. cbn [revealed].
      assert (Hlt : Nat.ltb i (length (elements m)) = true)
        by (apply Nat.ltb_lt, nth_error_Some; congruence).
      rewrite Hlt. reflexivity.
    + reflexivity.
  - split; [|reflexivity]. destruct (Nat.eqb_spec i j) as [<- | Hne]; [|reflexivity].
    assert (Hge : Nat.ltb i (length (elements m)) = false)
      by (apply Nat.ltb_ge, nth_error_None; exact Ei).
    rewrite Hge, Ei. reflexivity.
Qed.

Lemma step_keeps_revealed (w : Reveal.t) (e : Reveal.event) (j : nat) :
  (Reveal.is_revealed (elements (Reveal.manager w)) j = true ->
   Reveal.is_revealed (elements (Reveal.manager (Reveal.step w e))) j = true) /\
  length (elements (Reveal.manager (Reveal.step w e)))
    = length (elements (Reveal.manager w)) /\
  (match e with Reveal.TimerFires _ => False | _ => True end ->
   Reveal.is_revealed (elements (Reveal.manager (Reveal.step w e))) j
     = Reveal.is_revealed (elements (Reveal.manager w)) j).
Proof.
  destruct e as [|i|k|]; cbn [Reveal.step Reveal.manager].
  - destruct (is_revealed_observeElements (Reveal.manager w) j) as [-> ->]. auto.
  - unfold Reveal.on_intersect. destruct (observer (Reveal.manager w)); [|auto].
    destruct (existsb (Nat.eqb i) l); auto.
  - unfold Reveal.timer_fires.
    destruct (nth_error (Reveal.reveal_timers w) k) as [[i d]|]; [|tauto].
    cbn [Reveal.manager].
    destruct (is_revealed_reveal (Reveal.manager w) i j) as [-> ->].
    repeat split; [|tauto]. intros ->. apply orb_true_r.
  - unfold destroy. destruct (observer (Reveal.manager w)); auto.
Qed.

End RevealMonotone.

(** X19: revealing is one-way.  Over any sequence of [observeElements]
    calls, intersection callbacks, reveal timers and [destroy], the
    number of marked elements never changes and an element that is
    revealed stays revealed; only a reveal timer changes which elements
    are revealed. *)
Theorem revealed_stays_revealed (w : Reveal.t) (es : list Reveal.event) (j : nat) :
  (Reveal.is_revealed
     (ScrollAnimationManager.elements (Reveal.manager w)) j = true ->
   Reveal.is_revealed
     (ScrollAnimationManager.elements (Reveal.manager (Reveal.run es w))) j = true) /\
  length (ScrollAnimationManager.elements (Reveal.manager (Reveal.run es w)))
    = length (ScrollAnimationManager.elements (Reveal.manager w)) /\
  (forallb (fun e => match e with Reveal.TimerFires _ => false | _ => true end) es = true ->
   Reveal.is_revealed
     (ScrollAnimationManager.elements (Reveal.manager (Reveal.run es w))) j
   = Reveal.is_revealed (ScrollAnimationManager.elements (Reveal.manager w)) j).
Proof.
  unfold Reveal.run. revert w. induction es as [|e es IH]; intros w; simpl.
  - auto.
  - destruct (IH (Reveal.step w e)) as (H1 & H2 & H3).
    destruct (step_keeps_revealed w e j) as (S1 & S2 & S3).
    repeat split.
    + auto.
    + rewrite H2. exact S2.
    + intros Hes. apply andb_true_iff in Hes as [He Hes].
      rewrite (H3 Hes). apply S3. destruct e; try exact I. discriminate He.
Qed.

(** ** Video cards: play and pause together *)

Lemma replace_absent (s pat rep : string) :
  includes s pat = false -> replace s pat rep = s.
Proof.
  induction s as [|c s IH]; intros H.
  - pose proof (includes_head _ _ H) as Hh. cbn [replace]. rewrite Hh. reflexivity.
  - pose proof (includes_head _ _ H) as Hh. rewrite replace_cons, Hh.
    f_equal. apply IH. eapply includes_tail. exact H.
Qed.

Lemma pauseVideo_playVideo (f : Iframe) :
  match src f with Some s => includes s "autoplay=1" = false | None => True end ->
  pauseVideo (playVideo f) = f.
Proof.
  destruct f as [[s|]]; cbn [src]; intros H; [|reflexivity].
  destruct s as [|c s].
  - reflexivity.
  - rewrite (playVideo_fresh (String c s)) by (discriminate || exact H).
    apply pauseVideo_appended. exact H.
Qed.

Lemma pauseVideo_idle (f : Iframe) :
  match src f with Some s => includes s "autoplay=1" = false | None => True end ->
  pauseVideo f = f.
Proof.
  destruct f as [[s|]]; cbn [src]; intros H; [|reflexivity].
  apply pauseVideo_not_playing. exact H.
Qed.

Lemma pauseAllVideos_idle (cards : list VideoCard) :
  Forall not_playing cards -> pauseAllVideos cards = cards.
Proof.
  induction 1 as [|[[f|] ov] cards Hc _ IH]; [reflexivity| |];
    cbn [pauseAllVideos map iframe overlay] in *; fold (pauseAllVideos cards); rewrite IH.
  - unfold not_playing in Hc. cbn [iframe] in Hc.
    rewrite (pauseVideo_idle f Hc). reflexivity.
  - reflexivity.
Qed.

Lemma map_list_insert (A : Type) (g : A -> A) (l : list A) (i : nat) (a : A) :
  map g (<[i := a]> l) = <[i := g a]> (map g l).
Proof.
  revert i; induction l as [|b l IH]; intros i; [reflexivity|].
  destruct i as [|i]; [reflexivity|]. cbn. f_equal. apply IH.
Qed.

Lemma list_insert_same (A : Type) (l : list A) (i : nat) (a : A) :
  nth_error l i = Some a -> <[i := a]> l = l.
Proof.
  revert i; induction l as [|b l IH]; intros i H; [reflexivity|].
  destruct i as [|i]; cbn in *.
  - injection H as ->. reflexivity.
  - f_equal. apply IH. exact H.
Qed.

(** X20: play, then pause, is a round trip.  When no card is playing, a
    click on the overlay of any card followed by [pauseAllVideos] gives
    back exactly the cards there were. *)
Theorem play_then_pause_all (cards : list VideoCard) (i : nat) :
  Forall not_playing cards ->
  pauseAllVideos (overlay_click i cards) = cards.
Proof.
  intros Hall. unfold overlay_click.
  destruct (nth_error cards i) as [card|] eqn:Ei; [|apply pauseAllVideos_idle, Hall].
  destruct card as [[f|] ov]; cbn [iframe overlay]; [|apply pauseAllVideos_idle, Hall].
  destruct ov; [|apply pauseAllVideos_idle, Hall].
  unfold pauseAllVideos. rewrite map_list_insert. fold (pauseAllVideos cards).
  rewrite (pauseAllVideos_idle _ Hall). cbn [iframe overlay].
  assert (Hf : not_playing {| iframe := Some f; overlay := true |}).
  { rewrite List.Forall_forall in Hall. apply Hall.
    eapply nth_error_In. exact Ei. }
  unfold not_playing in Hf. cbn [iframe] in Hf.
  rewrite (pauseVideo_playVideo f Hf). apply list_insert_same. exact Ei.
Qed.

Lemma play_then_pause_all_witness :
  let cards :=
    [ {| iframe := Some {| src := Some "https://www.youtube.com/embed/abc?rel=0" |};
         overlay := true |};
      {| iframe := None; overlay := true |} ] in
  pauseAllVideos (overlay_click 0 cards) = cards.
Proof.
  apply (play_then_pause_all
           [ {| iframe := Some {| src := Some "https://www.youtube.com/embed/abc?rel=0" |};
                overlay := true |};
             {| iframe := None; overlay := true |} ] 0).
  repeat constructor.
Defined.

(** X21: [pauseAllVideos] removes the text [&autoplay=1] and nothing
    else: a card whose URL does not contain that exact text keeps its
    URL, also when it is playing because [autoplay=1] is the first query
    parameter. *)
Theorem pause_needs_the_ampersand (cards : list VideoCard) (j : nat) (s : string) :
  card_src cards j = Some s ->
  includes s "&autoplay=1" = false ->
  card_src (pauseAllVideos cards) j = Some s.
Proof.
  intros Hsrc Hinc. rewrite (card_src_pauseAllVideos _ _ _ Hsrc).
  unfold pauseVideo. cbn [src].
  destruct (truthy (Some s) && includes s "autoplay=1"); [|reflexivity].
  cbn [src]. rewrite (replace_absent _ _ _ Hinc). reflexivity.
Qed.

Lemma pause_needs_the_ampersand_witness :
  includes "https://www.youtube.com/embed/abc?autoplay=1" "autoplay=1" = true /\
  card_src (pauseAllVideos card_with_autoplay_first) 0
    = Some "https://www.youtube.com/embed/abc?autoplay=1".
Proof.
  split; [reflexivity|].
  apply (pause_needs_the_ampersand card_with_autoplay_first 0
           "https://www.youtube.com/embed/abc?autoplay=1"); reflexivity.
Defined.

(** ** debounce and throttle *)

Section DebounceFacts.
Import Timing.
Local Open Scope Z_scope.
Variable A : Type.
Variable delay : Z.

Lemma debounce_step_inv (s : debounced A) (e : event A) :
  debounce_inv A delay s -> debounce_inv A delay (debounce_step A delay s e).
Proof.
  intros [Hs Ht]. destruct e as [ms|a|]; cbn [debounce_step].
  - split; assumption.
  - split; [exact Hs|]. cbn [d_timeoutId d_log due payload]. exists (d_log A s).
    replace (d_now A s + Z.max 0 delay - Z.max 0 delay) with (d_now A s) by lia.
    reflexivity.
  - destruct (d_timeoutId A s) as [tm|] eqn:Etm; [|split; [exact Hs | rewrite Etm; exact I]].
    destruct (Z.leb_spec (due tm) (d_now A s)) as [Hdue | Hdue].
    + split; [|exact I]. cbn [d_log]. destruct Ht as [h Hh]. rewrite Hh in *.
      cbn [settled]. split; [|exact Hs]. split; [reflexivity | lia].
    + split; [exact Hs | rewrite Etm; exact Ht].
Qed.

Lemma debounce_run_inv (es : list (event A)) (s : debounced A) :
  debounce_inv A delay s -> debounce_inv A delay (debounce_run A delay es s).
Proof.
  unfold debounce_run. revert s. induction es as [|e es IH]; intros s H; simpl; [exact H|].
  apply IH, debounce_step_inv, H.
Qed.

Lemma last_nonempty (B : Type) (l : list B) (c d d' : B) :
  List.last (c :: l) d = List.last (c :: l) d'.
Proof.
  revert c. induction l as [|b l IH]; intros c; [reflexivity|].
  change (List.last (b :: l) d = List.last (b :: l) d'). apply IH.
Qed.

(** The calls of a burst after its first: the timer of the previous call
    is still pending and not yet due when the next call replaces it. *)
Lemma debounce_rest_of_burst (rest : list (nat * A)) (s : debounced A) (a : A) :
  d_timeoutId A s = Some {| due := d_now A s + Z.max 0 delay; payload := a |} ->
  Forall (fun c => Z.of_nat (fst c) < Z.max 0 delay) rest ->
  let s' := debounce_run A delay (burst A rest) s in
  d_timeoutId A s'
    = Some {| due := d_now A s' + Z.max 0 delay;
              payload := snd (List.last rest (0%nat, a)) |} /\
  executions (d_log A s') = executions (d_log A s) /\
  d_now A s' = d_now A s + Z.of_nat (list_sum (map fst rest)).
Proof.
  cbv zeta. revert s a. induction rest as [|[g b] rest IH]; intros s a Ht Hall.
  - cbn [burst flat_map debounce_run fold_left List.last snd map list_sum Z.of_nat].
    rewrite Ht, Z.add_0_r. repeat split.
  - apply List.Forall_cons_iff in Hall as [Hg Hall]. cbn [fst] in Hg.
    set (s1 := debounce_step A delay
                 (debounce_step A delay (debounce_step A delay s (Tick g)) Timeout)
                 (Invoke b)).
    change (debounce_run A delay (burst A ((g, b) :: rest)) s)
      with (debounce_run A delay (burst A rest) s1).
    assert (H1 : d_timeoutId A s1
                 = Some {| due := d_now A s1 + Z.max 0 delay; payload := b |} /\
                 executions (d_log A s1) = executions (d_log A s) /\
                 d_now A s1 = d_now A s + Z.of_nat g).
    { subst s1. cbn [debounce_step d_timeoutId d_now d_log]. rewrite Ht.
      cbn [due payload].
      destruct (Z.leb_spec (d_now A s + Z.max 0 delay) (d_now A s + Z.of_nat g)); [lia|].
      cbn [d_timeoutId d_now d_log executions]. repeat split. }
    destruct H1 as (Ht1 & He1 & Hn1).
    destruct (IH s1 b Ht1 Hall) as (Ht' & He' & Hn').
    split; [|split].
    + rewrite Ht'. f_equal. f_equal.
      destruct rest as [|c rest']; [reflexivity|].
      change (List.last ((g, b) :: c :: rest') (0%nat, a))
        with (List.last (c :: rest') (0%nat, a)).
      f_equal. apply last_nonempty.
    + rewrite He'. exact He1.
    + rewrite Hn', Hn1.
      change (list_sum (map fst ((g, b) :: rest)))
        with (g + list_sum (map fst rest))%nat.
      rewrite Nat2Z.inj_add. lia.
Qed.

End DebounceFacts.

(** X22: a debounced function waits for quiet.  From the moment
    [debounce] returns, whatever the calls, clock ticks and timer checks:
    every execution of [func] comes directly after the call whose
    arguments it carries, with no other call in between, and at least
    [delay] ms later; and a pending timer always belongs to the most
    recent call. *)
Theorem debounce_waits_for_quiet
        (A : Type) (delay now : Z) (es : list (Timing.event A)) :
  let s := Timing.debounce_run A delay es (Timing.debounce_new A now) in
  Timing.settled A delay (Timing.d_log A s) /\
  match Timing.d_timeoutId A s with
  | Some tm =>
      exists h, Timing.d_log A s
                = Timing.Called (Timing.due tm - Z.max 0 delay) (Timing.payload tm) :: h
  | None => True
  end.
Proof.
  apply debounce_run_inv. split; [exact I | exact I].
Qed.

(** X23: a burst runs [func] once.  Starting with no timer pending, one
    call followed by any number of calls that each come less than
    [delay] ms after the previous one, then [delay] ms of quiet, execute
    [func] exactly once, at the end of the quiet period, with the
    arguments of the last call. *)
Theorem debounce_burst_runs_once
        (A : Type) (delay : Z) (s : Timing.debounced A)
        (g0 : nat) (a0 : A) (rest : list (nat * A)) :
  Timing.d_timeoutId A s = None ->
  Forall (fun c => (Z.of_nat (fst c) < Z.max 0 delay)%Z) rest ->
  let calls := (g0, a0) :: rest in
  let s' := Timing.debounce_run A delay
              (Timing.burst A calls
                 ++ [Timing.Tick (Z.to_nat (Z.max 0 delay)); Timing.Timeout]) s in
  Timing.executions (Timing.d_log A s')
    = (Timing.d_now A s', snd (List.last calls (g0, a0)))
        :: Timing.executions (Timing.d_log A s) /\
  Timing.d_timeoutId A s' = None /\
  Timing.d_now A s'
    = (Timing.d_now A s + Z.of_nat (list_sum (map fst calls)) + Z.max 0 delay)%Z.
Proof.
  intros Hnone Hall calls s'. subst s' calls.
  set (s1 := Timing.debounce_step A delay
               (Timing.debounce_step A delay
                  (Timing.debounce_step A delay s (Timing.Tick g0)) Timing.Timeout)
               (Timing.Invoke a0)).
  assert (H1 : Timing.d_timeoutId A s1
               = Some {| Timing.due := (Timing.d_now A s1 + Z.max 0 delay)%Z;
                         Timing.payload := a0 |} /\
               Timing.executions (Timing.d_log A s1)
                 = Timing.executions (Timing.d_log A s) /\
               Timing.d_now A s1 = (Timing.d_now A s + Z.of_nat g0)%Z).
  { subst s1. cbn [Timing.debounce_step Timing.d_timeoutId Timing.d_now Timing.d_log].
    rewrite Hnone.
    cbn [Timing.d_timeoutId Timing.d_now Timing.d_log Timing.executions].
    repeat split. }
  destruct H1 as (Ht1 & He1 & Hn1).
  pose proof (debounce_rest_of_burst A delay rest s1 a0 Ht1 Hall) as H2.
  cbv zeta in H2. destruct H2 as (Ht2 & He2 & Hn2).
  unfold Timing.debounce_run. rewrite !fold_left_app.
  change (fold_left (Timing.debounce_step A delay)
            (Timing.burst A ((g0, a0) :: rest)) s)
    with (Timing.debounce_run A delay (Timing.burst A rest) s1).
  set (s2 := Timing.debounce_run A delay (Timing.burst A rest) s1) in *.
  clearbody s2.
  cbn [fold_left Timing.debounce_step Timing.d_timeoutId Timing.d_now Timing.d_log].
  rewrite Ht2. cbn [Timing.due Timing.payload].
  destruct (Z.leb_spec (Timing.d_now A s2 + Z.max 0 delay)
                       (Timing.d_now A s2 + Z.of_nat (Z.to_nat (Z.max 0 delay))))
    as [_ | Hlt]; [|lia].
  cbn [Timing.d_log Timing.d_now Timing.d_timeoutId Timing.executions].
  split; [|split].
  - rewrite He2, He1. f_equal. f_equal.
    destruct rest as [|c rest']; [reflexivity|].
    change (List.last ((g0, a0) :: c :: rest') (g0, a0))
      with (List.last (c :: rest') (g0, a0)).
    f_equal. apply last_nonempty.
  - reflexivity.
  - rewrite Hn2, Hn1.
    change (list_sum (map fst ((g0, a0) :: rest)))
      with (g0 + list_sum (map fst rest))%nat.
    rewrite Nat2Z.inj_add. lia.
Qed.

Lemma debounce_burst_runs_once_witness :
  let s' := Timing.debounce_run nat 16
              (Timing.burst nat [(0, 1); (10, 2); (15, 3)]%nat
                 ++ [Timing.Tick 16; Timing.Timeout])
              (Timing.debounce_new nat 1000) in
  Timing.executions (Timing.d_log nat s') = [(1041%Z, 3%nat)] /\
  Timing.d_timeoutId nat s' = None /\
  Timing.d_now nat s' = 1041%Z.
Proof.
  apply (debounce_burst_runs_once nat 16 (Timing.debounce_new nat 1000)
           0 1 [(10, 2); (15, 3)]%nat).
  - reflexivity.
  - repeat constructor.
Defined.

Section ThrottleFacts.
Import Timing.
Local Open Scope Z_scope.
Variable A : Type.
Variable delay : Z.

Lemma throttle_step_inv (s : throttled A) (e : event A) :
  on_time A s e = true ->
  throttle_inv A delay s -> throttle_inv A delay (throttle_step A delay s e).
Proof.
  intros Hon (Hlast & Hsp & Ht). destruct e as [ms|a|]; cbn [throttle_step].
  - unfold throttle_inv. cbn [t_log lastExecTime t_timeoutId t_now].
    split; [exact Hlast|]. split; [exact Hsp|].
    unfold on_time in Hon. destruct (t_timeoutId A s) as [tm|]; [|exact Ht].
    apply Z.leb_le in Hon. destruct Ht as (Hd & _ & Hc). repeat split; assumption.
  - destruct (Z.ltb_spec delay (t_now A s - lastExecTime A s)) as [Hgt | Hle].
    + unfold throttle_inv.
      cbn [t_log lastExecTime t_timeoutId t_now executions last_called spaced].
      destruct (t_timeoutId A s) as [tm|].
      { destruct Ht as (Hd & Hn & _). lia. }
      split; [reflexivity|]. split.
      * split; [|exact Hsp].
        destruct (executions (t_log A s)) as [|[t b] l]; [exact I|]. subst t. lia.
      * eexists _, _. reflexivity.
    + unfold throttle_inv.
      cbn [t_log lastExecTime t_timeoutId t_now executions last_called due payload].
      split; [exact Hlast|]. split; [exact Hsp|]. repeat split; lia.
  - destruct (t_timeoutId A s) as [tm|] eqn:Etm.
    2:{ unfold throttle_inv. rewrite Etm. repeat split; assumption. }
    destruct Ht as (Hd & Hn & Hc).
    destruct (Z.leb_spec (due tm) (t_now A s)) as [Hdue | Hdue].
    + unfold throttle_inv.
      cbn [t_log lastExecTime t_timeoutId t_now executions last_called spaced].
      split; [reflexivity|]. split.
      * split; [|exact Hsp].
        destruct (executions (t_log A s)) as [|[t b] l]; [exact I|]. subst t. lia.
      * rewrite Hc. eexists _, _. reflexivity.
    + unfold throttle_inv. rewrite Etm. repeat split; assumption.
Qed.

Lemma throttle_run_inv (es : list (event A)) (s : throttled A) :
  punctual A delay es s = true ->
  throttle_inv A delay s -> throttle_inv A delay (throttle_run A delay es s).
Proof.
  unfold throttle_run. revert s.
  induction es as [|e es IH]; intros s Hp H; simpl; [exact H|].
  cbn [punctual] in Hp. apply andb_true_iff in Hp as [He Hp].
  apply IH; [exact Hp|]. apply throttle_step_inv; assumption.
Qed.

Lemma throttle_new_inv (now : Z) : throttle_inv A delay (throttle_new A now).
Proof. unfold throttle_inv. cbn. auto. Qed.

End ThrottleFacts.

(** X24: a throttled function keeps its distance.  When timers fire on
    time, two consecutive executions of [func] are never less than
    [delay] ms apart, whatever the pattern of calls. *)
Theorem throttle_keeps_distance
        (A : Type) (delay now : Z) (es : list (Timing.event A)) :
  Timing.punctual A delay es (Timing.throttle_new A now) = true ->
  Timing.spaced A delay
    (Timing.executions
       (Timing.t_log A (Timing.throttle_run A delay es (Timing.throttle_new A now)))).
Proof.
  intros Hp.
  exact (proj1 (proj2 (throttle_run_inv A delay es _ Hp (throttle_new_inv A delay now)))).
Qed.

Lemma throttle_keeps_distance_witness :
  Timing.spaced nat 100
    (Timing.executions
       (Timing.t_log nat
          (Timing.throttle_run nat 100
             [Timing.Invoke 1; Timing.Tick 30; Timing.Invoke 2; Timing.Tick 40;
              Timing.Invoke 3; Timing.Tick 30; Timing.Timeout; Timing.Tick 150;
              Timing.Invoke 4]%nat
             (Timing.throttle_new nat 1000)))).
Proof.
  apply (throttle_keeps_distance nat 100 1000
           [Timing.Invoke 1; Timing.Tick 30; Timing.Invoke 2; Timing.Tick 40;
            Timing.Invoke 3; Timing.Tick 30; Timing.Timeout; Timing.Tick 150;
            Timing.Invoke 4]%nat).
  reflexivity.
Defined.

(** X25: a throttled function serves the last call.  When timers fire on
    time, at any moment the arguments of the most recent call are either
    those of the pending timer or, if no timer is pending, those of the
    newest execution: a call is never dropped for good and never
    overtaken by an older one. *)
Theorem throttle_serves_last_call
        (A : Type) (delay now : Z) (es : list (Timing.event A)) (a : A) :
  Timing.punctual A delay es (Timing.throttle_new A now) = true ->
  let s := Timing.throttle_run A delay es (Timing.throttle_new A now) in
  Timing.last_called A (Timing.t_log A s) = Some a ->
  match Timing.t_timeoutId A s with
  | Some tm => Timing.payload tm = a
  | None => exists t rest, Timing.executions (Timing.t_log A s) = (t, a) :: rest
  end.
Proof.
  intros Hp s Hc. subst s.
  destruct (throttle_run_inv A delay es _ Hp (throttle_new_inv A delay now))
    as (_ & _ & Ht).
  destruct (Timing.t_timeoutId A _) as [tm|].
  - destruct Ht as (_ & _ & Hl). congruence.
  - rewrite Hc in Ht. exact Ht.
Qed.

Lemma throttle_serves_last_call_witness :
  exists t rest,
    Timing.executions
      (Timing.t_log nat
         (Timing.throttle_run nat 100
            [Timing.Invoke 1; Timing.Tick 30; Timing.Invoke 2; Timing.Tick 40;
             Timing.Invoke 3; Timing.Tick 30; Timing.Timeout]%nat
            (Timing.throttle_new nat 1000)))
    = (t, 3%nat) :: rest.
Proof.
  apply (throttle_serves_last_call nat 100 1000
           [Timing.Invoke 1; Timing.Tick 30; Timing.Invoke 2; Timing.Tick 40;
            Timing.Invoke 3; Timing.Tick 30; Timing.Timeout]%nat 3%nat);
    reflexivity.
Defined.

Section ResizeFacts.
Import ParticlePage.

Lemma Education_destroy_keeps_page (w : t) :
  container (Education.ParticleSystem.destroy w) = container w /\
  prefers_reduced_motion (Education.ParticleSystem.destroy w) = prefers_reduced_motion w.
Proof.
  unfold Education.ParticleSystem.destroy. cbn [set_isActive animationFrameId].
  destruct (animationFrameId w) as [[|id]|]; split; reflexivity.
Qed.

Lemma length_Education_new (w : t) :
  length (particles (Education.ParticleSystem.new w))
  = if container w && (768 <? innerWidth w)%Z && negb (prefers_reduced_motion w)
    then Z.to_nat (Z.min 50 (innerWidth w / 30)) else 0.
Proof.
  unfold Education.ParticleSystem.new, Education.ParticleSystem.init.
  cbn [container set_animationFrameId set_isActive set_particles innerWidth
       prefers_reduced_motion].
  destruct (container w); [|reflexivity]. cbn [andb].
  destruct ((768 <? innerWidth w)%Z && negb (prefers_reduced_motion w)); [|reflexivity].
  cbn [set_isActive particles]. rewrite length_Education_animate.
  unfold createParticles. rewrite length_createParticles_loop. reflexivity.
Qed.

Lemma length_Educatum_new (w : t) :
  length (particles (Educatum.ParticleSystem.new w))
  = if container w && (768 <? innerWidth w)%Z && negb (prefers_reduced_motion w)
    then Z.to_nat (Z.min 50 (innerWidth w / 30)) else 0.
Proof.
  unfold Educatum.ParticleSystem.new, Educatum.ParticleSystem.init.
  cbn [container set_isActive set_particles innerWidth prefers_reduced_motion].
  destruct (container w); [|reflexivity]. cbn [andb].
  destruct ((768 <? innerWidth w)%Z && negb (prefers_reduced_motion w)); [|reflexivity].
  cbn [set_isActive particles]. rewrite length_Educatum_animate.
  unfold createParticles. rewrite length_createParticles_loop. reflexivity.
Qed.

(** The constructor requests no frame and cancels none. *)
Lemma new_keeps_queue (w : t) :
  queued (Education.ParticleSystem.new w) = queued w /\
  queued (Educatum.ParticleSystem.new w) = queued w.
Proof.
  destruct (new_requests_no_frame w) as [F1 F2]. unfold queued. rewrite F1, F2.
  unfold Education.ParticleSystem.new, Educatum.ParticleSystem.new,
    Education.ParticleSystem.init, Educatum.ParticleSystem.init,
    Education.ParticleSystem.animate, Educatum.ParticleSystem.animate.
  cbn [container set_animationFrameId set_isActive set_particles innerWidth
       prefers_reduced_motion].
  destruct (container w); [|split; reflexivity].
  destruct ((768 <? innerWidth w)%Z && negb (prefers_reduced_motion w));
    [|split; reflexivity].
  unfold createParticles. split.
  - destruct (createParticles_loop_state
                (Z.to_nat (particleCount
                   (set_animationFrameId None (set_isActive false (set_particles [] w)))))
                (set_animationFrameId None (set_isActive false (set_particles [] w))))
      as (_ & _ & _ & _ & _ & Ha & _ & _ & Hs).
    cbn [isActive set_animationFrameId set_isActive] in Ha. rewrite Ha.
    cbn [negb set_isActive stale_frames]. rewrite Hs. reflexivity.
  - destruct (createParticles_loop_state
                (Z.to_nat (particleCount (set_isActive false (set_particles [] w))))
                (set_isActive false (set_particles [] w)))
      as (_ & _ & _ & _ & _ & Ha & _ & _ & Hs).
    cbn [isActive set_isActive] in Ha. rewrite Ha.
    cbn [negb set_isActive stale_frames]. rewrite Hs. reflexivity.
Qed.

(** A frame in which the current object has no callback: the callbacks
    of discarded objects run, do nothing and are gone. *)
Lemma stale_frame_tick (v : t) :
  Raf.pending (frames v) = [] ->
  queued (Education.ParticleSystem.frame_tick v) = [] /\
  queued (Educatum.ParticleSystem.frame_tick v) = [].
Proof.
  intros Hv. unfold Education.ParticleSystem.frame_tick,
               Educatum.ParticleSystem.frame_tick, queued.
  cbn [Raf.take]. rewrite Hv. split; reflexivity.
Qed.

Lemma repeat_snoc (A : Type) (a : A) (n : nat) : repeat a (S n) = (repeat a n ++ [a])%list.
Proof. induction n as [|n IH]; [reflexivity|]. cbn [repeat app] in *. rewrite <- IH. reflexivity. Qed.

End ResizeFacts.

(** X26: a resize is a rebuild.  After [handleResize] the number of
    particles is the one for the new width (none at 768px or less, with
    reduced motion, or without a container), whatever it was before.
    The new object has requested no frame; the callbacks the old object
    left in the browser's queue are still queued ([destroy] cancels at
    most the one stored handle) but they belong to the discarded object:
    frame ticks leave the new elements where they were created, and
    after the first tick the queue is empty, until the animations are
    resumed.  Both scripts. *)
Theorem resize_rebuilds_idle (w : ParticlePage.t) (width : Z) (n : nat) :
  let count :=
    if ParticlePage.container w && (768 <? width)%Z
       && negb (ParticlePage.prefers_reduced_motion w)
    then Z.to_nat (Z.min 50 (width / 30)) else 0 in
  let w1 := Education.ParticleSystem.handleResize width w in
  let w2 := Educatum.ParticleSystem.handleResize width w in
  (length (ParticlePage.particles w1) = count /\
   Raf.pending (ParticlePage.frames w1) = [] /\
   ParticlePage.stale_frames w1
     = ParticlePage.queued (Education.ParticleSystem.destroy w) /\
   ParticlePage.rendered (Education.ParticleSystem.run (repeat FrameTick n) w1)
     = ParticlePage.rendered w1 /\
   ParticlePage.queued (Education.ParticleSystem.run (repeat FrameTick (S n)) w1) = []) /\
  (length (ParticlePage.particles w2) = count /\
   Raf.pending (ParticlePage.frames w2) = [] /\
   ParticlePage.stale_frames w2 = ParticlePage.queued w /\
   ParticlePage.rendered (Educatum.ParticleSystem.run (repeat FrameTick n) w2)
     = ParticlePage.rendered w2 /\
   ParticlePage.queued (Educatum.ParticleSystem.run (repeat FrameTick (S n)) w2) = []).
Proof.
  cbv zeta. split.
  - unfold Education.ParticleSystem.handleResize. cbv zeta.
    set (v := ParticlePage.set_stale_frames _ _).
    assert (Hv : Raf.pending (ParticlePage.frames v) = []) by reflexivity.
    assert (Hs : ParticlePage.stale_frames v
                 = ParticlePage.queued (Education.ParticleSystem.destroy w))
      by reflexivity.
    assert (Hc : ParticlePage.container v = ParticlePage.container w /\
                 ParticlePage.prefers_reduced_motion v
                   = ParticlePage.prefers_reduced_motion w /\
                 ParticlePage.innerWidth v = width).
    { subst v. cbn [ParticlePage.set_frames ParticlePage.set_innerWidth
                    ParticlePage.set_stale_frames
                    ParticlePage.container ParticlePage.prefers_reduced_motion
                    ParticlePage.innerWidth].
      destruct (Education_destroy_keeps_page w) as [-> ->]. auto. }
    destruct Hc as (Hc1 & Hc2 & Hc3).
    pose proof (proj1 (new_requests_no_frame v)) as Hf.
    pose proof (proj1 (new_keeps_queue v)) as Hq.
    clearbody v.
    assert (Hp : Raf.pending (ParticlePage.frames (Education.ParticleSystem.new v)) = [])
      by (rewrite Hf; exact Hv).
    split; [|split; [|split; [|split]]].
    + rewrite length_Education_new, Hc1, Hc2, Hc3. reflexivity.
    + exact Hp.
    + unfold ParticlePage.queued in Hq. rewrite Hf, Hv, !List.app_nil_r in Hq.
      rewrite Hq. exact Hs.
    + apply Education_no_frame_ticks, Hp.
    + rewrite repeat_snoc. unfold Education.ParticleSystem.run. rewrite fold_left_app.
      cbn [fold_left Education.ParticleSystem.step].
      apply stale_frame_tick.
      apply (Education_no_frame_ticks n), Hp.
  - unfold Educatum.ParticleSystem.handleResize. cbv zeta.
    set (v := ParticlePage.set_stale_frames _ _).
    assert (Hv : Raf.pending (ParticlePage.frames v) = []) by reflexivity.
    assert (Hs : ParticlePage.stale_frames v = ParticlePage.queued w) by reflexivity.
    assert (Hc : ParticlePage.container v = ParticlePage.container w /\
                 ParticlePage.prefers_reduced_motion v
                   = ParticlePage.prefers_reduced_motion w /\
                 ParticlePage.innerWidth v = width) by (repeat split).
    destruct Hc as (Hc1 & Hc2 & Hc3).
    pose proof (proj2 (new_requests_no_frame v)) as Hf.
    pose proof (proj2 (new_keeps_queue v)) as Hq.
    clearbody v.
    assert (Hp : Raf.pending (ParticlePage.frames (Educatum.ParticleSystem.new v)) = [])
      by (rewrite Hf; exact Hv).
    split; [|split; [|split; [|split]]].
    + rewrite length_Educatum_new, Hc1, Hc2, Hc3. reflexivity.
    + exact Hp.
    + unfold ParticlePage.queued in Hq. rewrite Hf, Hv, !List.app_nil_r in Hq.
      rewrite Hq. exact Hs.
    + apply Educatum_no_frame_ticks, Hp.
    + rewrite repeat_snoc. unfold Educatum.ParticleSystem.run. rewrite fold_left_app.
      cbn [fold_left Educatum.ParticleSystem.step].
      apply stale_frame_tick.
      apply (Educatum_no_frame_ticks n), Hp.
Qed.

(** After one running frame loop and a resize, handle 1 of the old
    object is still in the browser's queue (the Educatum script cancels
    nothing); the frame that runs it moves no particle. *)
Lemma resize_rebuilds_idle_example :
  let w := Educatum.ParticleSystem.run [PageVisible; Resize 900]
             (Educatum.ParticleSystem.new page_near_one) in
  ParticlePage.queued w = [1] /\
  length (ParticlePage.particles w) = 30 /\
  ParticlePage.rendered (Educatum.ParticleSystem.frame_tick w) = ParticlePage.rendered w /\
  ParticlePage.queued (Educatum.ParticleSystem.frame_tick w) = [].
Proof. vm_compute. repeat split. Qed.
